(** * Self-Refining Portfolio Agent: wallet controller, fetch relays and
      refine flow, embedded in Rocq.

    The development follows the TypeScript sources:
    - the wallet context provider ([WalletProvider]: [fetchBalance],
      [startPolling], [stopPolling], [connect], [disconnect], the monitor
      and auto-reconnect effects);
    - the Stellar service ([getContractStats], [parseContractResult],
      [refineStrategy], [getCooldownRemaining]);
    - the routes [GET /api/portfolio/stats] and [POST /api/portfolio/refine];
    - the statistics fetch of [PortfolioMetrics] ([fetchContractStats])
      and the conditions under which it shows the blocks of the balance
      card;
    - [submitSignedTransaction] and the route
      [POST /api/transaction/submit];
    - the home page ([addLog], [handleRefineStrategy]) and the header
      ([truncateAddress]).

    Part I holds the definitions, Part II the lemmas and theorems of the
    service, the routes and the wallet controller, Part III further
    properties of the code. *)

From stdpp Require Import gmap strings list numbers pretty.
From Stdlib Require Import String Ascii ZArith QArith Qcanon Lia.

Close Scope Qc_scope.
Close Scope Q_scope.
Open Scope string_scope.
Set Warnings "-register-all".
Set Default Proof Using "Type".

(* ===================================================================== *)
(** * Part I: definitions                                                 *)
(* ===================================================================== *)

(** ** JavaScript strings

    A string is a sequence of code units below 256 (the Latin-1 range),
    one [ascii] each.  On such strings [trim], [toLowerCase], [includes]
    and [startsWith] are as in JavaScript: the white space and line
    terminators below 256 are U+0009..U+000D, U+0020 and U+00A0, and the
    letters with a lower case are [A]..[Z] and U+00C0..U+00DE without the
    multiplication sign U+00D7. *)
Module Js.

Definition isWhiteSpace (c : ascii) : bool :=
  let n := N_of_ascii c in
  ((9 <=? n)%N && (n <=? 13)%N) || (n =? 32)%N || (n =? 160)%N.

Fixpoint trimStart (s : string) : string :=
  match s with
  | EmptyString => EmptyString
  | String c r => if isWhiteSpace c then trimStart r else s
  end.

Fixpoint trimEnd (s : string) : string :=
  match s with
  | EmptyString => EmptyString
  | String c r =>
      match trimEnd r with
      | EmptyString => if isWhiteSpace c then EmptyString else String c EmptyString
      | r' => String c r'
      end
  end.

(** [String.prototype.trim] *)
Definition trim (s : string) : string := trimEnd (trimStart s).

Definition isEmpty (s : string) : bool :=
  match s with EmptyString => true | _ => false end.

Definition lowerChar (c : ascii) : ascii :=
  let n := N_of_ascii c in
  if ((65 <=? n)%N && (n <=? 90)%N)
     || ((192 <=? n)%N && (n <=? 222)%N && negb (n =? 215)%N)
  then ascii_of_N (n + 32)
  else c.

(** [String.prototype.toLowerCase] *)
Fixpoint toLowerCase (s : string) : string :=
  match s with
  | EmptyString => EmptyString
  | String c r => String (lowerChar c) (toLowerCase r)
  end.

(** [String.prototype.startsWith] *)
Fixpoint startsWith (s p : string) {struct p} : bool :=
  match p with
  | EmptyString => true
  | String a p' =>
      match s with
      | EmptyString => false
      | String b s' => Ascii.eqb a b && startsWith s' p'
      end
  end.

(** [String.prototype.includes] *)
Fixpoint includes (s pat : string) : bool :=
  startsWith s pat ||
  match s with
  | EmptyString => false
  | String _ r => includes r pat
  end.

(** Lower-case letters and the space: the characters of the patterns
    the service looks for. *)
Definition isPlain (c : ascii) : bool :=
  let n := N_of_ascii c in
  ((97 <=? n)%N && (n <=? 122)%N) || (n =? 32)%N.

Fixpoint allPlain (s : string) : bool :=
  match s with
  | EmptyString => true
  | String c r => isPlain c && allPlain r
  end.

Fixpoint allWhiteSpace (s : string) : bool :=
  match s with
  | EmptyString => true
  | String c r => isWhiteSpace c && allWhiteSpace r
  end.

(** Truthiness of a possibly [null]/[undefined] string: [!!s]. *)
Definition truthy (s : option string) : bool :=
  match s with
  | Some s => negb (isEmpty s)
  | None => false
  end.

(** [s || null] *)
Definition orNull (s : option string) : option string :=
  if truthy s then s else None.

(** A thrown value: whether it is an [Error] instance, its [message]
    and, for HTTP client errors, [response.status]. *)
Record Exn := mkExn {
  exn_isError : bool;
  exn_message : option string;
  exn_status : option Z
}.

Definition Error (msg : string) : Exn :=
  {| exn_isError := true; exn_message := Some msg; exn_status := None |}.

End Js.

(** ** The statistics fetch of [PortfolioMetrics] *)
Module PortfolioMetrics.

Record ContractStats := {
  cs_score : Qc;
  cs_transactions : Z;
  cs_source : string;
  cs_timestamp : option string
}.

(** The three [useState] cells of the component that the fetch writes. *)
Record StatsView := {
  contractStats : option ContractStats;
  statsLoading : bool;
  statsError : option string
}.

Definition initialView : StatsView :=
  {| contractStats := None; statsLoading := true; statsError := None |}.

(** What one [fetch('/api/portfolio/stats')] followed by
    [response.json()] gives: a parsed body, or a rejection. *)
Inductive FetchOutcome :=
| FetchJson (success : bool) (data : option ContractStats) (message : option string)
| FetchReject (e : Js.Exn).

(** What the component does to the outside: issue a GET, arm a timer. *)
Inductive Effect :=
| EvFetch
| EvSetTimeout (ms : Z).

Definition setStatsLoading (b : bool) (v : StatsView) : StatsView :=
  {| contractStats := contractStats v; statsLoading := b; statsError := statsError v |}.
Definition setStatsError (e : option string) (v : StatsView) : StatsView :=
  {| contractStats := contractStats v; statsLoading := statsLoading v; statsError := e |}.
Definition setContractStats (d : ContractStats) (v : StatsView) : StatsView :=
  {| contractStats := Some d; statsLoading := statsLoading v; statsError := statsError v |}.

(** The body of the [try] block of one attempt; the flag is [false]
    when control reaches the [catch] (a rejection, or the [throw] of the
    [else] branch). *)
Definition attemptOnce (o : FetchOutcome) (v : StatsView) : StatsView * bool :=
  let v := setStatsError None (setStatsLoading true v) in
  match o with
  | FetchJson true (Some d) _ => (setStatsLoading false (setContractStats d v), true)
  | FetchJson _ _ _ => (v, false)
  | FetchReject _ => (v, false)
  end.

(** [fetchContractStats(retries, delay)].  [net k] is the outcome of the
    [k]-th GET; [k] counts the GETs issued so far.  The callback armed by
    [setTimeout] is the recursive call, run when the timer fires. *)
Fixpoint fetchContractStats (net : nat -> FetchOutcome) (k : nat)
         (retries : nat) (delay : Z) (v : StatsView) : StatsView * list Effect :=
  let '(v1, ok) := attemptOnce (net k) v in
  if ok then (v1, [EvFetch])
  else
    match retries with
    | S r =>
        let '(v2, tr) := fetchContractStats net (S k) r (delay * 2)%Z v1 in
        (v2, EvFetch :: EvSetTimeout delay :: tr)
    | O =>
        (setStatsLoading false
           (setStatsError (Some "Failed to load contract statistics after multiple attempts") v1),
         [EvFetch])
    end.

(** The call made on mount: [fetchContractStats()] with the default
    arguments [retries = 3], [delay = 1000]. *)
Definition fetchOnMount (net : nat -> FetchOutcome) (v : StatsView) :=
  fetchContractStats net 0 3 1000%Z v.

Definition succeeds (o : FetchOutcome) : bool :=
  match o with
  | FetchJson true (Some _) _ => true
  | _ => false
  end.

Definition timeouts (tr : list Effect) : list Z :=
  omap (fun e => match e with EvSetTimeout ms => Some ms | EvFetch => None end) tr.

Definition fetches (tr : list Effect) : nat :=
  List.length (List.filter (fun e => match e with EvFetch => true | _ => false end) tr).

(** What the component does when all four attempts fail: a GET, then
    three times a timer and the GET of its callback. *)
Definition fullSchedule : list Effect :=
  [EvFetch; EvSetTimeout 1000; EvFetch; EvSetTimeout 2000; EvFetch; EvSetTimeout 4000; EvFetch].

(** The first of the four attempts (the initial one and three retries)
    that succeeds, if any. *)
Definition firstSuccess (net : nat -> FetchOutcome) : option nat :=
  List.find (fun k => succeeds (net k)) [0; 1; 2; 3].

End PortfolioMetrics.

(** ** [JSON.stringify] on the values the service serialises *)
Module Json.

Inductive value :=
| JNull
| JBool (b : bool)
| JNum (n : Z)
| JStr (s : string)
| JArr (l : list value)
| JObj (members : list (string * value)).

Definition dquote : ascii := ascii_of_N 34.
Definition backslash : ascii := ascii_of_N 92.

Definition hexDigit (n : N) : ascii :=
  if (n <? 10)%N then ascii_of_N (48 + n) else ascii_of_N (87 + n).

(** The escape of one character inside a JSON string literal. *)
Definition escapeChar (c : ascii) : string :=
  let n := N_of_ascii c in
  if (n =? 34)%N then String backslash (String dquote EmptyString)
  else if (n =? 92)%N then String backslash (String backslash EmptyString)
  else if (n =? 8)%N then String backslash "b"
  else if (n =? 12)%N then String backslash "f"
  else if (n =? 10)%N then String backslash "n"
  else if (n =? 13)%N then String backslash "r"
  else if (n =? 9)%N then String backslash "t"
  else if (n <? 32)%N then
    String backslash
      (String "u" (String "0" (String "0"
        (String (hexDigit (n / 16)) (String (hexDigit (n mod 16)) EmptyString)))))
  else String c EmptyString.

Fixpoint escape (s : string) : string :=
  match s with
  | EmptyString => EmptyString
  | String c r => escapeChar c ++ escape r
  end.

Definition quote (s : string) : string :=
  String dquote (escape s ++ String dquote EmptyString).

Fixpoint stringify (v : value) : string :=
  match v with
  | JNull => "null"
  | JBool true => "true"
  | JBool false => "false"
  | JNum n => pretty n
  | JStr s => quote s
  | JArr l => "[" ++ String.concat "," (List.map stringify l) ++ "]"
  | JObj ms =>
      "{" ++ String.concat ","
               (List.map (fun kv => let '(k, v) := kv in quote k ++ ":" ++ stringify v) ms)
          ++ "}"
  end.

(** The text of one member of an object. *)
Definition memberText (kv : string * value) : string :=
  let '(k, v) := kv in quote k ++ ":" ++ stringify v.

(** Property read [obj.key] on an object's member list. *)
Fixpoint get (key : string) (ms : list (string * value)) : option value :=
  match ms with
  | [] => None
  | (k, v) :: r => if String.eqb k key then Some v else get key r
  end.

End Json.

(** ** The Soroban SDK values the service handles *)
Module Soroban.

Inductive ScVal :=
| scvBool (b : bool)
| scvVoid
| scvU32 (n : Z)
| scvI32 (n : Z)
| scvU64 (n : Z)
| scvI64 (n : Z)
| scvU128 (hi lo : Z)
| scvSymbol (s : string)
| scvString (s : string)
| scvVec (l : list ScVal)
| scvMap (m : list (ScVal * ScVal))
| scvAddress (a : option string).

(** The JavaScript values [scValToNative] produces.  [NMap] is a
    JavaScript [Map]; [NObject] a plain object. *)
Inductive Native :=
| NNumber (n : Z)
| NBigInt (n : Z)
| NBool (b : bool)
| NNull
| NString (s : string)
| NArray (l : list Native)
| NObject (m : list (Native * Native))
| NMap (m : list (string * Native)).

(** [scValToNative]: 32-bit integers become numbers, wider ones
    [bigint]s, vectors arrays, maps plain objects.  An address of an
    unsupported kind ([scvAddress None]) makes the conversion throw. *)
Fixpoint scValToNative (v : ScVal) : Js.Exn + Native :=
  match v with
  | scvBool b => inr (NBool b)
  | scvVoid => inr NNull
  | scvU32 n => inr (NNumber n)
  | scvI32 n => inr (NNumber n)
  | scvU64 n => inr (NBigInt n)
  | scvI64 n => inr (NBigInt n)
  | scvU128 hi lo => inr (NBigInt (hi * 2 ^ 64 + lo))
  | scvSymbol s => inr (NString s)
  | scvString s => inr (NString s)
  | scvVec l =>
      match
        (fix go (l : list ScVal) : Js.Exn + list Native :=
           match l with
           | [] => inr []
           | x :: r =>
               match scValToNative x with
               | inl e => inl e
               | inr y => match go r with inl e => inl e | inr ys => inr (y :: ys) end
               end
           end) l
      with
      | inl e => inl e
      | inr ys => inr (NArray ys)
      end
  | scvMap m =>
      match
        (fix go (m : list (ScVal * ScVal)) : Js.Exn + list (Native * Native) :=
           match m with
           | [] => inr []
           | (k, x) :: r =>
               match scValToNative k with
               | inl e => inl e
               | inr k' =>
                   match scValToNative x with
                   | inl e => inl e
                   | inr x' =>
                       match go r with inl e => inl e | inr ys => inr ((k', x') :: ys) end
                   end
               end
           end) m
      with
      | inl e => inl e
      | inr ys => inr (NObject ys)
      end
  | scvAddress (Some a) => inr (NString a)
  | scvAddress None => inl (Js.Error "Unsupported address type")
  end.

(** The integer ranges of a well-formed value. *)
Fixpoint wellFormed (v : ScVal) : bool :=
  match v with
  | scvU32 n => (0 <=? n)%Z && (n <? 2 ^ 32)%Z
  | scvI32 n => (- 2 ^ 31 <=? n)%Z && (n <? 2 ^ 31)%Z
  | scvU64 n => (0 <=? n)%Z && (n <? 2 ^ 64)%Z
  | scvI64 n => (- 2 ^ 63 <=? n)%Z && (n <? 2 ^ 63)%Z
  | scvU128 hi lo => (0 <=? hi)%Z && (hi <? 2 ^ 64)%Z && (0 <=? lo)%Z && (lo <? 2 ^ 64)%Z
  | scvVec l => forallb wellFormed l
  | scvMap m => forallb (fun kv => wellFormed (fst kv) && wellFormed (snd kv)) m
  | _ => true
  end.

(** A contract invocation: the operation of the transaction built with
    [contract.call(method, ...args)]. *)
Record Call := { call_method : string; call_args : list ScVal }.

(** What [server.simulateTransaction] settles with: a success response
    (with [result?.retval]), an error response (the response object), or
    a rejection. *)
Inductive SimOutcome :=
| SimSuccess (retval : option ScVal)
| SimError (response : list (string * Json.value))
| SimReject (e : Js.Exn).

(** [rpc.Api.isSimulationSuccess] *)
Definition isSimulationSuccess (o : SimOutcome) : bool :=
  match o with SimSuccess _ => true | _ => false end.

End Soroban.

(** ** The Stellar service *)
Module StellarService.
Import Js Soroban.

Inductive Source := blockchain | fallback.

(** [PortfolioStats]; [timestamp] is optional in the interface. *)
Record PortfolioStats := {
  score : Qc;
  transactions : Z;
  timestamp : option string;
  source : Source
}.

(** [RefineStrategyResponse] (the unused [newScore] left out). *)
Record RefineStrategyResponse := {
  success : bool;
  message : string;
  error : option string;
  cooldownRemaining : option Z;
  transactionXDR : option string
}.

(** Everything outside the module: the environment variables, the clock,
    the SDK constructors that can throw, what the SDK throws for a
    number that is not an [i32], and the RPC server.  The
    functions of the RPC server and the clock take the number of
    interactions made so far, so that the same request can be answered
    differently at different times. *)
Record World := {
  SOROBAN_CONTRACT_ID : option string;
  SOROBAN_RPC_URL : option string;
  moduleLoadTime : string;
  nowISO : nat -> string;
  randomKey : nat -> string;
  newServer : string -> option Exn;
  newContract : string -> option Exn;
  addressFromString : string -> option Exn;
  invalidI32 : Z -> Exn;
  assembleToXDR : Call -> Exn + string;
  getAccount : nat -> string -> option Exn;
  simulate : nat -> Call -> Z * SimOutcome
}.

(** The interactions with the RPC server, in the order they were made. *)
Inductive Interaction :=
| IGetAccount (pk : string) (found : bool)
| ISimulate (c : Call) (latency : Z) (o : SimOutcome).

(** Computations that may throw and that extend the interaction log. *)
Definition M (A : Type) : Type := list Interaction -> (Exn + A) * list Interaction.

Definition ret {A} (a : A) : M A := fun log => (inr a, log).
Definition throw {A} (e : Exn) : M A := fun log => (inl e, log).
Definition bind {A B} (m : M A) (k : A -> M B) : M B :=
  fun log =>
    match m log with
    | (inr a, log') => k a log'
    | (inl e, log') => (inl e, log')
    end.
Definition tryCatch {A} (m : M A) (h : Exn -> M A) : M A :=
  fun log =>
    match m log with
    | (inr a, log') => (inr a, log')
    | (inl e, log') => h e log'
    end.

Notation "'let*' x ':=' c 'in' k" := (bind c (fun x => k))
  (at level 10, x name, c at level 100, k at level 200).

Definition REQUEST_TIMEOUT : Z := 10000.

Definition orElse (s : option string) (d : string) : string :=
  match s with
  | Some s => if isEmpty s then d else s
  | None => d
  end.

Definition isBlank (s : string) : bool := isEmpty s || isEmpty (trim s).

Definition eight_point_seven : Qc := Q2Qc (87 # 10).

(** [contract.call('get_metrics')] and
    [contract.call('get_cooldown_remaining')] *)
Definition metricsCall : Call := {| call_method := "get_metrics"; call_args := [] |}.
Definition cooldownCall : Call :=
  {| call_method := "get_cooldown_remaining"; call_args := [] |}.

(** *** Reading the interaction log *)

(** The contract read of [getContractStats] succeeded: its last
    interaction is the simulation of [get_metrics], answered within the
    time budget by a success response that carries a return value. *)
Definition contractReadSucceeded (added : list Interaction) : bool :=
  match last added with
  | Some (ISimulate c latency (SimSuccess (Some _))) =>
      String.eqb (call_method c) "get_metrics" && (latency <? REQUEST_TIMEOUT)%Z
  | _ => false
  end.

(** The simulation of a [refine_strategy] transaction that was
    answered by the error response [response]. *)
Definition isFailedRefineSimulation (response : list (string * Json.value))
           (i : Interaction) : Prop :=
  exists c latency,
    i = ISimulate c latency (SimError response) /\ call_method c = "refine_strategy".

(** Any simulation of a [refine_strategy] transaction. *)
Definition isRefineSimulation (i : Interaction) : bool :=
  match i with
  | ISimulate c _ _ => String.eqb (call_method c) "refine_strategy"
  | IGetAccount _ _ => false
  end.

(** The interactions of one [getCooldownRemaining]: account lookups
    and simulations of [get_cooldown_remaining]. *)
Definition isCooldownQuery (i : Interaction) : bool :=
  match i with
  | ISimulate c _ _ => String.eqb (call_method c) "get_cooldown_remaining"
  | IGetAccount _ _ => true
  end.

(** The number a cooldown query reads off the contract's answer. *)
Definition cooldownOfReply (o : SimOutcome) : Z :=
  match o with
  | SimSuccess (Some v) =>
      match scValToNative v with
      | inr (NNumber n) => n
      | _ => 0%Z
      end
  | _ => 0%Z
  end.


(** A negative 32-bit integer, the only values that [scValToNative]
    turns into a negative number. *)
Definition negativeNumber (v : ScVal) : bool :=
  match v with
  | scvI32 n => (n <? 0)%Z
  | scvU32 n => (n <? 0)%Z
  | _ => false
  end.

(** The interface of the contract, as far as the cooldown goes:
    [get_cooldown_remaining] returns the seconds that remain, a [u64]
    by the contract's README; it never answers with a negative
    number. *)
Definition cooldownInterface (w : World) : Prop :=
  forall k latency v,
    simulate w k cooldownCall = (latency, SimSuccess (Some v)) ->
    negativeNumber v = false.

(** [Number(n)] of an integer: the nearest double, ties to even.  The
    integers up to [2 ^ 53] in absolute value are doubles; a larger one
    keeps its 53 leading bits, rounded. *)
Definition toNumber (n : Z) : Z :=
  let a := Z.abs n in
  if (a <? 2 ^ 53)%Z then n
  else
    let e := (Z.log2 a - 52)%Z in
    let q := (a / 2 ^ e)%Z in
    let r := (a mod 2 ^ e)%Z in
    let half := (2 ^ (e - 1))%Z in
    let q' := if (half <? r)%Z || ((r =? half)%Z && Z.odd q) then (q + 1)%Z else q in
    (Z.sgn n * (q' * 2 ^ e))%Z.

(** The numbers an [i32] holds. *)
Definition isI32 (n : Z) : bool := (- 2 ^ 31 <=? n)%Z && (n <? 2 ^ 31)%Z.

Section WithWorld.
Variable w : World.

Definition CONTRACT_ID : string := orElse (SOROBAN_CONTRACT_ID w) "".
Definition RPC_URL : string :=
  orElse (SOROBAN_RPC_URL w) "https://soroban-testnet.stellar.org".

Definition FALLBACK_DATA : PortfolioStats :=
  {| score := eight_point_seven;
     transactions := 142;
     timestamp := Some (moduleLoadTime w);
     source := fallback |}.

Definition getSorobanServer : M unit :=
  if isEmpty RPC_URL
  then throw (Error "SOROBAN_RPC_URL environment variable is not set")
  else match newServer w RPC_URL with
       | Some e => throw e
       | None => ret tt
       end.

(** [new Contract(id)] *)
Definition Contract (id : string) : M unit :=
  match newContract w id with
  | Some e => throw e
  | None => ret tt
  end.

(** [Keypair.random().publicKey()] *)
Definition Keypair_random : M string :=
  fun log => (inr (randomKey w (List.length log)), log).

(** [new Date().toISOString()] *)
Definition now : M string :=
  fun log => (inr (nowISO w (List.length log)), log).

(** [server.getAccount(pk)] *)
Definition server_getAccount (pk : string) : M unit :=
  fun log =>
    match getAccount w (List.length log) pk with
    | None => (inr tt, (log ++ [IGetAccount pk true])%list)
    | Some e => (inl e, (log ++ [IGetAccount pk false])%list)
    end.

(** [server.simulateTransaction(tx)], optionally raced against a
    timer of [budget] milliseconds that rejects with
    [Error('Request timeout')]. *)
Definition simulateTransaction (budget : option Z) (c : Call) : M SimOutcome :=
  fun log =>
    let '(latency, o) := simulate w (List.length log) c in
    let log' := (log ++ [ISimulate c latency o])%list in
    let timedOut := match budget with
                    | Some b => (b <=? latency)%Z
                    | None => false
                    end in
    if timedOut then (inl (Error "Request timeout"), log')
    else match o with
         | SimReject e => (inl e, log')
         | _ => (inr o, log')
         end.

(** The source account of a read-only simulation: the account of a
    fresh key, or a mock account when the lookup throws. *)
Definition readOnlySource : M unit :=
  let* pk := Keypair_random in
  tryCatch (server_getAccount pk) (fun _ => ret tt).

(** [parseScValNumber]: 32-bit integers are numbers already, wider
    ones go through [Number()]. *)
Definition parseScValNumber (val : ScVal) : Z :=
  match val with
  | scvU32 n => n
  | scvI32 n => n
  | scvU64 n => toNumber n
  | scvI64 n => toNumber n
  | scvU128 hi lo => toNumber lo
  | _ => 0
  end.

(** [parseContractResultManual]; [Math.floor] leaves the integer that
    [parseScValNumber] returns. *)
Definition parseContractResultManual (resultValue : ScVal) : Qc * Z :=
  match resultValue with
  | scvMap m =>
      fold_left
        (fun (acc : Qc * Z) (entry : ScVal * ScVal) =>
           let '(key, val) := entry in
           let keyStr := match key with scvSymbol s => s | _ => "" end in
           if String.eqb keyStr "score" then (Q2Qc (inject_Z (parseScValNumber val)), snd acc)
           else if String.eqb keyStr "transactions" then (fst acc, parseScValNumber val)
           else acc)
        m (eight_point_seven, 142%Z)
  | _ => (eight_point_seven, 142%Z)
  end.

(** [typeof x === 'number' ? x / 10 : 8.7] *)
Definition displayScoreOf (x : Native) : Qc :=
  match x with
  | NNumber n => Q2Qc (n # 10)
  | _ => eight_point_seven
  end.

(** [typeof x === 'number' ? x : 142] *)
Definition transactionsOf (x : Native) : Z :=
  match x with
  | NNumber n => n
  | _ => 142%Z
  end.

(** [m.get(key) ?? d] on a JavaScript [Map] with string keys. *)
Fixpoint mapGetOr (key : string) (d : Native) (m : list (string * Native)) : Native :=
  match m with
  | [] => d
  | (k, v) :: r =>
      if String.eqb k key
      then match v with NNull => d | _ => v end
      else mapGetOr key d r
  end.

(** [parseContractResult] *)
Definition parseContractResult (resultValue : ScVal) : Qc * Z :=
  match scValToNative resultValue with
  | inr nativeValue =>
      match nativeValue with
      | NArray (score :: trades :: _) => (displayScoreOf score, transactionsOf trades)
      | NMap m =>
          (displayScoreOf (mapGetOr "score" (NNumber 87) m),
           transactionsOf (mapGetOr "transactions" (NNumber 142) m))
      | _ => (eight_point_seven, 142%Z)
      end
  | inl _ => parseContractResultManual resultValue
  end.

(** [getContractStats] *)
Definition getContractStats : M PortfolioStats :=
  tryCatch
    (if isBlank CONTRACT_ID then ret FALLBACK_DATA
     else
       let* _ := getSorobanServer in
       let* _ := readOnlySource in
       let* _ := Contract CONTRACT_ID in
       let* simulationResult :=
         simulateTransaction (Some REQUEST_TIMEOUT) metricsCall in
       match simulationResult with
       | SimSuccess (Some resultValue) =>
           let stats := parseContractResult resultValue in
           let* t := now in
           ret {| score := fst stats;
                  transactions := snd stats;
                  timestamp := Some t;
                  source := blockchain |}
       | _ => ret FALLBACK_DATA
       end)
    (fun _ => ret FALLBACK_DATA).

(** [getCooldownRemaining] *)
Definition getCooldownRemaining : M Z :=
  tryCatch
    (let* _ := getSorobanServer in
     let* _ := Contract CONTRACT_ID in
     let* _ := readOnlySource in
     let* simulationResult := simulateTransaction None cooldownCall in
     match simulationResult with
     | SimSuccess (Some resultValue) =>
         match scValToNative resultValue with
         | inr (NNumber cooldownSeconds) => ret cooldownSeconds
         | inr _ => ret 0%Z
         | inl e => throw e
         end
     | _ => ret 0%Z
     end)
    (fun _ => ret 0%Z).

Definition cooldownPatterns : list string :=
  ["unreachablecodereached"; "vm call trapped"; "unreachable"].

(** The disjunction of the three [includes] tests. *)
Definition mentionsCooldown (lowered : string) : bool :=
  includes lowered "unreachablecodereached"
  || includes lowered "vm call trapped"
  || includes lowered "unreachable".

(** The object literal returned on the three cooldown paths. *)
Definition cooldownActive (remaining : Z) : RefineStrategyResponse :=
  {| success := false;
     message := "Strategy refinement is on cooldown. Please wait "
                ++ pretty remaining ++ " seconds.";
     error := Some "COOLDOWN_ACTIVE";
     cooldownRemaining := Some remaining;
     transactionXDR := None |}.

Definition failed (msg code : string) : RefineStrategyResponse :=
  {| success := false;
     message := msg;
     error := Some code;
     cooldownRemaining := None;
     transactionXDR := None |}.

(** [simulationResult.error || ''] *)
Definition simErrorOf (response : list (string * Json.value)) : string :=
  match Json.get "error" response with
  | Some (Json.JStr e) => e
  | _ => ""
  end.

(** The transaction of the operation
    [contract.call('refine_strategy', address, metric)], as it is sent
    for simulation: [Address.fromString] throws on a malformed address,
    and a metric that is not an [i32] makes the SDK throw before
    anything is sent. *)
Definition refineCall (walletAddress : string) (performanceMetric : Z) : M Call :=
  match addressFromString w walletAddress with
  | Some e => throw e
  | None =>
      if isI32 performanceMetric
      then ret {| call_method := "refine_strategy";
                  call_args := [scvAddress (Some walletAddress); scvI32 performanceMetric] |}
      else throw (invalidI32 w performanceMetric)
  end.

(** [refineStrategy] *)
Definition refineStrategy (walletAddress : string) (performanceMetric : Z)
  : M RefineStrategyResponse :=
  tryCatch
    (let* cooldownRemaining := getCooldownRemaining in
     if (0 <? cooldownRemaining)%Z then ret (cooldownActive cooldownRemaining)
     else if isBlank CONTRACT_ID
     then ret (failed "Contract ID not configured" "UNKNOWN_ERROR")
     else
       let* _ := getSorobanServer in
       let* loaded :=
         tryCatch (let* _ := server_getAccount walletAddress in ret true)
                  (fun _ => ret false) in
       if negb loaded
       then ret (failed
              "Failed to load wallet account. Please ensure it is funded on Testnet."
              "UNKNOWN_ERROR")
       else
         let* _ := Contract CONTRACT_ID in
         let* transaction := refineCall walletAddress performanceMetric in
         let* simulationResult := simulateTransaction None transaction in
         match simulationResult with
         | SimSuccess _ =>
             match assembleToXDR w transaction with
             | inl e => throw e
             | inr xdr =>
                 ret {| success := true;
                        message := "Transaction simulated successfully. Signing required.";
                        error := None;
                        cooldownRemaining := None;
                        transactionXDR := Some xdr |}
             end
         | SimError response =>
             let simError := simErrorOf response in
             let errorString := toLowerCase (Json.stringify (Json.JObj response)) in
             if mentionsCooldown errorString
             then
               let* remaining := getCooldownRemaining in
               ret (cooldownActive remaining)
             else ret (failed ("Simulation failed: " ++ simError) "SIMULATION_FAILED")
         | SimReject e => throw e
         end)
    (fun error =>
       if exn_isError error
       then
         let msg := default "" (exn_message error) in
         if includes msg "UnreachableCodeReached"
         then
           let* remaining := getCooldownRemaining in
           ret (cooldownActive remaining)
         else ret (failed msg "UNKNOWN_ERROR")
       else ret (failed "An unknown error occurred" "UNKNOWN_ERROR")).

End WithWorld.

End StellarService.

(** ** [GET /api/portfolio/stats] *)
Module StatsRoute.
Import Js StellarService.

Record Body := {
  body_success : bool;
  body_error : option string;
  body_data : PortfolioStats
}.

Record Response := {
  status : Z;
  body : Body;
  cacheControl : option string
}.

(** The handler, over the service call it awaits. *)
Definition GET_with (w : World) (service : M PortfolioStats)
  : list Interaction -> Response * list Interaction :=
  fun log =>
    match service log with
    | (inr stats, log') =>
        ({| status := 200;
            body := {| body_success := true; body_error := None; body_data := stats |};
            cacheControl := Some "no-store, max-age=0" |}, log')
    | (inl _, log') =>
        ({| status := 200;
            body := {| body_success := false;
                       body_error := Some "Failed to fetch portfolio statistics";
                       body_data := {| score := eight_point_seven;
                                       transactions := 142;
                                       timestamp := Some (nowISO w (List.length log'));
                                       source := fallback |} |};
            cacheControl := Some "no-store, max-age=0" |}, log')
    end.

Definition GET (w : World) := GET_with w (getContractStats w).

End StatsRoute.

(** ** [POST /api/portfolio/refine] *)
Module RefineRoute.
Import Js StellarService.

(** The parsed request body: [walletAddress] may be absent or of any
    JSON type, [performanceMetric] may be absent. *)
Record RequestBody := {
  walletAddress : option Json.value;
  performanceMetric : option Z
}.

(** The JSON written to the response. *)
Record Body := {
  body_success : bool;
  body_message : option string;
  body_error : option string;
  body_cooldownRemaining : option Z;
  body_transactionXDR : option string
}.

Record Response := {
  status : Z;
  body : Body;
  cacheControl : option string
}.

Definition json (result : RefineStrategyResponse) : Body :=
  {| body_success := success result;
     body_message := Some (message result);
     body_error := error result;
     body_cooldownRemaining := cooldownRemaining result;
     body_transactionXDR := transactionXDR result |}.

Definition noCache : option string := Some "no-store, max-age=0".

(** The handler; [request] is what [request.json()] settles with. *)
Definition POST (w : World) (request : Exn + RequestBody) : M Response :=
  tryCatch
    (match request with
     | inl e => throw e
     | inr req =>
         match walletAddress req with
         | Some (Json.JStr address) =>
             if isEmpty address
             then ret {| status := 400;
                         body := {| body_success := false;
                                    body_message := None;
                                    body_error := Some "Wallet address is required";
                                    body_cooldownRemaining := None;
                                    body_transactionXDR := None |};
                         cacheControl := None |}
             else
               let* result := refineStrategy w address (default 10%Z (performanceMetric req)) in
               if negb (success result) && bool_decide (error result = Some "COOLDOWN_ACTIVE")
               then ret {| status := 400; body := json result; cacheControl := noCache |}
               else if negb (success result)
                       && bool_decide (error result = Some "SIMULATION_FAILED")
                       && mentionsCooldown (toLowerCase (message result))
               then
                 let* cooldownSeconds := getCooldownRemaining w in
                 ret {| status := 400;
                        body := {| body_success := false;
                                   body_message := Some "Strategy optimization is recharging";
                                   body_error := Some "COOLDOWN_ACTIVE";
                                   body_cooldownRemaining := Some cooldownSeconds;
                                   body_transactionXDR := None |};
                        cacheControl := noCache |}
               else ret {| status := if success result then 200 else 400;
                           body := json result;
                           cacheControl := noCache |}
         | _ =>
             ret {| status := 400;
                    body := {| body_success := false;
                               body_message := None;
                               body_error := Some "Wallet address is required";
                               body_cooldownRemaining := None;
                               body_transactionXDR := None |};
                    cacheControl := None |}
         end
     end)
    (fun error =>
       ret {| status := 500;
              body := {| body_success := false;
                         body_message := Some "Failed to process refinement request";
                         body_error :=
                           Some (if exn_isError error
                                 then default "" (exn_message error)
                                 else "UNKNOWN_ERROR");
                         body_cooldownRemaining := None;
                         body_transactionXDR := None |};
              cacheControl := noCache |}).

End RefineRoute.

(** ** The wallet context provider

    The provider is an event-driven controller.  Its asynchronous
    functions are cut at every [await]: the part before the [await] runs
    when the function is called, the rest is a suspended continuation
    ([Pending]) that runs when the awaited call settles ([Settled]).
    Between the two, any other event may be handled, as on the
    JavaScript event loop. *)
Module WalletContext.
Import Js.

Inductive Network := TESTNET.

Record WalletState := {
  address : option string;
  isAuthorized : bool;
  network : Network;
  isLoading : bool;
  error : option string;
  balance : option string;
  isWalletLocked : bool
}.

(** The argument of [useState]; also what [disconnect] sets. *)
Definition initialState : WalletState :=
  {| address := None;
     isAuthorized := false;
     network := TESTNET;
     isLoading := false;
     error := None;
     balance := None;
     isWalletLocked := false |}.

(** The object stored under [WALLET_STORAGE_KEY]. *)
Record SavedConnection := {
  saved_address : string;
  saved_isAuthorized : bool
}.

(** An entry of [account.balances]. *)
Record BalanceEntry := {
  asset_type : string;
  entry_balance : string
}.

(** The callbacks given to [setInterval].  [checkConnection] closes
    over the [state.address] of the render that created it. *)
Inductive Callback :=
| pollForAddress
| checkConnection (captured : option string).

Record Interval := {
  callback : Callback;
  period : Z
}.

(** What [isConnected()] resolves with: the object [{ isConnected }]
    of the API whose [getAddress()] resolves with [{ address }], or the
    bare boolean of the API before it. *)
Inductive ConnectedAnswer :=
| ConnectedObject (isConnected : bool)
| ConnectedBoolean (b : bool).

(** [!!connected]: an object is truthy whatever it holds. *)
Definition truthyConnected (a : ConnectedAnswer) : bool :=
  match a with
  | ConnectedObject _ => true
  | ConnectedBoolean b => b
  end.

(** What the answer says of the wallet. *)
Definition reportsConnected (a : ConnectedAnswer) : bool :=
  match a with
  | ConnectedObject b => b
  | ConnectedBoolean b => b
  end.

(** What an awaited call settles with. *)
Inductive Settled :=
| Resolved_isConnected (connected : ConnectedAnswer)
| Resolved_requestAccess
| Resolved_getAddress (addr : option string)
| Resolved_loadAccount (balances : list BalanceEntry)
| Rejected (e : Exn).

(** The suspended continuations, named after the function and the call
    it awaits.  [AwaitFetchBalance pk k] is the [loadAccount] inside
    [fetchBalance]; [k] is [Some key] when the caller is
    [pollForAddress], which awaits [fetchBalance] and then persists the
    connection of [key], and [None] when nobody awaits the result. *)
Inductive Pending :=
| AwaitConnect_isConnected
| AwaitConnect_requestAccess
| AwaitPoll_getAddress
| AwaitFetchBalance (publicKey : string) (thenPersist : option string)
| AwaitMonitor_isConnected (captured : option string)
| AwaitMonitor_getAddress (captured : option string)
| AwaitAuto_getAddress (savedAddress : string).

(** Calls to the outside and console warnings, in order. *)
Inductive Output :=
| ConsoleWarn (msg : string)
| Horizon_loadAccount (pk : string)
| Freighter_isConnected
| Freighter_requestAccess
| Freighter_getAddress.

(** The provider and its surroundings:
    - [state], [isClientReady]: the two [useState] cells;
    - [pollingIntervalRef]: the [useRef] cell of the polling interval;
    - [monitorInterval]: the handle closed over by the cleanup of the
      current monitor effect, if that effect armed an interval;
    - [timers], [nextTimer]: the browser's table of live intervals and
      the next handle [setInterval] returns;
    - [localStorage]: the value under [WALLET_STORAGE_KEY];
    - [pending]: the asynchronous calls in flight, oldest first;
    - [output]: what was called and warned so far. *)
Record Controller := {
  state : WalletState;
  isClientReady : bool;
  pollingIntervalRef : option nat;
  monitorInterval : option nat;
  timers : gmap nat Interval;
  nextTimer : nat;
  localStorage : option SavedConnection;
  pending : list Pending;
  output : list Output
}.

(** The provider before its first effect has run.  Interval handles
    are positive, hence truthy. *)
Definition initial (stored : option SavedConnection) : Controller :=
  {| state := initialState;
     isClientReady := false;
     pollingIntervalRef := None;
     monitorInterval := None;
     timers := ∅;
     nextTimer := 1;
     localStorage := stored;
     pending := [];
     output := [] |}.

(** *** Field updates *)

Definition setState (f : WalletState -> WalletState) (c : Controller) : Controller :=
  {| state := f (state c);
     isClientReady := isClientReady c;
     pollingIntervalRef := pollingIntervalRef c;
     monitorInterval := monitorInterval c;
     timers := timers c;
     nextTimer := nextTimer c;
     localStorage := localStorage c;
     pending := pending c;
     output := output c |}.

Definition setIsClientReady (b : bool) (c : Controller) : Controller :=
  {| state := state c;
     isClientReady := b;
     pollingIntervalRef := pollingIntervalRef c;
     monitorInterval := monitorInterval c;
     timers := timers c;
     nextTimer := nextTimer c;
     localStorage := localStorage c;
     pending := pending c;
     output := output c |}.

Definition setPollingIntervalRef (r : option nat) (c : Controller) : Controller :=
  {| state := state c;
     isClientReady := isClientReady c;
     pollingIntervalRef := r;
     monitorInterval := monitorInterval c;
     timers := timers c;
     nextTimer := nextTimer c;
     localStorage := localStorage c;
     pending := pending c;
     output := output c |}.

Definition setMonitorInterval (r : option nat) (c : Controller) : Controller :=
  {| state := state c;
     isClientReady := isClientReady c;
     pollingIntervalRef := pollingIntervalRef c;
     monitorInterval := r;
     timers := timers c;
     nextTimer := nextTimer c;
     localStorage := localStorage c;
     pending := pending c;
     output := output c |}.

Definition setLocalStorage (s : option SavedConnection) (c : Controller) : Controller :=
  {| state := state c;
     isClientReady := isClientReady c;
     pollingIntervalRef := pollingIntervalRef c;
     monitorInterval := monitorInterval c;
     timers := timers c;
     nextTimer := nextTimer c;
     localStorage := s;
     pending := pending c;
     output := output c |}.

Definition setPending (p : list Pending) (c : Controller) : Controller :=
  {| state := state c;
     isClientReady := isClientReady c;
     pollingIntervalRef := pollingIntervalRef c;
     monitorInterval := monitorInterval c;
     timers := timers c;
     nextTimer := nextTimer c;
     localStorage := localStorage c;
     pending := p;
     output := output c |}.

(** Make a call to the outside. *)
Definition emit (o : Output) (c : Controller) : Controller :=
  {| state := state c;
     isClientReady := isClientReady c;
     pollingIntervalRef := pollingIntervalRef c;
     monitorInterval := monitorInterval c;
     timers := timers c;
     nextTimer := nextTimer c;
     localStorage := localStorage c;
     pending := pending c;
     output := (output c ++ [o])%list |}.

(** Suspend at an [await]. *)
Definition await (p : Pending) (c : Controller) : Controller :=
  setPending (pending c ++ [p])%list c.

(** [clearInterval(id)] *)
Definition clearInterval (id : nat) (c : Controller) : Controller :=
  {| state := state c;
     isClientReady := isClientReady c;
     pollingIntervalRef := pollingIntervalRef c;
     monitorInterval := monitorInterval c;
     timers := delete id (timers c);
     nextTimer := nextTimer c;
     localStorage := localStorage c;
     pending := pending c;
     output := output c |}.

(** [setInterval(cb, ms)]: the new handle is [nextTimer c]. *)
Definition setInterval (cb : Callback) (ms : Z) (c : Controller) : Controller :=
  {| state := state c;
     isClientReady := isClientReady c;
     pollingIntervalRef := pollingIntervalRef c;
     monitorInterval := monitorInterval c;
     timers := <[nextTimer c := {| callback := cb; period := ms |}]> (timers c);
     nextTimer := S (nextTimer c);
     localStorage := localStorage c;
     pending := pending c;
     output := output c |}.

(** The state updater functions passed to [setState]. *)

Definition withBalance (b : string) (prev : WalletState) : WalletState :=
  {| address := address prev;
     isAuthorized := isAuthorized prev;
     network := network prev;
     isLoading := isLoading prev;
     error := error prev;
     balance := Some b;
     isWalletLocked := isWalletLocked prev |}.

Definition withAddressRetrieved (publicKey : string) (prev : WalletState) : WalletState :=
  {| address := Some publicKey;
     isAuthorized := true;
     network := network prev;
     isLoading := false;
     error := None;
     balance := balance prev;
     isWalletLocked := false |}.

Definition withConnecting (prev : WalletState) : WalletState :=
  {| address := address prev;
     isAuthorized := isAuthorized prev;
     network := network prev;
     isLoading := true;
     error := None;
     balance := balance prev;
     isWalletLocked := isWalletLocked prev |}.

Definition withConnectError (e : Exn) (prev : WalletState) : WalletState :=
  {| address := address prev;
     isAuthorized := isAuthorized prev;
     network := network prev;
     isLoading := false;
     error := Some (match exn_message e with
                    | Some m => if isEmpty m then "Failed to connect wallet" else m
                    | None => "Failed to connect wallet"
                    end);
     balance := balance prev;
     isWalletLocked := match exn_message e with
                       | Some m => includes m "locked" || includes m "denied"
                       | None => false
                       end |}.

Definition withLocked (msg : string) (prev : WalletState) : WalletState :=
  {| address := address prev;
     isAuthorized := isAuthorized prev;
     network := network prev;
     isLoading := isLoading prev;
     error := Some msg;
     balance := balance prev;
     isWalletLocked := true |}.

Definition withRestored (publicKey : option string) (prev : WalletState) : WalletState :=
  {| address := publicKey;
     isAuthorized := true;
     network := network prev;
     isLoading := isLoading prev;
     error := error prev;
     balance := balance prev;
     isWalletLocked := false |}.

Definition withWalletLocked (prev : WalletState) : WalletState :=
  {| address := address prev;
     isAuthorized := isAuthorized prev;
     network := network prev;
     isLoading := isLoading prev;
     error := error prev;
     balance := balance prev;
     isWalletLocked := true |}.

(** *** The provider's functions *)

Definition WALLET_STORAGE_KEY : string := "stellar_wallet_connection".

(** Back in the caller of [fetchBalance]: [pollForAddress] persists the
    connection, other callers do nothing more. *)
Definition returnTo (thenPersist : option string) (c : Controller) : Controller :=
  match thenPersist with
  | Some publicKey =>
      setLocalStorage
        (Some {| saved_address := publicKey; saved_isAuthorized := true |}) c
  | None => c
  end.

(** [fetchBalance], up to [await server.loadAccount(publicKey)]. *)
Definition fetchBalance (publicKey : option string) (thenPersist : option string)
           (c : Controller) : Controller :=
  match publicKey with
  | Some pk =>
      if isEmpty pk || isEmpty (trim pk)
      then returnTo thenPersist (emit (ConsoleWarn "[fetchBalance] Invalid public key") c)
      else await (AwaitFetchBalance pk thenPersist) (emit (Horizon_loadAccount pk) c)
  | None =>
      returnTo thenPersist (emit (ConsoleWarn "[fetchBalance] Invalid public key") c)
  end.

Definition isNative (b : BalanceEntry) : bool := String.eqb (asset_type b) "native".

(** [fetchBalance], after the [await]. *)
Definition fetchBalance_settled (thenPersist : option string) (r : Settled)
           (c : Controller) : option Controller :=
  match r with
  | Resolved_loadAccount balances =>
      match List.find isNative balances with
      | Some nativeBalance =>
          Some (returnTo thenPersist (setState (withBalance (entry_balance nativeBalance)) c))
      | None =>
          Some (returnTo thenPersist (setState (withBalance "0") c))
      end
  | Rejected e =>
      if bool_decide (exn_status e = Some 404%Z)
      then Some (returnTo thenPersist (setState (withBalance "10000.00") c))
      else Some (returnTo thenPersist (setState (withBalance "10000.00") c))
  | _ => None
  end.

(** [stopPolling] *)
Definition stopPolling (c : Controller) : Controller :=
  match pollingIntervalRef c with
  | Some id => setPollingIntervalRef None (clearInterval id c)
  | None => c
  end.

(** [pollForAddress], up to [await getAddress()]. *)
Definition pollForAddress_call (c : Controller) : Controller :=
  await AwaitPoll_getAddress (emit Freighter_getAddress c).

(** [startPolling] *)
Definition startPolling (c : Controller) : Controller :=
  let c1 := match pollingIntervalRef c with
            | Some id => clearInterval id c
            | None => c
            end in
  let c2 := pollForAddress_call c1 in
  setPollingIntervalRef (Some (nextTimer c2)) (setInterval pollForAddress 1000 c2).

(** [pollForAddress], after [await getAddress()]. *)
Definition pollForAddress_settled (r : Settled) (c : Controller) : option Controller :=
  match r with
  | Resolved_getAddress addr =>
      match orNull addr with
      | Some publicKey =>
          if negb (isEmpty (trim publicKey)) && startsWith publicKey "G"
          then
            let c1 := match pollingIntervalRef c with
                      | Some id => setPollingIntervalRef None (clearInterval id c)
                      | None => c
                      end in
            let c2 := setState (withAddressRetrieved publicKey) c1 in
            Some (fetchBalance (Some publicKey) (Some publicKey) c2)
          else Some c
      | None => Some c
      end
  | Rejected _ => Some c
  | _ => None
  end.

(** The [catch] block of [connect]. *)
Definition connect_catch (e : Exn) (c : Controller) : Controller :=
  setState (withConnectError e) (stopPolling c).

(** [connect], up to [await isConnected()]. *)
Definition connect (c : Controller) : Controller :=
  await AwaitConnect_isConnected (emit Freighter_isConnected (setState withConnecting c)).

(** [connect], from [await isConnected()] to [await requestAccess()]. *)
Definition connect_isConnected_settled (r : Settled) (c : Controller) : option Controller :=
  match r with
  | Resolved_isConnected connected =>
      if negb (truthyConnected connected)
      then Some (connect_catch (Error "Freighter wallet is not installed") c)
      else Some (await AwaitConnect_requestAccess (emit Freighter_requestAccess c))
  | Rejected e => Some (connect_catch e c)
  | _ => None
  end.

(** [connect], after [await requestAccess()]. *)
Definition connect_requestAccess_settled (r : Settled) (c : Controller) : option Controller :=
  match r with
  | Resolved_requestAccess => Some (startPolling c)
  | Rejected e => Some (connect_catch e c)
  | _ => None
  end.

(** [refreshConnection] *)
Definition refreshConnection (c : Controller) : Controller := connect c.

(** [disconnect] *)
Definition disconnect (c : Controller) : Controller :=
  setLocalStorage None (setState (fun _ => initialState) (stopPolling c)).

(** [checkConnection], up to [await isConnected()]. *)
Definition checkConnection_call (captured : option string) (c : Controller) : Controller :=
  await (AwaitMonitor_isConnected captured) (emit Freighter_isConnected c).

(** [checkConnection], from [await isConnected()] to [await getAddress()]. *)
Definition checkConnection_isConnected_settled (captured : option string) (r : Settled)
           (c : Controller) : option Controller :=
  match r with
  | Resolved_isConnected connected =>
      let c1 := if negb (truthyConnected connected) && truthy captured
                then setState (withLocked "Wallet disconnected") c
                else c in
      Some (await (AwaitMonitor_getAddress captured) (emit Freighter_getAddress c1))
  | Rejected _ => Some c
  | _ => None
  end.

(** [checkConnection], after [await getAddress()]. *)
Definition checkConnection_getAddress_settled (captured : option string) (r : Settled)
           (c : Controller) : option Controller :=
  match r with
  | Resolved_getAddress addr =>
      if negb (truthy (orNull addr)) && truthy captured
      then Some (setState (withLocked "Wallet locked") c)
      else Some c
  | Rejected _ => Some c
  | _ => None
  end.

(** The auto-reconnect effect, up to [await getAddress()]. *)
Definition autoReconnect (c : Controller) : Controller :=
  match localStorage c with
  | Some savedConnection =>
      if isEmpty (saved_address savedConnection) then c
      else await (AwaitAuto_getAddress (saved_address savedConnection))
                 (emit Freighter_getAddress c)
  | None => c
  end.

(** The auto-reconnect effect, after [await getAddress()]. *)
Definition autoReconnect_settled (savedAddress : string) (r : Settled)
           (c : Controller) : option Controller :=
  match r with
  | Resolved_getAddress addr =>
      let publicKey := orNull addr in
      if bool_decide (publicKey = Some savedAddress)
      then
        let c1 := setState (withRestored publicKey) c in
        Some (if truthy publicKey then fetchBalance publicKey None c1 else c1)
      else Some (startPolling c)
  | Rejected _ => Some (startPolling (setState withWalletLocked c))
  | _ => None
  end.

(** The monitor effect and its cleanup, run after a render in which
    [isClientReady] or [state.address] differs from the previous
    render. *)
Definition deps (c : Controller) : bool * option string :=
  (isClientReady c, address (state c)).

Definition monitorEffect (previous : bool * option string) (c : Controller) : Controller :=
  if bool_decide (previous = deps c) then c
  else
    let c1 := match monitorInterval c with
              | Some id => clearInterval id c
              | None => c
              end in
    if isClientReady c1 && truthy (address (state c1))
    then setMonitorInterval (Some (nextTimer c1))
           (setInterval (checkConnection (address (state c1))) 2000 c1)
    else setMonitorInterval None c1.

(** *** The event loop *)

Inductive Event :=
| Mount
| Call_connect
| Call_refreshConnection
| Call_disconnect
| Call_fetchBalance (publicKey : option string)
| Fire (id : nat)
| Settle (n : nat) (r : Settled).

(** Resume the continuation [p] with [r]; [None] when [r] is not an
    answer to the call [p] awaits. *)
Definition resume (p : Pending) (r : Settled) (c : Controller) : option Controller :=
  match p with
  | AwaitConnect_isConnected => connect_isConnected_settled r c
  | AwaitConnect_requestAccess => connect_requestAccess_settled r c
  | AwaitPoll_getAddress => pollForAddress_settled r c
  | AwaitFetchBalance _ thenPersist => fetchBalance_settled thenPersist r c
  | AwaitMonitor_isConnected captured => checkConnection_isConnected_settled captured r c
  | AwaitMonitor_getAddress captured => checkConnection_getAddress_settled captured r c
  | AwaitAuto_getAddress savedAddress => autoReconnect_settled savedAddress r c
  end.

(** The JavaScript run by one event, before React renders again. *)
Definition handle (c : Controller) (ev : Event) : Controller :=
  match ev with
  | Mount =>
      if isClientReady c then c else autoReconnect (setIsClientReady true c)
  | Call_connect => connect c
  | Call_refreshConnection => refreshConnection c
  | Call_disconnect => disconnect c
  | Call_fetchBalance publicKey => fetchBalance publicKey None c
  | Fire id =>
      match timers c !! id with
      | Some {| callback := pollForAddress |} => pollForAddress_call c
      | Some {| callback := checkConnection captured |} => checkConnection_call captured c
      | None => c
      end
  | Settle n r =>
      match pending c !! n with
      | Some p =>
          match resume p r (setPending (delete n (pending c)) c) with
          | Some c' => c'
          | None => c
          end
      | None => c
      end
  end.

(** One turn of the event loop: the handler, then the render and its
    effects. *)
Definition step (c : Controller) (ev : Event) : Controller :=
  monitorEffect (deps c) (handle c ev).

Definition run (stored : option SavedConnection) (evs : list Event) : Controller :=
  fold_left step evs (initial stored).

(** The intervals whose callback is [pollForAddress]. *)
Definition isPollingTimer (c : Controller) (id : nat) : Prop :=
  exists ms, timers c !! id = Some {| callback := pollForAddress; period := ms |}.

Definition isMonitorTimer (c : Controller) (id : nat) : Prop :=
  exists captured ms,
    timers c !! id = Some {| callback := checkConnection captured; period := ms |}.

(** The events that come from timers and from calls that settle, as
    opposed to the calls the user interface makes. *)
Definition isFire (ev : Event) : bool :=
  match ev with
  | Fire _ => true
  | _ => false
  end.

Definition isFireOrSettle (ev : Event) : bool :=
  match ev with
  | Fire _ | Settle _ _ => true
  | _ => false
  end.

(** The argument [fetchBalance] rejects: [null], empty or only white
    space. *)
Definition invalidKey (publicKey : option string) : bool :=
  match publicKey with
  | Some pk => allWhiteSpace pk
  | None => true
  end.

(** The negative signals of the monitor, with the message of each:
    the answer of [isConnected()] says that the wallet is not
    connected, or [getAddress()] answers without an address. *)
Definition negativeSignal (p : Pending) (r : Settled) : option string :=
  match p, r with
  | AwaitMonitor_isConnected _, Resolved_isConnected a =>
      if reportsConnected a then None else Some "Wallet disconnected"
  | AwaitMonitor_getAddress _, Resolved_getAddress addr =>
      if truthy addr then None else Some "Wallet locked"
  | _, _ => None
  end.

(** The answers on which [checkConnection] locks, with the message it
    sets: a falsy answer of [isConnected()], or an answer of
    [getAddress()] without an address. *)
Definition lockingSignal (p : Pending) (r : Settled) : option string :=
  match p, r with
  | AwaitMonitor_isConnected _, Resolved_isConnected a =>
      if truthyConnected a then None else Some "Wallet disconnected"
  | AwaitMonitor_getAddress _, Resolved_getAddress addr =>
      if truthy addr then None else Some "Wallet locked"
  | _, _ => None
  end.

(** *** Invariants of the controller *)

(** Authorized implies an address. *)
Definition authorizedHasAddress (s : WalletState) : Prop :=
  isAuthorized s = true -> address s <> None.

(** Every live polling interval is the one held in
    [pollingIntervalRef], and runs every 1000 ms. *)
Definition pollingTimersInRef (c : Controller) : Prop :=
  forall id ms,
    timers c !! id = Some {| callback := pollForAddress; period := ms |} ->
    pollingIntervalRef c = Some id /\ ms = 1000%Z.

(** Every live monitor interval is the one owned by the current
    monitor effect, runs every 2000 ms and closes over a truthy
    address. *)
Definition monitorTimersOwned (c : Controller) : Prop :=
  forall id captured ms,
    timers c !! id = Some {| callback := checkConnection captured; period := ms |} ->
    monitorInterval c = Some id /\ truthy captured = true /\ ms = 2000%Z.

(** Every live monitor interval closes over the address [a]. *)
Definition monitorTimersCapture (a : option string) (c : Controller) : Prop :=
  forall id captured ms,
    timers c !! id = Some {| callback := checkConnection captured; period := ms |} ->
    captured = a.

(** Handles are allocated in increasing order. *)
Definition handlesFresh (c : Controller) : Prop :=
  (forall id, nextTimer c <= id -> timers c !! id = None)
  /\ (forall id, pollingIntervalRef c = Some id -> id < nextTimer c).

(** Suspended monitor checks closed over a truthy address. *)
Definition monitorPendingOk (p : Pending) : Prop :=
  match p with
  | AwaitMonitor_isConnected captured | AwaitMonitor_getAddress captured =>
      truthy captured = true
  | _ => True
  end.

(** What the handlers preserve, for any address [a]. *)
Definition HandlerInv (a : option string) (c : Controller) : Prop :=
  authorizedHasAddress (state c)
  /\ pollingTimersInRef c
  /\ monitorTimersOwned c
  /\ monitorTimersCapture a c
  /\ handlesFresh c
  /\ Forall monitorPendingOk (pending c).

(** What holds after every turn of the event loop: the monitor closes
    over the address of the current state. *)
Definition Inv (c : Controller) : Prop := HandlerInv (address (state c)) c.

End WalletContext.

(** ** Sample inputs

    Concrete environments and event sequences on which the theorems of
    Part II are exercised. *)
Module Samples.
Import Js Soroban StellarService WalletContext.

Definition sampleAddress : string :=
  "GAAZI4TCR3TY5OJHCTJC2A4QSY6CJWJH5IAJTGKIN2ER7LBNVKOCCWN7".

(** An error response of the kind the contract's cooldown guard
    produces. *)
Definition panicResponse : list (string * Json.value) :=
  [("id", Json.JStr "7");
   ("latestLedger", Json.JNum 1234);
   ("events", Json.JArr []);
   ("error",
    Json.JStr "HostError: Error(WasmVm, InvalidAction) VM call trapped: UnreachableCodeReached")].

(** A configured world in which every account exists, the contract
    answers [get_cooldown_remaining] with [cooldownReply] and
    [refine_strategy] with [refineOutcome]. *)
Definition world (cooldownReply : ScVal) (refineOutcome : SimOutcome) : World :=
  {| SOROBAN_CONTRACT_ID := Some "CDLZFC3SYJYDZT7K67VZ75HPJVIEUVNIXF47ZG2FB2RMQQVU2HHGCYSC";
     SOROBAN_RPC_URL := None;
     moduleLoadTime := "2025-01-01T00:00:00.000Z";
     nowISO := fun _ => "2025-01-01T00:05:00.000Z";
     randomKey := fun _ => sampleAddress;
     newServer := fun _ => None;
     newContract := fun _ => None;
     addressFromString := fun _ => None;
     invalidI32 := fun _ => Error "invalid i32 value";
     assembleToXDR := fun _ => inr "AAAAAgAAAAA=";
     getAccount := fun _ _ => None;
     simulate := fun _ c =>
       if String.eqb (call_method c) "get_cooldown_remaining"
       then (120%Z, SimSuccess (Some cooldownReply))
       else if String.eqb (call_method c) "refine_strategy"
       then (150%Z, refineOutcome)
       else (100%Z, SimSuccess (Some (scvVec [scvU32 87; scvU32 142; scvU64 0;
                                               scvAddress (Some sampleAddress)]))) |}.

Definition refineRequest : Exn + RefineRoute.RequestBody :=
  inr {| RefineRoute.walletAddress := Some (Json.JStr sampleAddress);
         RefineRoute.performanceMetric := None |}.

Definition refineTransaction : Call :=
  {| call_method := "refine_strategy";
     call_args := [scvAddress (Some sampleAddress); scvI32 10] |}.

(** Connect, grant access, and get the address on the first poll. *)
Definition connectedRun : list Event :=
  [Mount; Call_connect;
   Settle 0 (Resolved_isConnected (ConnectedObject true));
   Settle 0 Resolved_requestAccess;
   Settle 0 (Resolved_getAddress (Some sampleAddress))].

(** Connected, and the ledger lookup has failed: nothing is in flight. *)
Definition settledRun : list Event :=
  (connectedRun ++ [Settle 0 (Rejected (Error "Network Error"))])%list.

(** Connected, and the monitor interval (handle 2) has fired once. *)
Definition monitoringRun : list Event := (connectedRun ++ [Fire 2])%list.

(** Two connects in succession, both granted. *)
Definition doubleConnectRun : list Event :=
  [Mount; Call_connect;
   Settle 0 (Resolved_isConnected (ConnectedObject true));
   Settle 0 Resolved_requestAccess;
   Call_connect;
   Settle 1 (Resolved_isConnected (ConnectedObject true));
   Settle 1 Resolved_requestAccess].

(** Connect with a locked wallet: the first poll finds no address, the
    polling interval (handle 1) fires and its [getAddress()] is
    outstanding. *)
Definition pollingRun : list Event :=
  [Mount; Call_connect;
   Settle 0 (Resolved_isConnected (ConnectedObject true));
   Settle 0 Resolved_requestAccess;
   Settle 0 (Resolved_getAddress None);
   Fire 1].

End Samples.

(** ** More of JavaScript: slices of strings, truthiness of JSON values *)
Module JsMore.
Import Js.

(** [s.slice(0, n)], also [s.substring(0, n)] *)
Fixpoint sliceTo (n : nat) (s : string) : string :=
  match n, s with
  | S n', String c r => String c (sliceTo n' r)
  | _, _ => EmptyString
  end.

(** [s.slice(n)] for [0 <= n] *)
Fixpoint sliceFrom (n : nat) (s : string) : string :=
  match n, s with
  | S n', String _ r => sliceFrom n' r
  | _, _ => s
  end.

(** [s.slice(-n)], also [s.substring(s.length - n)]: the start is
    clamped at 0 when the string is shorter than [n]. *)
Definition sliceLast (n : nat) (s : string) : string :=
  sliceFrom (String.length s - n) s.

(** [typeof v] *)
Definition typeOf (v : Json.value) : string :=
  match v with
  | Json.JNull => "object"
  | Json.JBool _ => "boolean"
  | Json.JNum _ => "number"
  | Json.JStr _ => "string"
  | Json.JArr _ => "object"
  | Json.JObj _ => "object"
  end.

(** [!!v] *)
Definition truthyValue (v : Json.value) : bool :=
  match v with
  | Json.JNull => false
  | Json.JBool b => b
  | Json.JNum n => negb (n =? 0)%Z
  | Json.JStr s => negb (isEmpty s)
  | Json.JArr _ => true
  | Json.JObj _ => true
  end.

(** [a || b] on two properties that may be absent. *)
Definition orValue (a b : option Json.value) : option Json.value :=
  match a with
  | Some v => if truthyValue v then a else b
  | None => b
  end.

(** [a || b] on two strings that may be absent. *)
Definition orString (a b : option string) : option string :=
  if truthy a then a else b.

End JsMore.

(** ** [submitSignedTransaction] and [POST /api/transaction/submit] *)
Module SubmitRoute.
Import Js JsMore StellarService.

(** What [server.sendTransaction] resolves with: its [status] and, for
    a transaction the network refused, [errorResultXdr]. *)
Record SendResult := {
  send_status : string;
  errorResultXdr : option string
}.

(** The surroundings of a submission: the world of the service, the
    XDR decoder [TransactionBuilder.fromXDR], which throws on an
    envelope it cannot read, and the answer of the RPC server to the
    [k]-th submission.  A transaction is identified by the envelope it
    was decoded from. *)
Record SubmitWorld := {
  serviceWorld : World;
  fromXDR : string -> option Exn;
  sendTransaction : nat -> string -> Exn + SendResult
}.

(** [submitSignedTransaction]; the state is the list of envelopes sent
    to the network so far.  The [catch] block rethrows. *)
Definition submitSignedTransaction (sw : SubmitWorld) (signedXDR : Json.value)
  : list string -> (Exn + SendResult) * list string :=
  fun sent =>
    match signedXDR with
    | Json.JStr s =>
        let cleanXDR := trim s in
        if isEmpty cleanXDR
        then (inl (Error "Invalid signedXDR: Empty string"), sent)
        else
          match fst (getSorobanServer (serviceWorld sw) []) with
          | inl e => (inl e, sent)
          | inr _ =>
              match fromXDR sw cleanXDR with
              | Some e => (inl e, sent)
              | None =>
                  (sendTransaction sw (List.length sent) cleanXDR,
                   (sent ++ [cleanXDR])%list)
              end
          end
    | v => (inl (Error ("Invalid signedXDR: Expected string, got " ++ typeOf v)), sent)
    end.

(** The two spellings of the property the route reads. *)
Record RequestBody := {
  signedXDR : option Json.value;
  signedXdr : option Json.value
}.

(** The JSON written to the response; [body_result] is the member
    [result], or [details] on a refused transaction. *)
Record Body := {
  body_success : bool;
  body_message : string;
  body_error : option string;
  body_result : option SendResult
}.

Record Response := {
  status : Z;
  body : Body
}.

Definition badRequest : Response :=
  {| status := 400;
     body := {| body_success := false;
                body_message := "Missing or invalid signedXdr (must be a string)";
                body_error := None;
                body_result := None |} |}.

(** The response of the [catch] block. *)
Definition serverError (e : Exn) : Response :=
  {| status := 500;
     body := {| body_success := false;
                body_message := if exn_isError e
                                then default "" (exn_message e)
                                else "Internal Server Error";
                body_error := None;
                body_result := None |} |}.

(** The handler; [request] is the parsed body, or what was thrown
    while reading it. *)
Definition POST (sw : SubmitWorld) (request : Exn + RequestBody)
  : list string -> Response * list string :=
  fun sent =>
    match request with
    | inl e => (serverError e, sent)
    | inr req =>
        match orValue (signedXDR req) (signedXdr req) with
        | Some (Json.JStr s) =>
            if isEmpty s then (badRequest, sent)
            else
              match submitSignedTransaction sw (Json.JStr s) sent with
              | (inr result, sent') =>
                  if String.eqb (send_status result) "ERROR"
                  then
                    ({| status := 400;
                        body := {| body_success := false;
                                   body_message := "Transaction submission failed";
                                   body_error :=
                                     Some (orElse (errorResultXdr result) "Unknown error");
                                   body_result := Some result |} |}, sent')
                  else
                    ({| status := 200;
                        body := {| body_success := true;
                                   body_message := "Transaction submitted successfully";
                                   body_error := None;
                                   body_result := Some result |} |}, sent')
              | (inl e, sent') => (serverError e, sent')
              end
        | _ => (badRequest, sent)
        end
    end.

End SubmitRoute.

(** ** The header: [truncateAddress] *)
Module Header.
Import JsMore.

Definition truncateAddress (addr : string) : string :=
  if (String.length addr <=? 12)%nat then addr
  else sliceTo 4 addr ++ "..." ++ sliceLast 4 addr.

End Header.

(** ** What [PortfolioMetrics] shows of the wallet *)
Module WalletDisplay.
Import Js WalletContext.

(** [!!address && address.trim() !== ''] *)
Definition hasAddress (s : WalletState) : bool :=
  match address s with
  | Some a => negb (isEmpty a) && negb (isEmpty (trim a))
  | None => false
  end.

Definition hasBalance (s : WalletState) : bool :=
  match balance s with
  | Some _ => true
  | None => false
  end.

Definition shouldShowConnectMessage (s : WalletState) : bool :=
  negb (hasAddress s) && negb (isWalletLocked s).

(** [error?.includes('locked')] is [undefined], hence falsy, without an
    error. *)
Definition shouldShowLocked (s : WalletState) : bool :=
  isWalletLocked s
  || (negb (hasAddress s)
      && match error s with
         | Some e => includes e "locked"
         | None => false
         end).

Definition shouldShowLoading (s : WalletState) : bool :=
  hasAddress s && negb (hasBalance s) && isLoading s.

Definition shouldShowBalance (s : WalletState) : bool :=
  hasAddress s && hasBalance s.

(** The four blocks of the balance card, each with the condition under
    which the component renders it. *)
Record Blocks := {
  lockedBanner : bool;
  connectPrompt : bool;
  loadingSpinner : bool;
  balanceFigures : bool
}.

Definition render (s : WalletState) : Blocks :=
  {| lockedBanner := shouldShowLocked s;
     connectPrompt := shouldShowConnectMessage s && negb (shouldShowLocked s);
     loadingSpinner := shouldShowLoading s;
     balanceFigures := shouldShowBalance s |}.

End WalletDisplay.

(** ** The home page: the system log and [handleRefineStrategy]

    [handleRefineStrategy] is cut at its three [await]s, as the
    functions of the wallet provider are: the call, and one
    continuation for each of the refine request, the signature request
    and the submit request.  The countdown effect, which counts
    [cooldownSeconds] down in floating point, is not part of the
    model. *)
Module Home.
Import Js JsMore StellarService.

Inductive MessageType := success | error | cooldown.

Record RefineMessage := {
  type : MessageType;
  text : string;
  countdown : option Z
}.

Record LogEntry := {
  time : string;
  msg : string
}.

(** What the page asks of the outside, in order. *)
Inductive Request :=
| FetchRefine (walletAddress : string) (performanceMetric : Z)
| SignTransaction (xdr : string)
| FetchSubmit (signedXdr : string)
| ReloadAfter (ms : Z).

(** The [useState] cells the handler writes, the number of times the
    clock was read, and the requests made so far. *)
Record Page := {
  isRefining : bool;
  refineMessage : option RefineMessage;
  cooldownSeconds : option Z;
  logs : list LogEntry;
  clockReads : nat;
  requests : list Request
}.

Definition initialPage : Page :=
  {| isRefining := false;
     refineMessage := None;
     cooldownSeconds := None;
     logs := [];
     clockReads := 0;
     requests := [] |}.

(** The values of the render whose handler runs: the wallet of
    [useWallet] and the [cooldownSeconds] cell. *)
Record Closure := {
  cl_address : option string;
  cl_isAuthorized : bool;
  cl_cooldownSeconds : option Z
}.

(** The surroundings: the clock, formatted as a time of day, and
    [TransactionBuilder.fromXDR(xdr, TESTNET).toXDR()], which throws on
    an envelope it cannot read. *)
Record Env := {
  clock : nat -> string;
  reserialize : string -> Exn + string
}.

(** What a [fetch] of the submit route followed by [response.json()]
    gives. *)
Record SubmitReply := {
  reply_status : Z;
  reply_statusText : string;
  reply_success : bool;
  reply_message : option string
}.

(** [response.ok] *)
Definition ok (r : SubmitReply) : bool :=
  (200 <=? reply_status r)%Z && (reply_status r <=? 299)%Z.

(** What [signTransaction] resolves with: a string, an object with
    some of the three properties the page looks for, or nothing. *)
Inductive SignedResult :=
| SignedString (s : string)
| SignedObject (signedTxXdr signedXdr signedXDR : option string)
| SignedNothing.

Definition setIsRefining (b : bool) (p : Page) : Page :=
  {| isRefining := b;
     refineMessage := refineMessage p;
     cooldownSeconds := cooldownSeconds p;
     logs := logs p;
     clockReads := clockReads p;
     requests := requests p |}.

Definition setRefineMessage (m : option RefineMessage) (p : Page) : Page :=
  {| isRefining := isRefining p;
     refineMessage := m;
     cooldownSeconds := cooldownSeconds p;
     logs := logs p;
     clockReads := clockReads p;
     requests := requests p |}.

Definition setCooldownSeconds (s : option Z) (p : Page) : Page :=
  {| isRefining := isRefining p;
     refineMessage := refineMessage p;
     cooldownSeconds := s;
     logs := logs p;
     clockReads := clockReads p;
     requests := requests p |}.

Definition request (r : Request) (p : Page) : Page :=
  {| isRefining := isRefining p;
     refineMessage := refineMessage p;
     cooldownSeconds := cooldownSeconds p;
     logs := logs p;
     clockReads := clockReads p;
     requests := (requests p ++ [r])%list |}.

(** [addLog]: the new entry first, the latest 50 kept. *)
Definition addLog (env : Env) (m : string) (p : Page) : Page :=
  {| isRefining := isRefining p;
     refineMessage := refineMessage p;
     cooldownSeconds := cooldownSeconds p;
     logs := take 50 ({| time := clock env (clockReads p); msg := m |} :: logs p);
     clockReads := S (clockReads p);
     requests := requests p |}.

Definition message (t : MessageType) (s : string) : option RefineMessage :=
  Some {| type := t; text := s; countdown := None |}.

(** The [finally] block. *)
Definition finally (p : Page) : Page := setIsRefining false p.

(** The outer [catch] block, then [finally]. *)
Definition outerCatch (env : Env) (p : Page) : Page :=
  finally (setRefineMessage (message error "Network error. Please try again.")
             (addLog env "Network communication error." p)).

(** The inner [catch] block, then [finally]; a thrown value without a
    [message] prints as [undefined] in the template. *)
Definition innerCatch (env : Env) (e : Exn) (p : Page) : Page :=
  finally
    (setRefineMessage
       (message error (orElse (exn_message e) "Failed to sign or processing transaction"))
       (addLog env ("Error during signing/submission: " ++ default "undefined" (exn_message e))
          p)).

(** The continuation in flight after a segment, if any. *)
Inductive Await := AwaitRefine | AwaitSignature | AwaitSubmit.

(** [handleRefineStrategy], up to the [fetch] of the refine route. *)
Definition handleRefineStrategy_call (env : Env) (cl : Closure) (p : Page)
  : Page * option Await :=
  let p := setCooldownSeconds None (setRefineMessage None p) in
  if negb (cl_isAuthorized cl) || negb (truthy (cl_address cl))
  then
    (addLog env "Error: Wallet not connected"
       (setRefineMessage (message error "Please connect your wallet first") p), None)
  else
    let address := default "" (cl_address cl) in
    let p := addLog env "Initiating Strategy Refinement Protocol..." (setIsRefining true p) in
    let p := addLog env ("Requesting analysis for wallet: "
                         ++ sliceTo 4 address ++ "..." ++ sliceLast 4 address) p in
    (request (FetchRefine address 10) p, Some AwaitRefine).

(** [result.cooldownRemaining || 0] *)
Definition remainingOf (result : RefineRoute.Body) : Z :=
  default 0%Z (RefineRoute.body_cooldownRemaining result).

(** The branch of a [COOLDOWN_ACTIVE] answer. *)
Definition showCooldown (env : Env) (cl : Closure) (result : RefineRoute.Body)
           (p : Page) : Page :=
  let remaining := remainingOf result in
  let p := match cl_cooldownSeconds cl with
           | None => addLog env ("Cooldown active. System recharging for "
                                 ++ pretty remaining ++ "s...") p
           | Some _ => p
           end in
  if (0 <? remaining)%Z
  then
    setRefineMessage
      (Some {| type := cooldown;
               text := "Strategy optimization is recharging";
               countdown := Some remaining |})
      (setCooldownSeconds (Some remaining) p)
  else
    setRefineMessage
      (Some {| type := cooldown;
               text := "Strategy stabilizing...";
               countdown := Some 2%Z |})
      (setCooldownSeconds (Some 2%Z) p).

(** From the answer of the refine route to the signature request;
    [r] is the parsed body, or what the [fetch] or the parsing threw. *)
Definition handleRefineStrategy_refined (env : Env) (cl : Closure)
           (r : Exn + RefineRoute.Body) (p : Page) : Page * option Await :=
  match r with
  | inl _ => (outerCatch env p, None)
  | inr result =>
      if RefineRoute.body_success result && truthy (RefineRoute.body_transactionXDR result)
      then
        match reserialize env (default "" (RefineRoute.body_transactionXDR result)) with
        | inl e => (innerCatch env e p, None)
        | inr xdr =>
            let p := setRefineMessage
                       (message success "Please sign the transaction in your wallet...") p in
            let p := addLog env "Simulation successful. Waiting for user signature..." p in
            (request (SignTransaction xdr) p, Some AwaitSignature)
        end
      else if RefineRoute.body_success result
      then
        (finally
           (request (ReloadAfter 2000)
              (setRefineMessage
                 (message success
                    (orElse (RefineRoute.body_message result) "Strategy refined successfully!"))
                 (addLog env "Refinement complete (No transaction needed)." p))), None)
      else if bool_decide (RefineRoute.body_error result = Some "COOLDOWN_ACTIVE")
      then (finally (showCooldown env cl result p), None)
      else
        (finally
           (setRefineMessage
              (message error
                 (orElse (RefineRoute.body_message result) "Failed to refine strategy"))
              (addLog env ("Strategy refinement failed: "
                           ++ default "undefined" (RefineRoute.body_message result)) p)), None)
  end.

(** The signature the page extracts from the wallet's answer. *)
Definition finalXdr (signedResult : SignedResult) : option string :=
  match signedResult with
  | SignedString s => Some s
  | SignedObject a b c => orString (orString a b) c
  | SignedNothing => None
  end.

(** From the wallet's answer to the [fetch] of the submit route. *)
Definition handleRefineStrategy_signed (env : Env) (r : Exn + SignedResult) (p : Page)
  : Page * option Await :=
  match r with
  | inl e => (innerCatch env e p, None)
  | inr signedResult =>
      match finalXdr signedResult with
      | Some x =>
          if isEmpty x
          then (innerCatch env (Error "Wallet returned an empty signature") p, None)
          else
            let p := addLog env "Signature received. Submitting to network..." p in
            let p := setRefineMessage
                       (message success "Submitting transaction to network...") p in
            (request (FetchSubmit x) p, Some AwaitSubmit)
      | None => (innerCatch env (Error "Wallet returned an empty signature") p, None)
      end
  end.

(** After the answer of the submit route. *)
Definition handleRefineStrategy_submitted (env : Env) (r : Exn + SubmitReply) (p : Page)
  : Page * option Await :=
  match r with
  | inl e => (innerCatch env e p, None)
  | inr reply =>
      if ok reply && reply_success reply
      then
        (finally
           (request (ReloadAfter 2000)
              (setRefineMessage
                 (message success "Strategy refined successfully! Transaction verified.") p)),
         None)
      else
        let errorMessage :=
          orElse (reply_message reply)
                 ("Error: " ++ pretty (reply_status reply) ++ " " ++ reply_statusText reply) in
        (finally
           (setRefineMessage (message error errorMessage)
              (addLog env ("Submission failed: " ++ errorMessage) p)), None)
  end.

(** The body the page posts to the submit route:
    [JSON.stringify({ signedXdr: finalXdr })]. *)
Definition submitBody (x : string) : SubmitRoute.RequestBody :=
  {| SubmitRoute.signedXDR := None; SubmitRoute.signedXdr := Some (Json.JStr x) |}.

(** What the page reads of a response of the submit route. *)
Definition replyOf (statusText : string) (resp : SubmitRoute.Response) : SubmitReply :=
  {| reply_status := SubmitRoute.status resp;
     reply_statusText := statusText;
     reply_success := SubmitRoute.body_success (SubmitRoute.body resp);
     reply_message := Some (SubmitRoute.body_message (SubmitRoute.body resp)) |}.

(** The segments of one click that runs to completion with nothing in
    between: the three answers are consulted in order, as far as the
    handler gets. *)
Definition handleRefineStrategy (env : Env) (cl : Closure)
           (refined : Exn + RefineRoute.Body) (signed : Exn + SignedResult)
           (submitted : Exn + SubmitReply) (p : Page) : Page :=
  match handleRefineStrategy_call env cl p with
  | (p1, Some _) =>
      match handleRefineStrategy_refined env cl refined p1 with
      | (p2, Some _) =>
          match handleRefineStrategy_signed env signed p2 with
          | (p3, Some _) => fst (handleRefineStrategy_submitted env submitted p3)
          | (p3, None) => p3
          end
      | (p2, None) => p2
      end
  | (p1, None) => p1
  end.

(** A page whose log holds at most 50 entries. *)
Definition logBounded (p : Page) : Prop := List.length (logs p) <= 50.

(** A sample environment: a fixed clock and a decoder that reads every
    envelope. *)
Definition sampleEnv : Env :=
  {| clock := fun _ => "12:00:00"; reserialize := fun xdr => inr xdr |}.

Definition connectedClosure : Closure :=
  {| cl_address := Some Samples.sampleAddress;
     cl_isAuthorized := true;
     cl_cooldownSeconds := None |}.

End Home.

(** ** Further invariants of the wallet controller *)
Module WalletInvariants.
Import Js WalletContext.

(** The handle in [pollingIntervalRef] is that of a live polling
    interval. *)
Definition refIsLive (c : Controller) : Prop :=
  forall id, pollingIntervalRef c = Some id ->
    timers c !! id = Some {| callback := pollForAddress; period := 1000 |}.

(** The handle the monitor effect owns is that of a live monitor
    interval. *)
Definition monitorIsLive (c : Controller) : Prop :=
  forall id, monitorInterval c = Some id ->
    exists captured,
      timers c !! id = Some {| callback := checkConnection captured; period := 2000 |}.

Definition Live (c : Controller) : Prop := refIsLive c /\ monitorIsLive c.

(** The monitor effect owns an interval exactly when the provider is
    ready and has a truthy address. *)
Definition monitorArmed (c : Controller) : Prop :=
  is_Some (monitorInterval c) <-> isClientReady c && truthy (address (state c)) = true.

(** What holds after every turn of the event loop. *)
Definition Armed (c : Controller) : Prop := Inv c /\ Live c /\ monitorArmed c.

(** The test [pollForAddress] makes on the answer of [getAddress()]. *)
Definition validKey (a : string) : bool :=
  negb (isEmpty a) && negb (isEmpty (trim a)) && startsWith a "G".

(** The keys the suspended continuations will write to the state or
    to the store are in [V]. *)
Definition pendingKeysIn (V : string -> Prop) (p : Pending) : Prop :=
  match p with
  | AwaitFetchBalance _ (Some key) => V key
  | AwaitAuto_getAddress savedAddress => V savedAddress
  | _ => True
  end.

(** Authorized exactly when there is an address. *)
Definition authorizedIffAddress (s : WalletState) : Prop :=
  isAuthorized s = true <-> address s <> None.

(** Authorized exactly when there is an address, and every address in
    the state, in the store or about to be written is in [V]. *)
Definition KeysIn (V : string -> Prop) (c : Controller) : Prop :=
  authorizedIffAddress (state c)
  /\ (forall a, address (state c) = Some a -> V a)
  /\ (forall s, localStorage c = Some s -> V (saved_address s))
  /\ Forall (pendingKeysIn V) (pending c).

(** The stored connection, if any, holds a key in [V]. *)
Definition storedIn (V : string -> Prop) (stored : option SavedConnection) : Prop :=
  match stored with
  | Some s => V (saved_address s)
  | None => True
  end.

(** The answers to [getAddress()] on which [pollForAddress] goes on
    polling: a rejection, no address, or one that fails the test. *)
Definition keepsPolling (r : Settled) : bool :=
  match r with
  | Rejected _ => true
  | Resolved_getAddress (Some a) => negb (validKey a)
  | Resolved_getAddress None => true
  | _ => false
  end.

(** The answers that make [connect] fail, with what its [catch] block
    receives: a rejection of [isConnected()] or of [requestAccess()],
    or a falsy answer of [isConnected()]. *)
Definition connectFailure (p : Pending) (r : Settled) : option Exn :=
  match p, r with
  | AwaitConnect_isConnected, Resolved_isConnected a =>
      if truthyConnected a then None
      else Some (Error "Freighter wallet is not installed")
  | AwaitConnect_isConnected, Rejected e => Some e
  | AwaitConnect_requestAccess, Rejected e => Some e
  | _, _ => None
  end.

(** A sequence of polling rounds: each event is a tick of the interval
    in [pollingIntervalRef], or the answer to a [getAddress()] of
    [pollForAddress] on which it goes on polling. *)
Fixpoint pollingRounds (c : Controller) (evs : list Event) : bool :=
  match evs with
  | [] => true
  | ev :: rest =>
      match ev with
      | Fire id => bool_decide (pollingIntervalRef c = Some id)
      | Settle n r =>
          match pending c !! n with
          | Some AwaitPoll_getAddress => keepsPolling r
          | _ => false
          end
      | _ => false
      end
      && pollingRounds (step c ev) rest
  end.

End WalletInvariants.

(** ** Reading requests *)
Module Requests.
Import Js.

(** The wallet address [POST /api/portfolio/refine] accepts: the
    [walletAddress] of a readable body, when it is a non-empty
    string. *)
Definition walletAddressOf (request : Exn + RefineRoute.RequestBody) : option string :=
  match request with
  | inr req =>
      match RefineRoute.walletAddress req with
      | Some (Json.JStr a) => if isEmpty a then None else Some a
      | _ => None
      end
  | inl _ => None
  end.

(** The envelope [POST /api/transaction/submit] accepts: the first
    truthy of [signedXDR] and [signedXdr], when it is a string. *)
Definition signedXdrOf (request : Exn + SubmitRoute.RequestBody) : option string :=
  match request with
  | inr req =>
      match JsMore.orValue (SubmitRoute.signedXDR req) (SubmitRoute.signedXdr req) with
      | Some (Json.JStr s) => if isEmpty s then None else Some s
      | _ => None
      end
  | inl _ => None
  end.

End Requests.

(** ** The statistics fetch: the time spent waiting *)
Module Backoff.
Import PortfolioMetrics.

(** The sum of the delays of the timers armed. *)
Definition totalDelay (tr : list Effect) : Z := fold_right Z.add 0%Z (timeouts tr).

(** A network on which every GET fails. *)
Definition alwaysFails : nat -> FetchOutcome :=
  fun _ => FetchReject (Js.Error "Failed to fetch").

End Backoff.

(** ** More sample inputs *)
Module MoreSamples.
Import Js WalletContext.

(** A connection stored by an earlier session. *)
Definition savedConnection : SavedConnection :=
  {| saved_address := Samples.sampleAddress; saved_isAuthorized := true |}.

Definition storedConnection : option SavedConnection := Some savedConnection.

(** The page is opened with a stored connection and the wallet answers
    with the stored address. *)
Definition restoredRun : list Event :=
  [Mount; Settle 0 (Resolved_getAddress (Some Samples.sampleAddress))].

(** Connect with a locked wallet: the first poll finds no address. *)
Definition waitingRun : list Event :=
  [Mount; Call_connect;
   Settle 0 (Resolved_isConnected (ConnectedObject true));
   Settle 0 Resolved_requestAccess;
   Settle 0 (Resolved_getAddress None)].

(** Three more polling rounds without an address. *)
Definition idleRounds : list Event :=
  [Fire 1; Settle 0 (Resolved_getAddress None);
   Fire 1; Settle 0 (Rejected (Error "locked"));
   Fire 1; Settle 0 (Resolved_getAddress (Some "not a key"))].

(** Connected; the monitor has fired and the extension has answered
    that it is connected: [getAddress()] is outstanding. *)
Definition checkingRun : list Event :=
  (Samples.monitoringRun
   ++ [Settle 1 (Resolved_isConnected (ConnectedObject true))])%list.

(** A second connect while the first one is polling: the extension has
    answered and the access prompt is open. *)
Definition retryRun : list Event :=
  (waitingRun ++ [Call_connect;
                  Settle 0 (Resolved_isConnected (ConnectedObject true))])%list.

End MoreSamples.

(* ===================================================================== *)
(** * Part II: lemmas and theorems                                        *)
(* ===================================================================== *)

(** ** The statistics fetch *)
Section StatsFetch.
Import PortfolioMetrics.

Lemma attemptOnce_succeeds o v :
  snd (attemptOnce o v) = succeeds o.
Proof. destruct o as [[] [d|] m|e]; reflexivity. Qed.

Lemma attemptOnce_success_view o v :
  succeeds o = true ->
  exists d m, o = FetchJson true (Some d) m /\
    fst (attemptOnce o v) =
      {| contractStats := Some d; statsLoading := false; statsError := None |}.
Proof.
  destruct o as [[] [d|] m|e]; simpl; try discriminate.
  intros _. exists d, m. split; reflexivity.
Qed.

Lemma attemptOnce_failure_view o v :
  succeeds o = false ->
  fst (attemptOnce o v) =
    {| contractStats := contractStats v; statsLoading := true; statsError := None |}.
Proof. destruct o as [[] [d|] m|e]; simpl; try discriminate; reflexivity. Qed.

(** One unfolding of the retry loop, by the outcome of the attempt. *)
Lemma fetchContractStats_ok net k retries delay v :
  succeeds (net k) = true ->
  fetchContractStats net k retries delay v = (fst (attemptOnce (net k) v), [EvFetch]).
Proof.
  intros H. pose proof (attemptOnce_succeeds (net k) v) as Hs.
  destruct retries; simpl; destruct (attemptOnce (net k) v) as [v1 ok];
    simpl in *; rewrite Hs, H; reflexivity.
Qed.

Lemma fetchContractStats_retry net k r delay v :
  succeeds (net k) = false ->
  fetchContractStats net k (S r) delay v =
    (fst (fetchContractStats net (S k) r (delay * 2)%Z (fst (attemptOnce (net k) v))),
     EvFetch :: EvSetTimeout delay ::
       snd (fetchContractStats net (S k) r (delay * 2)%Z (fst (attemptOnce (net k) v)))).
Proof.
  intros H. pose proof (attemptOnce_succeeds (net k) v) as Hs.
  simpl. destruct (attemptOnce (net k) v) as [v1 ok]; simpl in *.
  rewrite Hs, H.
  destruct (fetchContractStats net (S k) r (delay * 2)%Z v1); reflexivity.
Qed.

Lemma fetchContractStats_exhausted net k delay v :
  succeeds (net k) = false ->
  fetchContractStats net k 0 delay v =
    ({| contractStats := contractStats v;
        statsLoading := false;
        statsError := Some "Failed to load contract statistics after multiple attempts" |},
     [EvFetch]).
Proof.
  intros H. pose proof (attemptOnce_succeeds (net k) v) as Hs.
  pose proof (attemptOnce_failure_view (net k) v H) as Hv.
  simpl. destruct (attemptOnce (net k) v) as [v1 ok]; simpl in *.
  rewrite Hs, H. subst v1. reflexivity.
Qed.

(** When every attempt fails, the delays double from the first one, one
    per retry. *)
Lemma fetchContractStats_all_fail net retries : forall k delay v,
  (forall j, k <= j <= k + retries -> succeeds (net j) = false) ->
  timeouts (snd (fetchContractStats net k retries delay v))
    = List.map (fun i => (delay * 2 ^ Z.of_nat i)%Z) (seq 0 retries)
  /\ fetches (snd (fetchContractStats net k retries delay v)) = S retries
  /\ statsLoading (fst (fetchContractStats net k retries delay v)) = false
  /\ statsError (fst (fetchContractStats net k retries delay v))
     = Some "Failed to load contract statistics after multiple attempts".
Proof.
  induction retries as [|r IH]; intros k delay v Hall.
  - rewrite fetchContractStats_exhausted by (apply Hall; lia). simpl. auto.
  - rewrite fetchContractStats_retry by (apply Hall; lia).
    destruct (IH (S k) (delay * 2)%Z (fst (attemptOnce (net k) v))) as (Ht & Hf & Hl & He).
    { intros j Hj. apply Hall. lia. }
    cbn [fst snd]. repeat split; try assumption.
    + unfold timeouts in *. cbn [omap list_omap]. rewrite Ht.
      cbn [seq List.map]. f_equal.
      * change (Z.of_nat 0) with 0%Z. lia.
      * rewrite <- seq_shift, List.map_map. apply List.map_ext.
        intros i. rewrite Nat2Z.inj_succ, Z.pow_succ_r by lia. lia.
    + unfold fetches in *. cbn [List.filter List.length]. rewrite Hf. reflexivity.
Qed.

End StatsFetch.

(** C4.  The statistics fetch started on mount makes at most four GETs:
    the initial one and exactly three retries, armed in this order with
    delays of 1000, 2000 and 4000 ms.  The first attempt that succeeds
    stores the data, leaves the loading state and arms no further timer;
    when all four fail the component ends with [statsError] set and
    [statsLoading] false. *)
Theorem C4_fetchContractStats_retries (net : nat -> PortfolioMetrics.FetchOutcome)
        (v : PortfolioMetrics.StatsView) :
  let r := PortfolioMetrics.fetchOnMount net v in
  match PortfolioMetrics.firstSuccess net with
  | Some k =>
      snd r = take (2 * k + 1) PortfolioMetrics.fullSchedule
      /\ PortfolioMetrics.timeouts (snd r) = take k [1000; 2000; 4000]%Z
      /\ PortfolioMetrics.fetches (snd r) = S k
      /\ (exists d m, net k = PortfolioMetrics.FetchJson true (Some d) m
                      /\ PortfolioMetrics.contractStats (fst r) = Some d)
      /\ PortfolioMetrics.statsLoading (fst r) = false
      /\ PortfolioMetrics.statsError (fst r) = None
  | None =>
      snd r = PortfolioMetrics.fullSchedule
      /\ PortfolioMetrics.timeouts (snd r) = [1000; 2000; 4000]%Z
      /\ PortfolioMetrics.fetches (snd r) = 4
      /\ PortfolioMetrics.statsLoading (fst r) = false
      /\ PortfolioMetrics.statsError (fst r)
         = Some "Failed to load contract statistics after multiple attempts"
  end.
Proof.
  intros r. subst r. unfold PortfolioMetrics.fetchOnMount, PortfolioMetrics.firstSuccess.
  cbn [List.find].
  destruct (PortfolioMetrics.succeeds (net 0)) eqn:H0.
  { rewrite fetchContractStats_ok by assumption.
    destruct (attemptOnce_success_view (net 0) v H0) as (d & m & Hn & Hv).
    rewrite Hv. cbn. repeat split; eauto. }
  rewrite fetchContractStats_retry by assumption.
  destruct (PortfolioMetrics.succeeds (net 1)) eqn:H1.
  { rewrite fetchContractStats_ok by assumption.
    destruct (attemptOnce_success_view (net 1)
                (fst (PortfolioMetrics.attemptOnce (net 0) v)) H1) as (d & m & Hn & Hv).
    rewrite Hv. cbn. repeat split; eauto. }
  rewrite fetchContractStats_retry by assumption.
  destruct (PortfolioMetrics.succeeds (net 2)) eqn:H2.
  { rewrite fetchContractStats_ok by assumption.
    match goal with |- context [PortfolioMetrics.attemptOnce (net 2) ?v1] =>
      destruct (attemptOnce_success_view (net 2) v1 H2) as (d & m & Hn & Hv) end.
    rewrite Hv. cbn. repeat split; eauto. }
  rewrite fetchContractStats_retry by assumption.
  destruct (PortfolioMetrics.succeeds (net 3)) eqn:H3.
  { rewrite fetchContractStats_ok by assumption.
    match goal with |- context [PortfolioMetrics.attemptOnce (net 3) ?v1] =>
      destruct (attemptOnce_success_view (net 3) v1 H3) as (d & m & Hn & Hv) end.
    rewrite Hv. cbn. repeat split; eauto. }
  rewrite fetchContractStats_exhausted by assumption.
  cbn. repeat split; reflexivity.
Qed.

(** ** Strings: [includes], [toLowerCase] and JSON escaping *)
Section StringFacts.
Import Js.

Lemma append_cons (c : ascii) (s t : string) : String c s ++ t = String c (s ++ t).
Proof. reflexivity. Qed.

Lemma append_nil_l (t : string) : "" ++ t = t.
Proof. reflexivity. Qed.

Lemma append_nil_r (s : string) : s ++ "" = s.
Proof.
  induction s as [|c s IH]; [reflexivity|]. now rewrite append_cons, IH.
Qed.

Lemma append_assoc (a b c : string) : (a ++ b) ++ c = a ++ (b ++ c).
Proof.
  induction a as [|x a IH]; [reflexivity|]. now rewrite !append_cons, IH.
Qed.

Lemma startsWith_spec : forall p s,
  startsWith s p = true <-> exists b, s = p ++ b.
Proof.
  induction p as [|a p IH]; intros s; simpl.
  - split; [intros _; now exists s | reflexivity].
  - destruct s as [|b s]; simpl.
    + split; [discriminate | intros [t Ht]; discriminate].
    + rewrite andb_true_iff, Ascii.eqb_eq, IH. split.
      * intros [-> [t ->]]. now exists t.
      * intros [t Ht]. rewrite append_cons in Ht. injection Ht as -> ->.
        split; [reflexivity | now exists t].
Qed.

Lemma includes_intro : forall a p b, includes (a ++ p ++ b) p = true.
Proof.
  induction a as [|c a IH]; intros p b.
  - rewrite append_nil_l.
    assert (H : startsWith (p ++ b) p = true)
      by (apply startsWith_spec; now exists b).
    destruct (p ++ b); simpl in *; rewrite H; reflexivity.
  - rewrite append_cons. simpl. rewrite IH. apply orb_true_r.
Qed.

Lemma includes_elim : forall s p,
  includes s p = true -> exists a b, s = a ++ p ++ b.
Proof.
  induction s as [|c s IH]; intros p H; simpl in H.
  - rewrite orb_false_r in H. apply startsWith_spec in H as [b Hb].
    exists "", b. exact Hb.
  - apply orb_true_iff in H as [H|H].
    + apply startsWith_spec in H as [b Hb]. exists "", b. exact Hb.
    + destruct (IH p H) as (a & b & ->). now exists (String c a), b.
Qed.

(** A substring stays a substring inside a longer text. *)
Lemma includes_context (pre s post p : string) :
  includes s p = true -> includes (pre ++ s ++ post) p = true.
Proof.
  intros H. apply includes_elim in H as (a & b & ->).
  replace (pre ++ (a ++ p ++ b) ++ post) with ((pre ++ a) ++ p ++ (b ++ post)).
  - apply includes_intro.
  - now rewrite !append_assoc.
Qed.

Lemma toLowerCase_app (a b : string) :
  toLowerCase (a ++ b) = toLowerCase a ++ toLowerCase b.
Proof.
  induction a as [|c a IH]; [reflexivity|].
  rewrite append_cons. simpl. now rewrite IH.
Qed.

Lemma toLowerCase_split : forall a t s,
  toLowerCase s = a ++ t ->
  exists sa st, s = sa ++ st /\ toLowerCase sa = a /\ toLowerCase st = t.
Proof.
  induction a as [|c a IH]; intros t s H.
  - exists "", s. auto.
  - destruct s as [|d s]; [discriminate|].
    rewrite append_cons in H. simpl in H.
    injection H as Hc H. destruct (IH _ _ H) as (sa & st & -> & Ha & Ht).
    exists (String d sa), st. simpl. rewrite Hc, Ha. auto.
Qed.

Lemma escape_app (a b : string) :
  Json.escape (a ++ b) = Json.escape a ++ Json.escape b.
Proof.
  induction a as [|c a IH]; [reflexivity|].
  rewrite append_cons. simpl. now rewrite IH, append_assoc.
Qed.

(** A character whose lower case is a letter or a space is written to
    JSON as it is. *)
Lemma escapeChar_plain (c : ascii) :
  isPlain (lowerChar c) = true -> Json.escapeChar c = String c "".
Proof.
  destruct c as [[] [] [] [] [] [] [] []]; vm_compute; congruence.
Qed.

Lemma toLowerCase_escape_plain : forall e p,
  toLowerCase e = p -> allPlain p = true -> toLowerCase (Json.escape e) = p.
Proof.
  induction e as [|c e IH]; intros p <- Hp; simpl in *.
  - reflexivity.
  - apply andb_true_iff in Hp as [Hc Hp].
    rewrite (escapeChar_plain c Hc). rewrite append_cons, append_nil_l.
    simpl. now rewrite (IH _ eq_refl Hp).
Qed.

(** A pattern of lower-case letters and spaces found in the lower case
    of a text is also found in the lower case of its JSON escape. *)
Lemma includes_lower_escape (e p : string) :
  allPlain p = true ->
  includes (toLowerCase e) p = true ->
  includes (toLowerCase (Json.escape e)) p = true.
Proof.
  intros Hp H. apply includes_elim in H as (a & b & H).
  apply toLowerCase_split in H as (sa & st & -> & Ha & H).
  apply toLowerCase_split in H as (sp & sb & -> & Hsp & Hb).
  rewrite !escape_app, !toLowerCase_app.
  rewrite (toLowerCase_escape_plain sp p Hsp Hp).
  apply includes_intro.
Qed.

Lemma includes_lower_quote (e p : string) :
  allPlain p = true ->
  includes (toLowerCase e) p = true ->
  includes (toLowerCase (Json.quote e)) p = true.
Proof.
  intros Hp H. unfold Json.quote.
  change (String Json.dquote (Json.escape e ++ String Json.dquote ""))
    with (String Json.dquote "" ++ Json.escape e ++ String Json.dquote "").
  rewrite !toLowerCase_app. apply includes_context.
  now apply includes_lower_escape.
Qed.

Lemma stringify_obj (ms : list (string * Json.value)) :
  Json.stringify (Json.JObj ms)
  = "{" ++ String.concat "," (List.map Json.memberText ms) ++ "}".
Proof. reflexivity. Qed.

Lemma concat_cons (sep x : string) (y : string) (ys : list string) :
  String.concat sep (x :: y :: ys) = x ++ sep ++ String.concat sep (y :: ys).
Proof. reflexivity. Qed.

(** The text of an object contains the text of each member's value. *)
Lemma members_text : forall ms key v,
  Json.get key ms = Some v ->
  exists pre post,
    String.concat "," (List.map Json.memberText ms) = pre ++ Json.stringify v ++ post.
Proof.
  induction ms as [|[k x] ms IH]; intros key v H; simpl in H; [discriminate|].
  destruct (String.eqb k key).
  - injection H as ->. destruct ms as [|m ms].
    + exists (Json.quote k ++ ":"), "". cbn [List.map String.concat Json.memberText].
      now rewrite !append_assoc, append_nil_r.
    + exists (Json.quote k ++ ":"), ("," ++ String.concat "," (List.map Json.memberText (m :: ms))).
      cbn [List.map]. rewrite concat_cons. cbn [Json.memberText].
      now rewrite !append_assoc.
  - destruct (IH key v H) as (pre & post & Hs).
    destruct ms as [|m ms]; [discriminate|].
    exists (Json.memberText (k, x) ++ "," ++ pre), post.
    cbn [List.map] in Hs |- *. rewrite concat_cons, Hs.
    now rewrite !append_assoc.
Qed.

Lemma stringify_member (ms : list (string * Json.value)) (key : string) (v : Json.value) :
  Json.get key ms = Some v ->
  exists pre post, Json.stringify (Json.JObj ms) = pre ++ Json.stringify v ++ post.
Proof.
  intros H. destruct (members_text ms key v H) as (pre & post & Hs).
  exists ("{" ++ pre), (post ++ "}").
  rewrite stringify_obj, Hs. now rewrite !append_assoc.
Qed.

(** A cooldown pattern in the [error] member of a simulation response
    shows in the lower-cased text of the whole response. *)
Lemma error_member_in_text (response : list (string * Json.value)) (p : string) :
  allPlain p = true ->
  includes (toLowerCase (StellarService.simErrorOf response)) p = true ->
  p <> "" ->
  includes (toLowerCase (Json.stringify (Json.JObj response))) p = true.
Proof.
  intros Hp H Hne. unfold StellarService.simErrorOf in H.
  destruct (Json.get "error" response) as [v|] eqn:Hg.
  - destruct v as [| | |e| |];
      try (destruct p; [congruence | simpl in H; discriminate]).
    destruct (stringify_member response "error" (Json.JStr e) Hg) as (pre & post & ->).
    rewrite !toLowerCase_app. apply includes_context.
    now apply includes_lower_quote.
  - destruct p; [congruence | simpl in H; discriminate].
Qed.

End StringFacts.

(** ** The Stellar service *)
Section ServiceFacts.
Import Js Soroban StellarService.

Ltac unfold_service :=
  unfold tryCatch, bind, getSorobanServer, Contract, readOnlySource,
    Keypair_random, server_getAccount, simulateTransaction, now, throw, ret, refineCall.

(** Case analysis on the next thing the code inspects. *)
Ltac next_case :=
  match goal with
  | |- context [match ?x with _ => _ end] =>
      lazymatch x with
      | context [match _ with _ => _ end] => fail
      | _ => destruct x eqn:?
      end
  end.

Lemma last_snoc_some {A} (l : list A) (x : A) : last (l ++ [x])%list = Some x.
Proof. apply last_snoc. Qed.

(** [getCooldownRemaining] never throws; it only makes cooldown
    queries, and its result is the number read off the answer of the
    simulation, or 0 when no simulation was answered. *)
Lemma getCooldownRemaining_spec (w : World) (log : list Interaction) :
  exists n added,
    getCooldownRemaining w log = (inr n, (log ++ added)%list)
    /\ forallb isCooldownQuery added = true
    /\ (n = 0%Z \/ exists c latency o,
           last added = Some (ISimulate c latency o) /\ n = cooldownOfReply o).
Proof.
  unfold getCooldownRemaining.
  repeat first [progress unfold_service | progress cbn beta iota zeta | next_case];
    simplify_eq.
  all: try (exists 0%Z, []; rewrite app_nil_r;
            split; [reflexivity | split; [reflexivity | now left]]).
  all: eexists _, [_; _]; rewrite <- app_assoc;
    (split; [reflexivity|]); (split; [reflexivity|]);
    right; do 3 eexists; (split; [reflexivity|]);
    unfold cooldownOfReply;
    repeat match goal with H : scValToNative _ = _ |- _ => rewrite H; clear H end;
    reflexivity.
Qed.


Lemma cooldownQuery_not_refine (added : list Interaction) (i : Interaction)
      (response : list (string * Json.value)) :
  forallb isCooldownQuery added = true ->
  In i added -> isFailedRefineSimulation response i -> False.
Proof.
  intros Hall Hin (c & latency & -> & Hm).
  rewrite forallb_forall in Hall. specialize (Hall _ Hin). simpl in Hall.
  rewrite Hm in Hall. discriminate.
Qed.

Lemma getAccount_not_refine pk found response :
  isFailedRefineSimulation response (IGetAccount pk found) -> False.
Proof. intros (c & latency & H & _). discriminate. Qed.

Lemma refine_simulation_response c latency o response :
  isFailedRefineSimulation response (ISimulate c latency o) -> o = SimError response.
Proof. intros (c' & latency' & H & _). now injection H. Qed.


(** Only 32-bit integers convert to JavaScript numbers. *)
Lemma scValToNative_number (v : ScVal) (n : Z) :
  scValToNative v = inr (NNumber n) -> v = scvU32 n \/ v = scvI32 n.
Proof.
  destruct v; simpl; intros H; repeat case_match; simplify_eq; auto.
Qed.

Lemma mentionsCooldown_iff (t : string) :
  mentionsCooldown t = true <-> exists p, In p cooldownPatterns /\ includes t p = true.
Proof.
  unfold mentionsCooldown, cooldownPatterns. rewrite !orb_true_iff. split.
  - intros [[H|H]|H]; eexists; (split; [|exact H]); simpl; auto.
  - intros (p & Hin & H). simpl in Hin.
    destruct Hin as [<-|[<-|[<-|[]]]]; auto.
Qed.

(** A cooldown pattern in the lower-cased text of the response, or in
    its [error] member, makes the test of [refineStrategy] succeed. *)
Lemma diagnostic_mentions_cooldown (response : list (string * Json.value)) :
  (exists p, In p cooldownPatterns
             /\ (includes (toLowerCase (Json.stringify (Json.JObj response))) p = true
                 \/ includes (toLowerCase (simErrorOf response)) p = true)) ->
  mentionsCooldown (toLowerCase (Json.stringify (Json.JObj response))) = true.
Proof.
  intros (p & Hin & H). apply mentionsCooldown_iff. exists p. split; [exact Hin|].
  destruct H as [H|H]; [exact H|].
  apply error_member_in_text; [|exact H|];
    simpl in Hin; destruct Hin as [<-|[<-|[<-|[]]]]; (reflexivity || discriminate).
Qed.

(** A number read off an answer that is not a negative 32-bit
    integer is not negative. *)
Lemma negativeNumber_number (v : ScVal) (n : Z) :
  scValToNative v = inr (NNumber n) -> negativeNumber v = false -> (0 <= n)%Z.
Proof.
  intros Hv Hn. apply scValToNative_number in Hv as [->| ->]; simpl in Hn; lia.
Qed.

(** With a contract that keeps to its interface, the cooldown read is
    never negative. *)
Lemma getCooldownRemaining_nonneg (w : World) (log log' : list Interaction) (n : Z) :
  cooldownInterface w ->
  getCooldownRemaining w log = (inr n, log') ->
  (0 <= n)%Z.
Proof.
  intros Hw. unfold getCooldownRemaining.
  repeat first [progress unfold_service | progress cbn beta iota zeta | next_case];
    intros H; simplify_eq; try lia.
  all: eapply negativeNumber_number; [eassumption|]; eapply Hw; eassumption.
Qed.

(** Case analysis that takes a call of [getCooldownRemaining] as a
    whole and keeps its equation. *)
Ltac keep_service_case :=
  match goal with
  | |- context [getCooldownRemaining ?w ?l] =>
      let n := fresh "n" in
      let added := fresh "added" in
      let Hrun := fresh "Hrun" in
      let Hq := fresh "Hq" in
      destruct (getCooldownRemaining_spec w l) as (n & added & Hrun & Hq & _);
      rewrite Hrun
  | _ => next_case
  end.

(** The result of [refineStrategy] whose simulation failed with a
    cooldown pattern is built from what [getCooldownRemaining] returns
    when it is called right after that simulation. *)
Lemma refineStrategy_follow_up (w : World) (walletAddress : string) (metric : Z)
      (log : list Interaction) :
  exists res added,
    refineStrategy w walletAddress metric log = (inr res, (log ++ added)%list)
    /\ forall i response,
         In i added ->
         isFailedRefineSimulation response i ->
         mentionsCooldown (toLowerCase (Json.stringify (Json.JObj response))) = true ->
         exists n pre post,
           res = cooldownActive n
           /\ added = (pre ++ i :: post)%list
           /\ getCooldownRemaining w (log ++ pre ++ [i])%list = (inr n, (log ++ added)%list).
Proof.
  unfold refineStrategy.
  repeat first [progress unfold_service | progress cbn beta iota zeta | keep_service_case];
    simplify_eq.
  all: rewrite <- ?app_assoc; eexists _, _; (split; [reflexivity|]);
    intros ?i ?resp Hin Hf Hm;
    repeat (rewrite in_app_iff in Hin); simpl in Hin;
    repeat match goal with
           | H : In _ _ \/ _ |- _ => destruct H as [H|H]
           | H : _ = _ \/ _ |- _ => destruct H as [H|H]
           | H : False \/ _ |- _ => destruct H as [H|H]
           | H : (_ \/ _) \/ _ |- _ => destruct H as [H|H]
           end;
    try (exfalso; eauto using cooldownQuery_not_refine; fail);
    try (exfalso; assumption);
    try (simplify_eq; exfalso; eauto using getAccount_not_refine; fail);
    try (simplify_eq; apply refine_simulation_response in Hf; simplify_eq; congruence).
  subst i. exists n0, (added ++ [IGetAccount walletAddress true])%list, added0.
  split; [reflexivity|]. split.
  - rewrite <- app_assoc. reflexivity.
  - rewrite <- !app_assoc in Hrun0. rewrite <- !app_assoc. exact Hrun0.
Qed.

(** The route answers every request, and relays the [COOLDOWN_ACTIVE]
    answer of the service with status 400. *)
Lemma POST_follow_up (w : World) (request : Exn + RefineRoute.RequestBody)
      (log : list Interaction) :
  exists resp added,
    RefineRoute.POST w request log = (inr resp, (log ++ added)%list)
    /\ forall i response,
         In i added ->
         isFailedRefineSimulation response i ->
         mentionsCooldown (toLowerCase (Json.stringify (Json.JObj response))) = true ->
         exists n pre post,
           RefineRoute.status resp = 400%Z
           /\ RefineRoute.body resp = RefineRoute.json (cooldownActive n)
           /\ added = (pre ++ i :: post)%list
           /\ getCooldownRemaining w (log ++ pre ++ [i])%list = (inr n, (log ++ added)%list).
Proof.
  unfold RefineRoute.POST, tryCatch, bind, throw, ret.
  destruct request as [e|req].
  { eexists _, []. rewrite app_nil_r. split; [reflexivity|]. intros i r []. }
  destruct (RefineRoute.walletAddress req) as [[| | |a| |]|];
    try (eexists _, []; rewrite app_nil_r; split; [reflexivity|]; intros i r []; fail).
  destruct (isEmpty a).
  { eexists _, []. rewrite app_nil_r. split; [reflexivity|]. intros i r []. }
  destruct (refineStrategy_follow_up w a (default 10%Z (RefineRoute.performanceMetric req)) log)
    as (res & added & Hrun & Hres).
  rewrite Hrun.
  destruct (negb (success res) && bool_decide (error res = Some "COOLDOWN_ACTIVE")) eqn:Hcool.
  - exists {| RefineRoute.status := 400; RefineRoute.body := RefineRoute.json res;
              RefineRoute.cacheControl := RefineRoute.noCache |}, added.
    split; [reflexivity|]. intros i response Hin Hf Hm.
    destruct (Hres i response Hin Hf Hm) as (n & pre & post & -> & Ha & Hq).
    exists n, pre, post. split_and!; [reflexivity | reflexivity | exact Ha | exact Hq].
  - assert (Hfar : forall i response, In i added ->
              isFailedRefineSimulation response i ->
              mentionsCooldown (toLowerCase (Json.stringify (Json.JObj response))) = true ->
              False).
    { intros i response Hin Hf Hm.
      destruct (Hres i response Hin Hf Hm) as (n & ? & ? & -> & _). discriminate Hcool. }
    destruct (negb (success res) && bool_decide (error res = Some "SIMULATION_FAILED")
              && mentionsCooldown (toLowerCase (message res))).
    + destruct (getCooldownRemaining_spec w (log ++ added)%list)
        as (n & added2 & Hrun2 & Hq & Hn).
      rewrite Hrun2. rewrite <- app_assoc.
      eexists _, _. split; [reflexivity|]. intros i response Hin Hf Hm.
      exfalso. apply in_app_iff in Hin as [Hin|Hin]; [eapply Hfar; eassumption|].
      eapply cooldownQuery_not_refine; eassumption.
    + eexists _, _. split; [reflexivity|]. intros i response Hin Hf Hm.
      exfalso. eapply Hfar; eassumption.
Qed.

(** [getContractStats] never throws, always fills the four fields, and
    tags the statistics [blockchain] exactly when the contract read
    succeeded; otherwise it returns [FALLBACK_DATA]. *)
Lemma getContractStats_spec (w : World) (log : list Interaction) :
  exists stats added,
    getContractStats w log = (inr stats, (log ++ added)%list)
    /\ timestamp stats <> None
    /\ (source stats = blockchain <-> contractReadSucceeded added = true)
    /\ (source stats = fallback <-> stats = FALLBACK_DATA w).
Proof.
  unfold getContractStats.
  repeat first [progress unfold_service | progress cbn beta iota zeta | next_case];
    simplify_eq.
  all: rewrite <- ?app_assoc;
    first [ eexists _, _; split; [reflexivity|]
          | eexists _, []; rewrite app_nil_r; split; [reflexivity|] ].
  all: unfold contractReadSucceeded, REQUEST_TIMEOUT in *; simpl.
  all: repeat split; try discriminate; try reflexivity; try (intros; exfalso; congruence).
  all: repeat case_match; simplify_eq; try discriminate; try reflexivity; try lia.
Qed.

End ServiceFacts.

(** ** The wallet controller: invariants of the event loop *)
Create HintDb wallet.

Section WalletFacts.
Import Js WalletContext.

Ltac unfold_inv :=
  unfold authorizedHasAddress, pollingTimersInRef, monitorTimersOwned,
    monitorTimersCapture, handlesFresh in *.

Ltac split_inv := unfold HandlerInv; split_and!.

Lemma HandlerInv_setState a f c :
  (authorizedHasAddress (state c) -> authorizedHasAddress (f (state c))) ->
  HandlerInv a c -> HandlerInv a (setState f c).
Proof. intros Hf (H1 & H2 & H3 & H4 & H5 & H6). split_inv; auto. Qed.

Lemma HandlerInv_emit a o c : HandlerInv a c -> HandlerInv a (emit o c).
Proof. exact id. Qed.

Lemma HandlerInv_setLocalStorage a s c :
  HandlerInv a c -> HandlerInv a (setLocalStorage s c).
Proof. exact id. Qed.

Lemma HandlerInv_setIsClientReady a b c :
  HandlerInv a c -> HandlerInv a (setIsClientReady b c).
Proof. exact id. Qed.

Lemma HandlerInv_await a p c :
  monitorPendingOk p -> HandlerInv a c -> HandlerInv a (await p c).
Proof.
  intros Hp (H1 & H2 & H3 & H4 & H5 & H6). split_inv; try assumption.
  simpl. apply Forall_app. split; [assumption | repeat constructor; assumption].
Qed.

Lemma HandlerInv_resumed a n c :
  HandlerInv a c -> HandlerInv a (setPending (delete n (pending c)) c).
Proof.
  intros (H1 & H2 & H3 & H4 & H5 & H6). split_inv; try assumption.
  simpl. now apply Forall_delete.
Qed.

Lemma HandlerInv_stopPolling a c : HandlerInv a c -> HandlerInv a (stopPolling c).
Proof.
  intros (H1 & H2 & H3 & H4 & H5 & H6). unfold stopPolling.
  destruct (pollingIntervalRef c) as [old|] eqn:Href; [|split_inv; assumption].
  split_inv; try assumption; unfold_inv; simpl.
  - intros id ms Hl. apply lookup_delete_Some in Hl as [Hne Hl].
    apply H2 in Hl as [Hid _]. congruence.
  - intros id captured ms Hl. apply lookup_delete_Some in Hl as [_ Hl]. eapply H3; eauto.
  - intros id captured ms Hl. apply lookup_delete_Some in Hl as [_ Hl]. eapply H4; eauto.
  - split; [|discriminate].
    intros id Hle. apply lookup_delete_None. right. now apply H5.
Qed.

Lemma HandlerInv_startPolling a c : HandlerInv a c -> HandlerInv a (startPolling c).
Proof.
  intros (H1 & H2 & H3 & H4 & H5 & H6). unfold startPolling.
  assert (Hsub : forall id x,
    timers match pollingIntervalRef c with
           | Some old => clearInterval old c
           | None => c
           end !! id = Some x ->
    timers c !! id = Some x /\ pollingIntervalRef c <> Some id).
  { intros id x. destruct (pollingIntervalRef c) as [old|]; simpl.
    - intros Hl. apply lookup_delete_Some in Hl as [Hne Hl]. split; [assumption|congruence].
    - intros Hl. split; [assumption|discriminate]. }
  set (c1 := match pollingIntervalRef c with
             | Some old => clearInterval old c
             | None => c
             end) in *.
  assert (Hnext : nextTimer c1 = nextTimer c) by (subst c1; destruct (pollingIntervalRef c); reflexivity).
  assert (Hstate : state c1 = state c) by (subst c1; destruct (pollingIntervalRef c); reflexivity).
  assert (Hmon : monitorInterval c1 = monitorInterval c) by (subst c1; destruct (pollingIntervalRef c); reflexivity).
  assert (Hpend : pending c1 = pending c) by (subst c1; destruct (pollingIntervalRef c); reflexivity).
  split_inv; unfold_inv; simpl; rewrite ?Hnext, ?Hstate, ?Hmon, ?Hpend.
  - assumption.
  - intros id ms Hl. apply lookup_insert_Some in Hl as [[<- Heq]|[Hne Hl]].
    + split; [reflexivity | now injection Heq].
    + apply Hsub in Hl as [Hl Hne']. apply H2 in Hl as [Hid _]. congruence.
  - intros id captured ms Hl. apply lookup_insert_Some in Hl as [[_ Heq]|[Hne Hl]];
      [discriminate|]. apply Hsub in Hl as [Hl _]. eapply H3; eauto.
  - intros id captured ms Hl. apply lookup_insert_Some in Hl as [[_ Heq]|[Hne Hl]];
      [discriminate|]. apply Hsub in Hl as [Hl _]. eapply H4; eauto.
  - destruct H5 as [H5 H5']. split.
    + intros id Hle. apply lookup_insert_None. split; [|lia].
      destruct (timers c1 !! id) eqn:Hl; [|reflexivity].
      apply Hsub in Hl as [Hl _]. rewrite H5 in Hl by lia. discriminate.
    + intros id Heq. injection Heq as <-. lia.
  - apply Forall_app. split; [assumption | repeat constructor].
Qed.

Lemma auth_withBalance b s : authorizedHasAddress s -> authorizedHasAddress (withBalance b s).
Proof. exact id. Qed.
Lemma auth_withConnecting s : authorizedHasAddress s -> authorizedHasAddress (withConnecting s).
Proof. exact id. Qed.
Lemma auth_withConnectError e s :
  authorizedHasAddress s -> authorizedHasAddress (withConnectError e s).
Proof. exact id. Qed.
Lemma auth_withLocked m s : authorizedHasAddress s -> authorizedHasAddress (withLocked m s).
Proof. exact id. Qed.
Lemma auth_withWalletLocked s :
  authorizedHasAddress s -> authorizedHasAddress (withWalletLocked s).
Proof. exact id. Qed.
Lemma auth_withAddressRetrieved pk s : authorizedHasAddress (withAddressRetrieved pk s).
Proof. intros _. discriminate. Qed.
Lemma auth_withRestored pk s : authorizedHasAddress (withRestored (Some pk) s).
Proof. intros _. discriminate. Qed.
Lemma auth_initialState : authorizedHasAddress initialState.
Proof. intros H. discriminate. Qed.

Lemma HandlerInv_returnTo a k c : HandlerInv a c -> HandlerInv a (returnTo k c).
Proof. destruct k; exact id. Qed.

Lemma HandlerInv_fetchBalance a pk k c :
  HandlerInv a c -> HandlerInv a (fetchBalance pk k c).
Proof.
  intros H. unfold fetchBalance. repeat case_match;
    auto using HandlerInv_returnTo, HandlerInv_emit, HandlerInv_await.
  apply HandlerInv_await; [exact I | assumption].
Qed.

Hint Resolve HandlerInv_setState HandlerInv_emit HandlerInv_setLocalStorage
  HandlerInv_setIsClientReady HandlerInv_await HandlerInv_resumed
  HandlerInv_stopPolling HandlerInv_startPolling HandlerInv_returnTo
  HandlerInv_fetchBalance auth_withBalance auth_withConnecting auth_withConnectError
  auth_withLocked auth_withWalletLocked auth_withAddressRetrieved auth_withRestored
  auth_initialState : wallet.

Lemma resume_HandlerInv a p r c c' :
  monitorPendingOk p ->
  HandlerInv a c -> resume p r c = Some c' -> HandlerInv a c'.
Proof.
  intros Hp H Hr. destruct p; simpl in Hr.
  - unfold connect_isConnected_settled, connect_catch in Hr.
    repeat case_match; simplify_eq; eauto 10 with wallet.
    all: apply HandlerInv_await; [exact I|]; eauto with wallet.
  - unfold connect_requestAccess_settled, connect_catch in Hr.
    repeat case_match; simplify_eq; eauto 10 with wallet.
  - unfold pollForAddress_settled in Hr. fold (stopPolling c) in Hr.
    repeat case_match; simplify_eq; eauto 10 with wallet.
  - unfold fetchBalance_settled in Hr.
    repeat case_match; simplify_eq; eauto 10 with wallet.
  - unfold checkConnection_isConnected_settled in Hr.
    repeat case_match; simplify_eq; eauto 10 with wallet.
    all: apply HandlerInv_await; [exact Hp|]; eauto 10 with wallet.
  - unfold checkConnection_getAddress_settled in Hr.
    repeat case_match; simplify_eq; eauto 10 with wallet.
  - unfold autoReconnect_settled in Hr.
    repeat case_match; simplify_eq; eauto 10 with wallet.
    all: try match goal with H : bool_decide _ = true |- _ => apply bool_decide_eq_true in H end.
    all: simplify_eq; try rewrite H1; eauto 10 with wallet.
Qed.

Lemma handle_HandlerInv a c ev : HandlerInv a c -> HandlerInv a (handle c ev).
Proof.
  intros H. destruct ev; simpl.
  - destruct (isClientReady c); [assumption|].
    unfold autoReconnect. repeat case_match; eauto with wallet.
    apply HandlerInv_await; [exact I|]. eauto with wallet.
  - apply HandlerInv_await; [exact I|]. eauto with wallet.
  - apply HandlerInv_await; [exact I|]. eauto with wallet.
  - unfold disconnect. eauto 10 with wallet.
  - eauto with wallet.
  - destruct (timers c !! id) as [[[|captured] ms]|] eqn:Hl; [| |assumption].
    + apply HandlerInv_await; [exact I|]. eauto with wallet.
    + apply HandlerInv_await; [|eauto with wallet].
      destruct H as (_ & _ & H3 & _). eapply H3; eauto.
  - destruct (pending c !! n) as [p|] eqn:Hp; [|assumption].
    destruct (resume p r _) as [c'|] eqn:Hr; [|assumption].
    eapply resume_HandlerInv; [| |exact Hr]; [|eauto with wallet].
    destruct H as (_ & _ & _ & _ & _ & H6).
    eapply Forall_lookup_1; eauto.
Qed.

Lemma monitorEffect_Inv a previous c :
  HandlerInv a c ->
  (previous = deps c -> a = address (state c)) ->
  Inv (monitorEffect previous c).
Proof.
  intros H Hsame. unfold monitorEffect.
  destruct (bool_decide (previous = deps c)) eqn:Hd.
  { apply bool_decide_eq_true in Hd. unfold Inv. now rewrite <- (Hsame Hd). }
  clear Hsame Hd. destruct H as (H1 & H2 & H3 & H4 & H5 & H6).
  set (c1 := match monitorInterval c with
             | Some id => clearInterval id c
             | None => c
             end).
  assert (Hsub : forall id x, timers c1 !! id = Some x ->
            timers c !! id = Some x /\ monitorInterval c <> Some id).
  { intros id x. subst c1. destruct (monitorInterval c) as [m|]; simpl.
    - intros Hl. apply lookup_delete_Some in Hl as [Hne Hl]. split; [assumption|congruence].
    - intros Hl. split; [assumption|discriminate]. }
  assert (Hnone : forall id captured ms,
            timers c1 !! id <> Some {| callback := checkConnection captured; period := ms |}).
  { intros id captured ms Hl. apply Hsub in Hl as [Hl Hne].
    apply H3 in Hl as [Hm _]. contradiction. }
  assert (Hnext : nextTimer c1 = nextTimer c)
    by (subst c1; destruct (monitorInterval c); reflexivity).
  assert (Hstate : state c1 = state c)
    by (subst c1; destruct (monitorInterval c); reflexivity).
  assert (Hready : isClientReady c1 = isClientReady c)
    by (subst c1; destruct (monitorInterval c); reflexivity).
  assert (Href : pollingIntervalRef c1 = pollingIntervalRef c)
    by (subst c1; destruct (monitorInterval c); reflexivity).
  assert (Hpend : pending c1 = pending c)
    by (subst c1; destruct (monitorInterval c); reflexivity).
  clearbody c1.
  destruct (isClientReady c1 && truthy (address (state c1))) eqn:Hgo.
  - apply andb_true_iff in Hgo as [_ Htruthy]. rewrite Hstate in Htruthy.
    unfold Inv. split_inv; unfold_inv; simpl; rewrite ?Hnext, ?Hstate, ?Href, ?Hpend.
    + assumption.
    + intros id ms Hl. apply lookup_insert_Some in Hl as [[_ Heq]|[Hne Hl]];
        [discriminate|]. apply Hsub in Hl as [Hl _]. now apply H2.
    + intros id captured ms Hl. apply lookup_insert_Some in Hl as [[<- Heq]|[Hne Hl]].
      * injection Heq as <- <-. auto.
      * now apply Hnone in Hl.
    + intros id captured ms Hl. apply lookup_insert_Some in Hl as [[<- Heq]|[Hne Hl]].
      * now injection Heq as <- <-.
      * now apply Hnone in Hl.
    + destruct H5 as [H5 H5']. split.
      * intros id Hle. apply lookup_insert_None. split; [|lia].
        destruct (timers c1 !! id) eqn:Hl; [|reflexivity].
        apply Hsub in Hl as [Hl _]. rewrite H5 in Hl by lia. discriminate.
      * intros id Heq. apply H5' in Heq. lia.
    + assumption.
  - unfold Inv. split_inv; unfold_inv; simpl; rewrite ?Hnext, ?Hstate, ?Href, ?Hpend.
    + assumption.
    + intros id ms Hl. apply Hsub in Hl as [Hl _]. now apply H2.
    + intros id captured ms Hl. now apply Hnone in Hl.
    + intros id captured ms Hl. now apply Hnone in Hl.
    + destruct H5 as [H5 H5']. split; [|assumption].
      intros id Hle. destruct (timers c1 !! id) eqn:Hl; [|reflexivity].
      apply Hsub in Hl as [Hl _]. rewrite H5 in Hl by lia. discriminate.
    + assumption.
Qed.

Lemma step_Inv c ev : Inv c -> Inv (step c ev).
Proof.
  intros H. unfold step.
  apply (monitorEffect_Inv (address (state c))).
  - now apply handle_HandlerInv.
  - unfold deps. intros Heq. now injection Heq.
Qed.

Lemma initial_Inv stored : Inv (initial stored).
Proof.
  unfold Inv. split_inv; unfold_inv; simpl.
  - discriminate.
  - intros id ms Hl. now rewrite lookup_empty in Hl.
  - intros id captured ms Hl. now rewrite lookup_empty in Hl.
  - intros id captured ms Hl. now rewrite lookup_empty in Hl.
  - split; [intros; apply lookup_empty | discriminate].
  - constructor.
Qed.

Lemma fold_step_Inv evs : forall c, Inv c -> Inv (fold_left step evs c).
Proof.
  induction evs as [|ev evs IH]; intros c H; simpl; [assumption|].
  apply IH. now apply step_Inv.
Qed.

(** Every reachable state of the controller satisfies the invariant. *)
Lemma run_Inv stored evs : Inv (run stored evs).
Proof. apply fold_step_Inv, initial_Inv. Qed.

End WalletFacts.

(** ** The wallet controller: [fetchBalance] and the event loop *)
Section WalletSteps.
Import Js WalletContext.

Lemma trimStart_blank s : trimStart s = "" <-> allWhiteSpace s = true.
Proof.
  induction s as [|c s IH]; simpl; [tauto|].
  destruct (isWhiteSpace c); simpl; [exact IH|]. split; discriminate.
Qed.

Lemma trimStart_head s c r : trimStart s = String c r -> isWhiteSpace c = false.
Proof.
  induction s as [|d s IH]; simpl; [discriminate|].
  destruct (isWhiteSpace d) eqn:Hd; [exact IH|]. intros H. now injection H as <- _.
Qed.

Lemma trimEnd_empty s : trimEnd s = "" -> allWhiteSpace s = true.
Proof.
  induction s as [|c s IH]; simpl; [reflexivity|].
  destruct (trimEnd s) eqn:Ht.
  - destruct (isWhiteSpace c); [intros _; now apply IH | discriminate].
  - discriminate.
Qed.

(** [trim] gives the empty string exactly on strings of white space. *)
Lemma trim_blank s : trim s = "" <-> allWhiteSpace s = true.
Proof.
  unfold trim. split.
  - intros H. apply trimEnd_empty in H.
    destruct (trimStart s) as [|c r] eqn:Hs; [now apply trimStart_blank|].
    apply trimStart_head in Hs. simpl in H. rewrite Hs in H. discriminate.
  - intros H. apply trimStart_blank in H. now rewrite H.
Qed.

Lemma guard_invalidKey pk :
  isEmpty pk || isEmpty (trim pk) = allWhiteSpace pk.
Proof.
  destruct (allWhiteSpace pk) eqn:Hw.
  - apply trim_blank in Hw. rewrite Hw. apply orb_true_r.
  - destruct pk as [|c r]; [discriminate|]. simpl.
    destruct (trim (String c r)) eqn:Ht; [|reflexivity].
    apply trim_blank in Ht. congruence.
Qed.

Lemma monitorEffect_same c c' :
  deps c' = deps c -> monitorEffect (deps c) c' = c'.
Proof.
  intros H. unfold monitorEffect. rewrite <- H.
  now rewrite bool_decide_eq_true_2.
Qed.

Lemma step_fetchBalance_invalid c pk :
  invalidKey pk = true ->
  step c (Call_fetchBalance pk) = emit (ConsoleWarn "[fetchBalance] Invalid public key") c.
Proof.
  intros H. unfold step. simpl. unfold fetchBalance.
  destruct pk as [pk|]; simpl in H.
  - rewrite guard_invalidKey, H. now apply monitorEffect_same.
  - now apply monitorEffect_same.
Qed.

Lemma step_fetchBalance_valid c pk :
  invalidKey (Some pk) = false ->
  step c (Call_fetchBalance (Some pk))
  = await (AwaitFetchBalance pk None) (emit (Horizon_loadAccount pk) c).
Proof.
  intros H. unfold step. simpl. unfold fetchBalance. simpl in H.
  rewrite guard_invalidKey, H. now apply monitorEffect_same.
Qed.

Lemma step_settle_fetchBalance c n pk k r c' :
  pending c !! n = Some (AwaitFetchBalance pk k) ->
  fetchBalance_settled k r (setPending (delete n (pending c)) c) = Some c' ->
  address (state c') = address (state c) ->
  isClientReady c' = isClientReady c ->
  step c (Settle n r) = c'.
Proof.
  intros Hp Hr Ha Hc. unfold step. simpl. rewrite Hp. simpl. rewrite Hr.
  apply monitorEffect_same. unfold deps. now rewrite Ha, Hc.
Qed.

Lemma step_idle_fire c id :
  timers c = ∅ -> step c (Fire id) = c.
Proof.
  intros Ht. unfold step. simpl. rewrite Ht, lookup_empty. now apply monitorEffect_same.
Qed.

Lemma step_idle_settle c n r :
  pending c = [] -> step c (Settle n r) = c.
Proof.
  intros Hp. unfold step. simpl. rewrite Hp. simpl. now apply monitorEffect_same.
Qed.

End WalletSteps.

(* --------------------------------------------------------------------- *)
(** ** The claims                                                          *)
(* --------------------------------------------------------------------- *)

Import Js Soroban StellarService Samples.

(** C1.  Let the contract keep to its interface: it answers
    [get_cooldown_remaining] with the seconds that remain (a [u64] by
    its README), never with a negative number.  When the simulation
    of a [refine_strategy] transaction is answered by an error response
    whose text -- the JSON text the service inspects, or its [error]
    member -- contains, in any letter case, one of the three cooldown
    patterns, [refineStrategy] returns
    the failure [COOLDOWN_ACTIVE] and the route answers 400 with
    [COOLDOWN_ACTIVE], not [SIMULATION_FAILED].  The [cooldownRemaining]
    they carry is not negative: it is what the call of
    [getCooldownRemaining] that follows the failed simulation
    returns. *)
Theorem C1_cooldown_on_simulation_panic
        (w : World) (i : Interaction) (response : list (string * Json.value)) :
  cooldownInterface w ->
  isFailedRefineSimulation response i ->
  (exists p, In p cooldownPatterns
             /\ (includes (toLowerCase (Json.stringify (Json.JObj response))) p = true
                 \/ includes (toLowerCase (simErrorOf response)) p = true)) ->
  (forall walletAddress metric log,
      let r := refineStrategy w walletAddress metric log in
      In i (drop (List.length log) (snd r)) ->
      exists n pre post,
        fst r = inr (cooldownActive n)
        /\ success (cooldownActive n) = false
        /\ error (cooldownActive n) = Some "COOLDOWN_ACTIVE"
        /\ cooldownRemaining (cooldownActive n) = Some n
        /\ (0 <= n)%Z
        /\ drop (List.length log) (snd r) = (pre ++ i :: post)%list
        /\ getCooldownRemaining w (log ++ pre ++ [i])%list = (inr n, snd r))
  /\ (forall request log,
        let r := RefineRoute.POST w request log in
        In i (drop (List.length log) (snd r)) ->
        exists resp n pre post,
          fst r = inr resp
          /\ RefineRoute.status resp = 400%Z
          /\ RefineRoute.body_success (RefineRoute.body resp) = false
          /\ RefineRoute.body_error (RefineRoute.body resp) = Some "COOLDOWN_ACTIVE"
          /\ RefineRoute.body_cooldownRemaining (RefineRoute.body resp) = Some n
          /\ (0 <= n)%Z
          /\ drop (List.length log) (snd r) = (pre ++ i :: post)%list
          /\ getCooldownRemaining w (log ++ pre ++ [i])%list = (inr n, snd r)).
Proof.
  intros Hw Hf Hpat. apply diagnostic_mentions_cooldown in Hpat. split.
  - intros walletAddress metric log r Hin. subst r.
    destruct (refineStrategy_follow_up w walletAddress metric log)
      as (res & added & Hrun & Hres).
    rewrite Hrun in *. cbn [fst snd] in *. rewrite drop_app_length in *.
    destruct (Hres i response Hin Hf Hpat) as (n & pre & post & -> & Ha & Hq).
    exists n, pre, post. split_and!; try reflexivity; try assumption.
    eapply getCooldownRemaining_nonneg; eassumption.
  - intros request log r Hin. subst r.
    destruct (POST_follow_up w request log) as (resp & added & Hrun & Hres).
    rewrite Hrun in *. cbn [fst snd] in *. rewrite drop_app_length in *.
    destruct (Hres i response Hin Hf Hpat) as (n & pre & post & Hs & Hb & Ha & Hq).
    exists resp, n, pre, post. rewrite Hb.
    split_and!; try reflexivity; try assumption.
    eapply getCooldownRemaining_nonneg; eassumption.
Qed.

(** The theorem of C1 on the sample panic response, with a contract that
    answers the cooldown query with a [u64]. *)
Lemma C1_witness :
  let w := Samples.world (scvU64 1800) (SimError Samples.panicResponse) in
  let i := ISimulate Samples.refineTransaction 150 (SimError Samples.panicResponse) in
  cooldownInterface w
  /\ isFailedRefineSimulation Samples.panicResponse i
  /\ includes (toLowerCase (simErrorOf Samples.panicResponse)) "vm call trapped" = true
  /\ In i (snd (RefineRoute.POST w Samples.refineRequest []))
  /\ exists resp n,
       fst (RefineRoute.POST w Samples.refineRequest []) = inr resp
       /\ RefineRoute.status resp = 400%Z
       /\ RefineRoute.body_error (RefineRoute.body resp) = Some "COOLDOWN_ACTIVE"
       /\ RefineRoute.body_cooldownRemaining (RefineRoute.body resp) = Some n
       /\ (0 <= n)%Z.
Proof.
  intros w i.
  assert (Hw : cooldownInterface w).
  { intros k latency v H. simpl in H. injection H as _ <-. reflexivity. }
  assert (Hf : isFailedRefineSimulation Samples.panicResponse i).
  { exists Samples.refineTransaction, 150%Z. split; reflexivity. }
  assert (Hp : includes (toLowerCase (simErrorOf Samples.panicResponse)) "vm call trapped" = true).
  { vm_compute. reflexivity. }
  assert (Hin : In i (snd (RefineRoute.POST w Samples.refineRequest []))).
  { vm_compute. auto 10. }
  split; [exact Hw|]. split; [exact Hf|]. split; [exact Hp|]. split; [exact Hin|].
  destruct (proj2 (C1_cooldown_on_simulation_panic w i Samples.panicResponse Hw Hf
                     (ex_intro _ "vm call trapped" (conj (or_intror (or_introl eq_refl))
                                                          (or_intror Hp))))
                  Samples.refineRequest [] Hin)
    as (resp & n & _ & _ & Hr & Hs & _ & He & Hc & Hn & _).
  exists resp, n. split_and!; assumption.
Defined.

(** C6.  [GET /stats] always answers 200 with statistics whose four
    fields are present.  With the service as it is, [source] is
    [blockchain] exactly when the contract read succeeded and [fallback]
    exactly when it did not, in which case the data is [FALLBACK_DATA].
    Whatever the awaited service does, the handler answers 200: with the
    service's statistics when it returns, with the fallback literal
    (tagged [fallback]) when it throws. *)
Theorem C6_stats_always_200 (w : World) (service : M PortfolioStats)
        (log : list Interaction) :
  (let r := StatsRoute.GET w log in
   let data := StatsRoute.body_data (StatsRoute.body (fst r)) in
   let added := drop (List.length log) (snd r) in
   StatsRoute.status (fst r) = 200%Z
   /\ StatsRoute.body_success (StatsRoute.body (fst r)) = true
   /\ timestamp data <> None
   /\ (source data = blockchain <-> contractReadSucceeded added = true)
   /\ (source data = fallback <-> contractReadSucceeded added = false)
   /\ (source data = fallback <-> data = FALLBACK_DATA w))
  /\ (let r := StatsRoute.GET_with w service log in
      let data := StatsRoute.body_data (StatsRoute.body (fst r)) in
      StatsRoute.status (fst r) = 200%Z
      /\ match fst (service log) with
         | inr stats =>
             StatsRoute.body_success (StatsRoute.body (fst r)) = true /\ data = stats
         | inl _ =>
             StatsRoute.body_success (StatsRoute.body (fst r)) = false
             /\ score data = eight_point_seven
             /\ transactions data = 142%Z
             /\ timestamp data <> None
             /\ source data = fallback
         end).
Proof.
  split.
  - unfold StatsRoute.GET, StatsRoute.GET_with.
    destruct (getContractStats_spec w log) as (stats & added & Hrun & Ht & Hb & Hf).
    rewrite Hrun. cbn [fst snd StatsRoute.status StatsRoute.body StatsRoute.body_data
                       StatsRoute.body_success].
    rewrite drop_app_length. split_and!; try reflexivity; try assumption.
    rewrite <- not_true_iff_false, <- Hb. destruct (source stats); split; congruence.
  - unfold StatsRoute.GET_with. destruct (service log) as [[e|stats] log'];
      cbn; split_and!; try reflexivity; discriminate.
Qed.



Import WalletContext.

(** C2.  For an address that passes the guard of [fetchBalance], the
    ledger lookup is issued; when it fails, with status 404 or with any
    other error, the balance becomes ["10000.00"] and the [error] field
    (like every other field) keeps its value; when it succeeds and a
    native entry is found, the balance becomes that entry's amount. *)
Theorem C2_fetchBalance_fallback (c : Controller) (pk : string) (n : nat)
        (k : option string) :
  invalidKey (Some pk) = false ->
  pending c !! n = Some (AwaitFetchBalance pk k) ->
  (let c1 := step c (Call_fetchBalance (Some pk)) in
   output c1 = (output c ++ [Horizon_loadAccount pk])%list
   /\ pending c1 = (pending c ++ [AwaitFetchBalance pk None])%list
   /\ state c1 = state c)
  /\ (forall e,
        let c2 := step c (Settle n (Rejected e)) in
        state c2 = withBalance "10000.00" (state c)
        /\ balance (state c2) = Some "10000.00"
        /\ error (state c2) = error (state c))
  /\ (forall balances nativeBalance,
        List.find isNative balances = Some nativeBalance ->
        let c2 := step c (Settle n (Resolved_loadAccount balances)) in
        state c2 = withBalance (entry_balance nativeBalance) (state c)
        /\ balance (state c2) = Some (entry_balance nativeBalance)).
Proof.
  intros Hvalid Hp. split; [|split].
  - rewrite (step_fetchBalance_valid c pk Hvalid). simpl. auto.
  - intros e c2. subst c2.
    erewrite step_settle_fetchBalance; [| exact Hp | | |].
    2:{ unfold fetchBalance_settled. destruct (bool_decide _); reflexivity. }
    + destruct k; simpl; auto.
    + destruct k; reflexivity.
    + destruct k; reflexivity.
  - intros balances nb Hfind c2. subst c2.
    erewrite step_settle_fetchBalance; [| exact Hp | | |].
    2:{ unfold fetchBalance_settled. rewrite Hfind. reflexivity. }
    + destruct k; simpl; auto.
    + destruct k; reflexivity.
    + destruct k; reflexivity.
Qed.

(** The theorem of C2 on the sample address. *)
Lemma C2_witness :
  let c := step (initial None) (Call_fetchBalance (Some sampleAddress)) in
  invalidKey (Some sampleAddress) = false
  /\ pending c !! 0 = Some (AwaitFetchBalance sampleAddress None)
  /\ (forall e, balance (state (step c (Settle 0 (Rejected e)))) = Some "10000.00"
                /\ error (state (step c (Settle 0 (Rejected e)))) = None).
Proof.
  intros c.
  assert (Hv : invalidKey (Some sampleAddress) = false) by reflexivity.
  assert (Hp : pending c !! 0 = Some (AwaitFetchBalance sampleAddress None)) by reflexivity.
  split; [exact Hv|]. split; [exact Hp|].
  intros e.
  destruct (C2_fetchBalance_fallback c sampleAddress 0 None Hv Hp) as (_ & Hrej & _).
  destruct (Hrej e) as (_ & Hb & He). split; [exact Hb | exact He].
Defined.

(** C3.  In every reachable state of the controller -- after any sequence
    of mounts, connects, disconnects, balance fetches, timer ticks and
    settling calls -- [isAuthorized] implies a non-null [address]. *)
Theorem C3_authorized_has_address (stored : option SavedConnection) (evs : list Event) :
  isAuthorized (state (run stored evs)) = true ->
  address (state (run stored evs)) <> None.
Proof. apply (run_Inv stored evs). Qed.

(** The theorem of C3 on the connected sample run. *)
Lemma C3_witness :
  isAuthorized (state (run None connectedRun)) = true
  /\ address (state (run None connectedRun)) <> None.
Proof.
  assert (H : isAuthorized (state (run None connectedRun)) = true) by (vm_compute; reflexivity).
  split; [exact H|].
  exact (C3_authorized_has_address None connectedRun H).
Defined.

(** C5 (amended).  From every reachable state, [disconnect()] resets the
    connection state ([address], [isAuthorized], [balance] and [error]
    cleared), removes the persisted marker, and leaves no polling and no
    monitor interval alive at that moment, so the timer ticks that
    follow change nothing as long as no call settles in between; when
    no asynchronous call is in flight at the disconnect, neither timer
    ticks nor settling calls change anything afterwards.  A call that is
    in flight is not cancelled, and what it does when it settles is not
    part of the statement. *)
Theorem C5_disconnect_resets (stored : option SavedConnection) (evs : list Event) :
  let c := run stored evs in
  let c' := step c Call_disconnect in
  state c' = initialState
  /\ address (state c') = None
  /\ isAuthorized (state c') = false
  /\ balance (state c') = None
  /\ error (state c') = None
  /\ localStorage c' = None
  /\ pollingIntervalRef c' = None
  /\ timers c' = ∅
  /\ (forall ticks, forallb isFire ticks = true -> fold_left step ticks c' = c')
  /\ (pending c = [] ->
      forall later, forallb isFireOrSettle later = true -> fold_left step later c' = c').
Proof.
  intros c c'.
  pose proof (step_Inv c Call_disconnect (run_Inv stored evs)) as Hinv. fold c' in Hinv.
  destruct Hinv as (H1 & H2 & H3 & H4 & H5 & H6).
  assert (Hstate : state c' = initialState).
  { subst c'. unfold step, monitorEffect. simpl.
    repeat case_match; simpl; first [reflexivity | assumption]. }
  assert (Href : pollingIntervalRef c' = None).
  { subst c'. unfold step, monitorEffect. simpl. unfold disconnect, stopPolling.
    repeat case_match; simpl; first [reflexivity | assumption]. }
  assert (Hstore : localStorage c' = None).
  { subst c'. unfold step, monitorEffect. simpl. unfold disconnect, stopPolling.
    repeat case_match; simpl; first [reflexivity | assumption]. }
  assert (Hpend : pending c' = pending c).
  { subst c'. unfold step, monitorEffect. simpl. unfold disconnect, stopPolling.
    repeat case_match; simpl; first [reflexivity | assumption]. }
  assert (Htimers : timers c' = ∅).
  { apply map_eq. intros id. rewrite lookup_empty.
    destruct (timers c' !! id) as [[[|captured] ms]|] eqn:Hl; [| |reflexivity].
    - apply H2 in Hl as [Hl _]. congruence.
    - pose proof (H3 _ _ _ Hl) as (_ & Ht & _).
      apply H4 in Hl. rewrite Hstate in Hl. subst captured. discriminate. }
  rewrite Hstate. split_and!; try reflexivity; try assumption.
  - induction ticks as [|[] ticks IH]; simpl; try discriminate; [reflexivity|].
    intros Hall. rewrite step_idle_fire by assumption. now apply IH.
  - intros Hnone. rewrite Hnone in Hpend.
    induction later as [|[] later IH]; simpl; try discriminate; [reflexivity| |].
    + intros Hall. rewrite step_idle_fire by assumption. now apply IH.
    + intros Hall. rewrite step_idle_settle by assumption. now apply IH.
Qed.

(** The theorem of C5 on a connected controller with nothing in flight. *)
Lemma C5_witness :
  let c' := step (run None settledRun) Call_disconnect in
  pending (run None settledRun) = []
  /\ state c' = initialState
  /\ localStorage c' = None
  /\ fold_left step [Fire 2; Fire 1; Settle 0 (Resolved_getAddress (Some sampleAddress)); Fire 2] c'
     = c'.
Proof.
  intros c'.
  assert (Hp : pending (run None settledRun) = []) by (vm_compute; reflexivity).
  destruct (C5_disconnect_resets None settledRun)
    as (Hs & _ & _ & _ & _ & Hl & _ & _ & _ & Hq).
  split; [exact Hp|]. split; [exact Hs|]. split; [exact Hl|].
  apply (Hq Hp). reflexivity.
Defined.

(** C5 as stated fails: a poll started by the polling interval and still
    awaiting [getAddress()] when [disconnect()] runs is not cancelled.
    When it settles with an address, the state is connected again, a
    monitor interval is started, and the balance and the persisted marker
    are written. *)
Lemma C5_counterexample :
  let c := run None pollingRun in
  let c1 := step c Call_disconnect in
  let c2 := step c1 (Settle 0 (Resolved_getAddress (Some sampleAddress))) in
  let c3 := step c2 (Settle 0 (Resolved_loadAccount
                                 [{| asset_type := "native"; entry_balance := "123.4567890" |}])) in
  isPollingTimer c 1
  /\ pending c = [AwaitPoll_getAddress]
  /\ state c1 = initialState
  /\ timers c1 = ∅
  /\ address (state c2) = Some sampleAddress
  /\ isAuthorized (state c2) = true
  /\ isMonitorTimer c2 2
  /\ balance (state c3) = Some "123.4567890"
  /\ localStorage c3 = Some {| saved_address := sampleAddress; saved_isAuthorized := true |}
  /\ state c2 <> state c1.
Proof.
  intros c c1 c2 c3. split_and!.
  - exists 1000%Z. vm_compute. reflexivity.
  - vm_compute. reflexivity.
  - vm_compute. reflexivity.
  - vm_compute. reflexivity.
  - vm_compute. reflexivity.
  - vm_compute. reflexivity.
  - exists (Some sampleAddress), 2000%Z. vm_compute. reflexivity.
  - vm_compute. reflexivity.
  - vm_compute. reflexivity.
  - vm_compute. discriminate.
Qed.

(** C7.  The monitor misses the first of the two negative signals of
    the claim.  On a connected wallet whose monitor interval has fired,
    [isConnected()] resolves with [{ isConnected: false }]: the
    extension reports that it is not connected.  [checkConnection]
    tests the object itself, which is truthy, where it reads the answer
    of [getAddress()] through its [address] field.  It sets neither
    [isWalletLocked] nor an error and goes on to [getAddress()]; when
    that answers with the address, or rejects, the check ends with the
    state as it was before. *)
Theorem C7_not_connected_report_ignored :
  let c := run None monitoringRun in
  let p := AwaitMonitor_isConnected (Some sampleAddress) in
  let r := Resolved_isConnected (ConnectedObject false) in
  let c1 := step c (Settle 1 r) in
  let c2 := step c1 (Settle 1 (Resolved_getAddress (Some sampleAddress))) in
  let c3 := step c1 (Settle 1 (Rejected (Error "Freighter is not available"))) in
  address (state c) = Some sampleAddress
  /\ isWalletLocked (state c) = false
  /\ isMonitorTimer c 2
  /\ pending c !! 1 = Some p
  /\ negativeSignal p r = Some "Wallet disconnected"
  /\ pending c1 !! 1 = Some (AwaitMonitor_getAddress (Some sampleAddress))
  /\ state c1 = state c
  /\ isWalletLocked (state c1) = false
  /\ error (state c1) = None
  /\ state c2 = state c
  /\ state c3 = state c.
Proof.
  intros c p r c1 c2 c3. split_and!.
  - vm_compute. reflexivity.
  - vm_compute. reflexivity.
  - exists (Some sampleAddress), 2000%Z. vm_compute. reflexivity.
  - vm_compute. reflexivity.
  - reflexivity.
  - vm_compute. reflexivity.
  - vm_compute. reflexivity.
  - vm_compute. reflexivity.
  - vm_compute. reflexivity.
  - vm_compute. reflexivity.
  - vm_compute. reflexivity.
Qed.

(** C8.  No reachable state holds two live polling intervals: any two are
    the same one, held in [pollingIntervalRef].  From every reachable
    state, [startPolling] clears the interval in [pollingIntervalRef]
    before it arms the new one, which is then the only polling
    interval. *)
Theorem C8_single_polling_timer (stored : option SavedConnection) (evs : list Event) :
  let c := run stored evs in
  (forall i j,
      isPollingTimer c i -> isPollingTimer c j ->
      i = j /\ pollingIntervalRef c = Some i)
  /\ (let c' := startPolling c in
      pollingIntervalRef c' = Some (nextTimer c)
      /\ (forall old, pollingIntervalRef c = Some old -> timers c' !! old = None)
      /\ forall id, isPollingTimer c' id <-> id = nextTimer c).
Proof.
  intros c.
  pose proof (run_Inv stored evs) as (H1 & H2 & H3 & H4 & H5 & H6).
  fold c in H1, H2, H3, H4, H5, H6.
  split.
  - intros i j [mi Hi] [mj Hj].
    destruct (H2 _ _ Hi) as [Hri _]. destruct (H2 _ _ Hj) as [Hrj _].
    split; [congruence | assumption].
  - destruct H5 as [_ Hlt]. unfold startPolling, isPollingTimer.
    destruct (pollingIntervalRef c) as [old|] eqn:Href; simpl.
    + split; [reflexivity|]. split.
      * intros ? [= <-]. specialize (Hlt _ eq_refl).
        rewrite lookup_insert_ne by lia. apply lookup_delete_eq.
      * intros id. split.
        -- intros [ms Hl].
           apply lookup_insert_Some in Hl as [[<- _]|[Hne Hl]]; [reflexivity|].
           apply lookup_delete_Some in Hl as [Hne' Hl].
           apply H2 in Hl as [Hid _]. congruence.
        -- intros ->. exists 1000%Z. apply lookup_insert_eq.
    + split; [reflexivity|]. split; [discriminate|].
      intros id. split.
      * intros [ms Hl].
        apply lookup_insert_Some in Hl as [[<- _]|[Hne Hl]]; [reflexivity|].
        apply H2 in Hl as [Hid _]. congruence.
      * intros ->. exists 1000%Z. apply lookup_insert_eq.
Qed.

(** The theorem of C8 after two connects in succession: the interval of
    the first connect (handle 1) is gone, the one of the second (handle
    2) is the only polling interval. *)
Lemma C8_witness :
  let c := run None doubleConnectRun in
  isPollingTimer c 2
  /\ timers c !! 1 = None
  /\ forall j, isPollingTimer c j -> 2 = j.
Proof.
  intros c.
  assert (H2 : isPollingTimer c 2) by (exists 1000%Z; vm_compute; reflexivity).
  assert (H1 : timers c !! 1 = None) by (vm_compute; reflexivity).
  split; [exact H2|]. split; [exact H1|].
  intros j Hj.
  exact (proj1 (proj1 (C8_single_polling_timer None doubleConnectRun) 2 j H2 Hj)).
Defined.

(** C9.  For a [null], empty or white-space-only argument,
    [fetchBalance] only emits the warning: no ledger lookup is issued,
    nothing is awaited, and the connection state -- the balance in
    particular -- the storage and the timers are unchanged. *)
Theorem C9_fetchBalance_invalid (c : Controller) (pk : option string) :
  invalidKey pk = true ->
  let c' := step c (Call_fetchBalance pk) in
  c' = emit (ConsoleWarn "[fetchBalance] Invalid public key") c
  /\ state c' = state c
  /\ balance (state c') = balance (state c)
  /\ output c' = (output c ++ [ConsoleWarn "[fetchBalance] Invalid public key"])%list
  /\ pending c' = pending c
  /\ localStorage c' = localStorage c
  /\ timers c' = timers c.
Proof.
  intros H c'. subst c'. rewrite (step_fetchBalance_invalid c pk H). simpl. auto 10.
Qed.

(** The theorem of C9 on a blank argument. *)
Lemma C9_witness :
  invalidKey (Some "  ") = true
  /\ state (step (run None connectedRun) (Call_fetchBalance (Some "  ")))
     = state (run None connectedRun)
  /\ output (step (run None connectedRun) (Call_fetchBalance (Some "  ")))
     = (output (run None connectedRun) ++ [ConsoleWarn "[fetchBalance] Invalid public key"])%list.
Proof.
  assert (Hv : invalidKey (Some "  ") = true) by reflexivity.
  destruct (C9_fetchBalance_invalid (run None connectedRun) (Some "  ") Hv)
    as (_ & Hs & _ & Ho & _).
  split; [exact Hv|]. split; [exact Hs | exact Ho].
Defined.

(* ===================================================================== *)
(** * Part III: further properties of the code                            *)
(* ===================================================================== *)

(** ** Reading the contract's answer *)
Section ParseFacts.
Import Js Soroban StellarService.

(** The conversion of a vector is the conversion of its elements. *)
Lemma scValToNative_vec_cons (x : ScVal) (l : list ScVal) (y : Native) (ys : list Native) :
  scValToNative x = inr y ->
  scValToNative (scvVec l) = inr (NArray ys) ->
  scValToNative (scvVec (x :: l)) = inr (NArray (y :: ys)).
Proof.
  intros Hx Hl. simpl in *. rewrite Hx.
  destruct ((fix go (l : list ScVal) : Exn + list Native :=
               match l with
               | [] => inr []
               | x :: r =>
                   match scValToNative x with
                   | inl e => inl e
                   | inr y => match go r with inl e => inl e | inr ys => inr (y :: ys) end
                   end
               end) l) as [e|zs]; [discriminate|].
  now injection Hl as ->.
Qed.

(** The conversion never produces a JavaScript [Map]. *)
Lemma scValToNative_not_Map (v : ScVal) (m : list (string * Native)) :
  scValToNative v <> inr (NMap m).
Proof.
  destruct v as [b| |n|n|n|n|hi lo|s|s|l|l|[a|]]; simpl; try discriminate.
  - match goal with |- context [match ?x with _ => _ end] => destruct x end; discriminate.
  - match goal with |- context [match ?x with _ => _ end] => destruct x end; discriminate.
Qed.

Lemma scValToNative_map_object (m : list (ScVal * ScVal)) (v : Native) :
  scValToNative (scvMap m) = inr v -> exists o, v = NObject o.
Proof.
  simpl. match goal with |- context [match ?x with _ => _ end] => destruct x end;
    [discriminate|]. intros H. injection H as <-. eauto.
Qed.

(** The manual parser reads the entries in order: an entry under the
    symbol [score] or [transactions] replaces what was read before. *)
Lemma parseContractResultManual_snoc (m : list (ScVal * ScVal)) (key val : ScVal) :
  parseContractResultManual (scvMap (m ++ [(key, val)])) =
    let acc := parseContractResultManual (scvMap m) in
    let keyStr := match key with scvSymbol s => s | _ => "" end in
    if String.eqb keyStr "score" then (Q2Qc (inject_Z (parseScValNumber val)), snd acc)
    else if String.eqb keyStr "transactions" then (fst acc, parseScValNumber val)
    else acc.
Proof. unfold parseContractResultManual. now rewrite fold_left_app. Qed.

(** Integers below [2 ^ 53] in absolute value are doubles. *)
Lemma toNumber_exact (n : Z) : (Z.abs n < 2 ^ 53)%Z -> toNumber n = n.
Proof.
  intros H. unfold toNumber. apply Z.ltb_lt in H. now rewrite H.
Qed.

End ParseFacts.

(** X1.  A contract answer that is a vector whose first two entries
    are 32-bit integers, and whose other entries convert, is read as
    the score divided by ten and the number of transactions. *)
Theorem X1_parseContractResult_tuple (s t : Z) (rest : list ScVal) (natives : list Native)
        (a b : ScVal) :
  (a = scvU32 s \/ a = scvI32 s) ->
  (b = scvU32 t \/ b = scvI32 t) ->
  scValToNative (scvVec rest) = inr (NArray natives) ->
  parseContractResult (scvVec (a :: b :: rest)) = (Q2Qc (s # 10), t).
Proof.
  intros Ha Hb Hrest. unfold parseContractResult.
  rewrite (scValToNative_vec_cons a (b :: rest) (NNumber s) (NNumber t :: natives)).
  - reflexivity.
  - destruct Ha as [-> | ->]; reflexivity.
  - apply scValToNative_vec_cons; [|exact Hrest].
    destruct Hb as [-> | ->]; reflexivity.
Qed.

Lemma X1_witness :
  parseContractResult
    (scvVec [scvU32 87; scvU32 142; scvU64 1700000000; scvAddress (Some sampleAddress)])
  = (Q2Qc (87 # 10), 142%Z).
Proof.
  apply (X1_parseContractResult_tuple 87 142
           [scvU64 1700000000; scvAddress (Some sampleAddress)]
           [NBigInt 1700000000; NString sampleAddress]).
  - left. reflexivity.
  - left. reflexivity.
  - reflexivity.
Defined.

(** X2.  A contract answer that is a map and converts is never read:
    the conversion gives a plain object, not a [Map], so the statistics
    are the defaults 8.7 and 142 whatever the map holds. *)
Theorem X2_parseContractResult_map_ignored (m : list (ScVal * ScVal)) (v : Native) :
  scValToNative (scvMap m) = inr v ->
  parseContractResult (scvMap m) = (eight_point_seven, 142%Z).
Proof.
  intros H. unfold parseContractResult.
  destruct (scValToNative_map_object m v H) as [o ->]. now rewrite H.
Qed.

Lemma X2_witness :
  parseContractResult
    (scvMap [(scvSymbol "score", scvU32 91); (scvSymbol "transactions", scvU32 7)])
  = (eight_point_seven, 142%Z).
Proof.
  apply (X2_parseContractResult_map_ignored
           [(scvSymbol "score", scvU32 91); (scvSymbol "transactions", scvU32 7)]
           (NObject [(NString "score", NNumber 91); (NString "transactions", NNumber 7)])).
  reflexivity.
Defined.

(** X3.  The manual parser reads the entries of a map in order: a last
    entry under the symbol [score] gives the score whatever came
    before, and leaves the transactions as they were read.  The score
    is the number of the raw integer, not divided by ten as on the
    other path: a 32-bit integer as it is, and so a wider one below
    [2 ^ 53]; a larger one is rounded to the nearest double, so that
    [2 ^ 53 + 1] is read as [2 ^ 53]. *)
Theorem X3_manual_parser_raw_score (m : list (ScVal * ScVal)) (val : ScVal) :
  let read := parseContractResultManual (scvMap (m ++ [(scvSymbol "score", val)])) in
  fst read = Q2Qc (inject_Z (parseScValNumber val))
  /\ snd read = snd (parseContractResultManual (scvMap m))
  /\ (forall n, val = scvU32 n \/ val = scvI32 n -> parseScValNumber val = n)
  /\ (forall n, val = scvU64 n \/ val = scvI64 n ->
                (Z.abs n < 2 ^ 53)%Z -> parseScValNumber val = n)
  /\ parseScValNumber (scvU64 (2 ^ 53 + 1)) = (2 ^ 53)%Z
  /\ parseScValNumber (scvI64 (- (2 ^ 53 + 3))) = (- (2 ^ 53 + 4))%Z.
Proof.
  intros read. subst read. rewrite parseContractResultManual_snoc. split_and!.
  - reflexivity.
  - reflexivity.
  - intros n [-> | ->]; reflexivity.
  - intros n [-> | ->] Hn; cbn [parseScValNumber]; now apply toNumber_exact.
  - vm_compute. reflexivity.
  - vm_compute. reflexivity.
Qed.

(** ** The service and the refine route: outcomes *)
Section ServiceOutcomes.
Import Js Soroban StellarService.

Ltac service_unfold :=
  unfold tryCatch, bind, getSorobanServer, Contract, readOnlySource,
    Keypair_random, server_getAccount, simulateTransaction, now, throw, ret, refineCall.

Ltac service_case :=
  match goal with
  | |- context [match ?x with _ => _ end] =>
      lazymatch x with
      | context [match _ with _ => _ end] => fail
      | _ => destruct x eqn:?
      end
  end.

(** A cooldown query is not a [refine_strategy] simulation. *)
Lemma cooldownQuery_filter_refine (added : list Interaction) :
  forallb isCooldownQuery added = true ->
  List.filter isRefineSimulation added = [].
Proof.
  induction added as [|i added IH]; [reflexivity|]. cbn [forallb List.filter].
  intros H. apply andb_true_iff in H as [Hi H]. rewrite (IH H).
  destruct i as [pk found|c latency o]; [reflexivity|]. simpl in *.
  apply String.eqb_eq in Hi. now rewrite Hi.
Qed.

Lemma filter_refine_app (l1 l2 : list Interaction) :
  List.filter isRefineSimulation (l1 ++ l2)
  = (List.filter isRefineSimulation l1 ++ List.filter isRefineSimulation l2)%list.
Proof. apply List.filter_app. Qed.

(** The answer of a cooldown query that is read as a number other
    than 0 is a 32-bit integer. *)
Lemma cooldownOfReply_nonzero (o : SimOutcome) :
  cooldownOfReply o <> 0%Z ->
  exists v, o = SimSuccess (Some v)
            /\ (v = scvU32 (cooldownOfReply o) \/ v = scvI32 (cooldownOfReply o)).
Proof.
  unfold cooldownOfReply. destruct o as [[v|]| |]; try congruence.
  destruct (scValToNative v) as [e|[n| | | | | | |]] eqn:Hv; try congruence.
  intros _. exists v. split; [reflexivity|].
  destruct v; simpl in Hv; repeat case_match; simplify_eq; auto.
Qed.

Ltac service_step :=
  match goal with
  | |- context [getCooldownRemaining ?w ?l] =>
      let n := fresh "n" in
      let added := fresh "added" in
      let Hrun := fresh "Hrun" in
      let Hq := fresh "Hq" in
      let Hn := fresh "Hn" in
      destruct (getCooldownRemaining_spec w l) as (n & added & Hrun & Hq & Hn);
      rewrite Hrun; clear Hrun; clear Hn
  | _ => service_case
  end.

(** The shape of what [refineStrategy] returns, and the
    [refine_strategy] simulations it makes. *)
Lemma refineStrategy_outcomes (w : World) (walletAddress : string) (metric : Z)
      (log : list Interaction) :
  exists res added,
    refineStrategy w walletAddress metric log = (inr res, (log ++ added)%list)
    /\ (if success res
        then error res = None /\ cooldownRemaining res = None
             /\ exists xdr c latency retval,
                  transactionXDR res = Some xdr
                  /\ assembleToXDR w c = inr xdr
                  /\ call_method c = "refine_strategy"
                  /\ last added = Some (ISimulate c latency (SimSuccess retval))
        else transactionXDR res = None
             /\ ((error res = Some "COOLDOWN_ACTIVE" /\ cooldownRemaining res <> None)
                 \/ (error res = Some "SIMULATION_FAILED" /\ cooldownRemaining res = None
                     /\ exists response,
                          message res = "Simulation failed: " ++ simErrorOf response
                          /\ mentionsCooldown
                               (toLowerCase (Json.stringify (Json.JObj response))) = false)
                 \/ (error res = Some "UNKNOWN_ERROR" /\ cooldownRemaining res = None)))
    /\ List.length (List.filter isRefineSimulation added) <= 1
    /\ (existsb isRefineSimulation added = true ->
        isBlank (CONTRACT_ID w) = false /\ In (IGetAccount walletAddress true) added).
Proof.
  unfold refineStrategy.
  repeat first [progress service_unfold | progress cbn beta iota zeta | service_step];
    simplify_eq.
  all: rewrite <- ?app_assoc; eexists _, _; (split; [reflexivity|]).
  all: cbn [success error cooldownRemaining transactionXDR message cooldownActive failed].
  all: split_and!.
  all: try discriminate.
  all: try reflexivity.
  all: rewrite ?filter_refine_app, ?existsb_app;
    repeat match goal with
           | H : forallb isCooldownQuery ?l = true |- _ =>
               rewrite ?(cooldownQuery_filter_refine l H);
               let Hex := fresh "Hex" in
               assert (Hex : existsb isRefineSimulation l = false)
                 by (apply not_true_is_false; intros Hex;
                     apply existsb_exists in Hex as (i & Hi & Hr);
                     rewrite forallb_forall in H; specialize (H _ Hi);
                     destruct i; simpl in *; [discriminate|];
                     apply String.eqb_eq in H; rewrite H in Hr; discriminate);
               rewrite ?Hex; clear H
           end.
  all: try (left; split; [reflexivity|discriminate]).
  all: try (right; right; split; reflexivity).
  all: try (simpl; lia).
  all: try (simpl; intros; discriminate).
  all: try (simpl; intros _; split; [reflexivity|]; rewrite ?in_app_iff; simpl; tauto).
  - do 4 eexists. split_and!; [reflexivity | eassumption | reflexivity |].
    rewrite app_assoc. apply last_snoc.
  - right. left. split_and!; try reflexivity. eexists. split; [reflexivity|assumption].
Qed.

End ServiceOutcomes.

Section RouteFacts.
Import Js Soroban StellarService.

(** The prefix of the message of a failed simulation holds no cooldown
    pattern, and none starts in it. *)
Lemma mentionsCooldown_failed_prefix (e : string) :
  mentionsCooldown (toLowerCase ("Simulation failed: " ++ e))
  = mentionsCooldown (toLowerCase e).
Proof.
  rewrite toLowerCase_app.
  change (toLowerCase "Simulation failed: ") with "simulation failed: ".
  unfold mentionsCooldown.
  rewrite !append_cons, append_nil_l.
  cbn [includes startsWith Ascii.eqb Bool.eqb andb orb].
  reflexivity.
Qed.

(** The message of a result tagged [SIMULATION_FAILED] holds no
    cooldown pattern. *)
Lemma simulation_failed_message (response : list (string * Json.value)) :
  mentionsCooldown (toLowerCase (Json.stringify (Json.JObj response))) = false ->
  mentionsCooldown (toLowerCase ("Simulation failed: " ++ simErrorOf response)) = false.
Proof.
  intros H. rewrite mentionsCooldown_failed_prefix.
  apply not_true_is_false. intros Hm. apply mentionsCooldown_iff in Hm as (p & Hin & Hp).
  rewrite (diagnostic_mentions_cooldown response) in H; [discriminate|].
  exists p. split; [exact Hin|]. now right.
Qed.

End RouteFacts.

Section RouteRelay.
Import Js Soroban StellarService.

(** The route relays the result of [refineStrategy]. *)
Lemma refine_route_relays (w : World) (request : Exn + RefineRoute.RequestBody)
      (a : string) (log : list Interaction) :
  Requests.walletAddressOf request = Some a ->
  exists req res log',
    request = inr req
    /\ refineStrategy w a (default 10%Z (RefineRoute.performanceMetric req)) log
       = (inr res, log')
    /\ RefineRoute.POST w request log
       = (inr {| RefineRoute.status := if success res then 200%Z else 400%Z;
                 RefineRoute.body := RefineRoute.json res;
                 RefineRoute.cacheControl := RefineRoute.noCache |}, log').
Proof.
  intros Ha. destruct request as [e|req]; [discriminate|]. simpl in Ha.
  destruct (RefineRoute.walletAddress req) as [[| | |a'| |]|] eqn:Hw; try discriminate.
  destruct (isEmpty a') eqn:He; [discriminate|]. injection Ha as ->.
  destruct (refineStrategy_outcomes w a (default 10%Z (RefineRoute.performanceMetric req)) log)
    as (res & added & Hrun & Hres & _).
  exists req, res, (log ++ added)%list. split; [reflexivity|]. split; [exact Hrun|].
  unfold RefineRoute.POST, tryCatch, bind, ret. rewrite Hw, He, Hrun.
  destruct (success res) eqn:Hs; cbn [negb andb]; [reflexivity|].
  destruct (bool_decide (error res = Some "COOLDOWN_ACTIVE")); [reflexivity|].
  destruct Hres as (_ & [(H & _)|[(H & _ & response & Hm & Hno)|(H & _)]]);
    rewrite H; cbn [andb]; try reflexivity.
  rewrite bool_decide_eq_true_2 by reflexivity. cbn [andb].
  rewrite Hm, (simulation_failed_message response Hno). reflexivity.
Qed.

(** The route answers at once when it finds no wallet address. *)
Lemma refine_route_rejects_early (w : World) (request : Exn + RefineRoute.RequestBody)
      (log : list Interaction) :
  Requests.walletAddressOf request = None ->
  exists resp,
    RefineRoute.POST w request log = (inr resp, log)
    /\ RefineRoute.body_success (RefineRoute.body resp) = false
    /\ RefineRoute.body_transactionXDR (RefineRoute.body resp) = None
    /\ match request with
       | inl _ =>
           RefineRoute.status resp = 500%Z
           /\ RefineRoute.body_message (RefineRoute.body resp)
              = Some "Failed to process refinement request"
       | inr _ =>
           RefineRoute.status resp = 400%Z
           /\ RefineRoute.body_error (RefineRoute.body resp)
              = Some "Wallet address is required"
       end.
Proof.
  intros Ha. unfold RefineRoute.POST, tryCatch, bind, ret, throw.
  destruct request as [e|req]; [eexists; split_and!; reflexivity|].
  simpl in Ha.
  destruct (RefineRoute.walletAddress req) as [[| | |a| |]|];
    try (eexists; split_and!; reflexivity).
  destruct (isEmpty a); [|discriminate].
  eexists; split_and!; reflexivity.
Qed.

(** A response of the route that reports success carries no error. *)
Lemma refine_route_success_no_error (w : World) (request : Exn + RefineRoute.RequestBody)
      (log log' : list Interaction) (resp : RefineRoute.Response) :
  RefineRoute.POST w request log = (inr resp, log') ->
  RefineRoute.body_success (RefineRoute.body resp) = true ->
  RefineRoute.body_error (RefineRoute.body resp) = None.
Proof.
  intros Hrun Hs. destruct (Requests.walletAddressOf request) as [a|] eqn:Ha.
  - destruct (refine_route_relays w request a log Ha) as (req & res & log1 & -> & Hres & Hpost).
    rewrite Hpost in Hrun. injection Hrun as <- <-. cbn in Hs |- *.
    destruct (refineStrategy_outcomes w a (default 10%Z (RefineRoute.performanceMetric req)) log)
      as (res' & added & Hrun' & Hout & _).
    rewrite Hres in Hrun'. injection Hrun' as <- _.
    rewrite Hs in Hout. now destruct Hout as [-> _].
  - destruct (refine_route_rejects_early w request log Ha) as (resp' & Hpost & Hf & _).
    rewrite Hpost in Hrun. injection Hrun as <- _. congruence.
Qed.

End RouteRelay.

Section ServiceTheorems.
Import Js Soroban StellarService.

(** X4.  [refineStrategy] never throws.  A successful result carries
    the envelope assembled from a [refine_strategy] transaction whose
    simulation, the last interaction made, succeeded, and no error; a
    failed one carries no envelope and one of the three codes
    [COOLDOWN_ACTIVE], [SIMULATION_FAILED] and [UNKNOWN_ERROR], with a
    cooldown figure exactly under [COOLDOWN_ACTIVE]. *)
Theorem X4_refineStrategy_outcomes (w : World) (walletAddress : string) (metric : Z)
        (log : list Interaction) :
  exists res added,
    refineStrategy w walletAddress metric log = (inr res, (log ++ added)%list)
    /\ (if success res
        then error res = None /\ cooldownRemaining res = None
             /\ exists xdr c latency retval,
                  transactionXDR res = Some xdr
                  /\ assembleToXDR w c = inr xdr
                  /\ call_method c = "refine_strategy"
                  /\ last added = Some (ISimulate c latency (SimSuccess retval))
        else transactionXDR res = None
             /\ ((error res = Some "COOLDOWN_ACTIVE" /\ cooldownRemaining res <> None)
                 \/ (error res = Some "SIMULATION_FAILED" /\ cooldownRemaining res = None)
                 \/ (error res = Some "UNKNOWN_ERROR" /\ cooldownRemaining res = None))).
Proof.
  destruct (refineStrategy_outcomes w walletAddress metric log)
    as (res & added & Hrun & Hres & _).
  exists res, added. split; [exact Hrun|].
  destruct (success res); [exact Hres|].
  destruct Hres as (Hx & [H|[(H1 & H2 & _)|H]]); auto.
Qed.

(** X5.  One call of [refineStrategy] simulates a [refine_strategy]
    transaction at most once, and only with a contract id configured
    and after the account of the wallet was loaded from the server. *)
Theorem X5_refine_simulated_at_most_once (w : World) (walletAddress : string) (metric : Z)
        (log : list Interaction) :
  exists res added,
    refineStrategy w walletAddress metric log = (inr res, (log ++ added)%list)
    /\ List.length (List.filter isRefineSimulation added) <= 1
    /\ (existsb isRefineSimulation added = true ->
        isBlank (CONTRACT_ID w) = false /\ In (IGetAccount walletAddress true) added).
Proof.
  destruct (refineStrategy_outcomes w walletAddress metric log)
    as (res & added & Hrun & _ & Hone & Honly).
  now exists res, added.
Qed.

(** X6.  [getCooldownRemaining] never throws, and it returns a number
    other than 0 only when the simulation of [get_cooldown_remaining],
    its last interaction, was answered with that number as a 32-bit
    integer: an answer of any other type, a 64-bit integer included, is
    read as 0. *)
Theorem X6_cooldown_read_from_32_bit_answer (w : World) (log : list Interaction) :
  exists n added,
    getCooldownRemaining w log = (inr n, (log ++ added)%list)
    /\ (n <> 0%Z ->
        exists c latency v,
          last added = Some (ISimulate c latency (SimSuccess (Some v)))
          /\ call_method c = "get_cooldown_remaining"
          /\ (v = scvU32 n \/ v = scvI32 n)).
Proof.
  destruct (getCooldownRemaining_spec w log) as (n & added & Hrun & Hq & Hn).
  exists n, added. split; [exact Hrun|]. intros Hne.
  destruct Hn as [->|(c & latency & o & Hl & ->)]; [congruence|].
  destruct (cooldownOfReply_nonzero o Hne) as (v & -> & Hv).
  exists c, latency, v. split_and!; [exact Hl| |exact Hv].
  apply last_Some in Hl as [l' ->].
  rewrite forallb_app in Hq. apply andb_true_iff in Hq as [_ Hq].
  simpl in Hq. rewrite andb_true_r in Hq. now apply String.eqb_eq.
Qed.

(** X7.  For a request with a non-empty string as [walletAddress],
    [POST /api/portfolio/refine] relays the result of [refineStrategy]
    as it is, with status 200 when it succeeded and 400 otherwise, and
    makes no interaction of its own: the route's second cooldown test,
    on the message of a [SIMULATION_FAILED] result, never fires. *)
Theorem X7_refine_route_relays (w : World) (request : Exn + RefineRoute.RequestBody)
        (a : string) (log : list Interaction) :
  Requests.walletAddressOf request = Some a ->
  exists req res log',
    request = inr req
    /\ refineStrategy w a (default 10%Z (RefineRoute.performanceMetric req)) log
       = (inr res, log')
    /\ RefineRoute.POST w request log
       = (inr {| RefineRoute.status := if success res then 200%Z else 400%Z;
                 RefineRoute.body := RefineRoute.json res;
                 RefineRoute.cacheControl := RefineRoute.noCache |}, log').
Proof. apply refine_route_relays. Qed.

Lemma X7_witness :
  exists req res log',
    Samples.refineRequest = inr req
    /\ refineStrategy (Samples.world (scvU32 0) (SimSuccess None)) Samples.sampleAddress
         (default 10%Z (RefineRoute.performanceMetric req)) []
       = (inr res, log')
    /\ RefineRoute.POST (Samples.world (scvU32 0) (SimSuccess None)) Samples.refineRequest []
       = (inr {| RefineRoute.status := if success res then 200%Z else 400%Z;
                 RefineRoute.body := RefineRoute.json res;
                 RefineRoute.cacheControl := RefineRoute.noCache |}, log').
Proof.
  apply (X7_refine_route_relays (Samples.world (scvU32 0) (SimSuccess None))
           Samples.refineRequest Samples.sampleAddress []).
  reflexivity.
Defined.

(** X8.  A request whose body cannot be read, or whose [walletAddress]
    is missing, not a string or empty, is answered without any
    interaction with the RPC server: with status 500 in the first case
    and with status 400 and the error [Wallet address is required] in
    the others. *)
Theorem X8_refine_route_rejects_early (w : World) (request : Exn + RefineRoute.RequestBody)
        (log : list Interaction) :
  Requests.walletAddressOf request = None ->
  exists resp,
    RefineRoute.POST w request log = (inr resp, log)
    /\ RefineRoute.body_success (RefineRoute.body resp) = false
    /\ RefineRoute.body_transactionXDR (RefineRoute.body resp) = None
    /\ match request with
       | inl _ =>
           RefineRoute.status resp = 500%Z
           /\ RefineRoute.body_message (RefineRoute.body resp)
              = Some "Failed to process refinement request"
       | inr _ =>
           RefineRoute.status resp = 400%Z
           /\ RefineRoute.body_error (RefineRoute.body resp)
              = Some "Wallet address is required"
       end.
Proof. apply refine_route_rejects_early. Qed.

Lemma X8_witness :
  exists resp,
    RefineRoute.POST (Samples.world (scvU32 0) (SimSuccess None))
      (inr {| RefineRoute.walletAddress := Some (Json.JNum 7);
              RefineRoute.performanceMetric := None |}) []
    = (inr resp, [])
    /\ RefineRoute.body_success (RefineRoute.body resp) = false
    /\ RefineRoute.body_transactionXDR (RefineRoute.body resp) = None
    /\ RefineRoute.status resp = 400%Z
       /\ RefineRoute.body_error (RefineRoute.body resp) = Some "Wallet address is required".
Proof.
  apply (X8_refine_route_rejects_early (Samples.world (scvU32 0) (SimSuccess None))
           (inr {| RefineRoute.walletAddress := Some (Json.JNum 7);
                   RefineRoute.performanceMetric := None |}) []).
  reflexivity.
Defined.

End ServiceTheorems.

Section StatsService.
Import Js Soroban StellarService.

Ltac stats_unfold :=
  unfold tryCatch, bind, getSorobanServer, Contract, readOnlySource,
    Keypair_random, server_getAccount, simulateTransaction, now, throw, ret.

Ltac stats_case :=
  match goal with
  | |- context [match ?x with _ => _ end] =>
      lazymatch x with
      | context [match _ with _ => _ end] => fail
      | _ => destruct x eqn:?
      end
  end.

(** X9.  [getContractStats] makes no interaction at all without a
    contract id, and otherwise at most an account lookup followed by
    one simulation, of [get_metrics].  Statistics tagged [blockchain]
    are what [parseContractResult] reads of the answer to that
    simulation, which came within the time budget. *)
Theorem X9_getContractStats_interactions (w : World) (log : list Interaction) :
  exists stats added,
    getContractStats w log = (inr stats, (log ++ added)%list)
    /\ (isBlank (CONTRACT_ID w) = true -> added = [] /\ stats = FALLBACK_DATA w)
    /\ (added = []
        \/ (exists pk found, added = [IGetAccount pk found])
        \/ (exists pk found latency o,
              added = [IGetAccount pk found; ISimulate metricsCall latency o]))
    /\ (source stats = blockchain ->
        exists latency v,
          last added = Some (ISimulate metricsCall latency (SimSuccess (Some v)))
          /\ (latency < REQUEST_TIMEOUT)%Z
          /\ score stats = fst (parseContractResult v)
          /\ transactions stats = snd (parseContractResult v)).
Proof.
  unfold getContractStats.
  repeat first [progress stats_unfold | progress cbn beta iota zeta | stats_case];
    simplify_eq.
  all: rewrite <- ?app_assoc;
    first [ eexists _, _; split; [reflexivity|]
          | eexists _, []; rewrite app_nil_r; split; [reflexivity|] ].
  all: split_and!; try (intros; discriminate); try (split; reflexivity).
  all: try (left; reflexivity).
  all: try (right; right; do 4 eexists; reflexivity).
  all: try (right; left; do 2 eexists; reflexivity).
  all: try (intros _; do 2 eexists; split_and!; try reflexivity;
            unfold REQUEST_TIMEOUT in *; lia).
Qed.

End StatsService.

(** ** The submit route *)
Section SubmitFacts.
Import Js JsMore StellarService SubmitRoute.

Lemma isEmpty_true (s : string) : isEmpty s = true <-> s = "".
Proof. destruct s; simpl; split; congruence. Qed.

(** What the route does with an envelope that passed its test. *)
Lemma POST_accepted (sw : SubmitWorld) (request : Exn + RequestBody) (s : string)
      (sent : list string) :
  Requests.signedXdrOf request = Some s ->
  POST sw request sent =
    match submitSignedTransaction sw (Json.JStr s) sent with
    | (inr result, sent') =>
        if String.eqb (send_status result) "ERROR"
        then
          ({| status := 400;
              body := {| body_success := false;
                         body_message := "Transaction submission failed";
                         body_error :=
                           Some (orElse (errorResultXdr result) "Unknown error");
                         body_result := Some result |} |}, sent')
        else
          ({| status := 200;
              body := {| body_success := true;
                         body_message := "Transaction submitted successfully";
                         body_error := None;
                         body_result := Some result |} |}, sent')
    | (inl e, sent') => (serverError e, sent')
    end.
Proof.
  intros H. destruct request as [e|req]; [discriminate|]. unfold POST. simpl in H.
  destruct (orValue (signedXDR req) (signedXdr req)) as [[| | |s'| |]|]; try discriminate.
  destruct (isEmpty s') eqn:He; [discriminate|]. now injection H as ->.
Qed.

Lemma POST_refused (sw : SubmitWorld) (request : Exn + RequestBody) (sent : list string) :
  Requests.signedXdrOf request = None ->
  POST sw request sent =
    (match request with inl e => serverError e | inr _ => badRequest end, sent).
Proof.
  intros H. destruct request as [e|req]; [reflexivity|]. unfold POST. simpl in H.
  destruct (orValue (signedXDR req) (signedXdr req)) as [[| | |s'| |]|]; try reflexivity.
  destruct (isEmpty s'); [reflexivity|discriminate].
Qed.

End SubmitFacts.

Section SubmitTheorems.
Import Js JsMore StellarService SubmitRoute.

(** X10.  A submit request without a string envelope (neither
    [signedXDR] nor [signedXdr] is truthy, or the first truthy one is
    not a string) is answered with status 400 and nothing is sent to
    the network; a body that cannot be read is answered with
    status 500. *)
Theorem X10_submit_route_validation (sw : SubmitWorld) (request : Exn + RequestBody)
        (sent : list string) :
  Requests.signedXdrOf request = None ->
  snd (POST sw request sent) = sent
  /\ body_success (body (fst (POST sw request sent))) = false
  /\ status (fst (POST sw request sent))
     = match request with inl _ => 500%Z | inr _ => 400%Z end.
Proof.
  intros H. rewrite (POST_refused sw request sent H).
  destruct request; split_and!; reflexivity.
Qed.

Lemma X10_witness :
  let sw := {| serviceWorld := Samples.world (scvU32 0) (SimSuccess None);
               fromXDR := fun _ => None;
               sendTransaction := fun _ _ =>
                 inr {| send_status := "PENDING"; errorResultXdr := None |} |} in
  let request := inr {| signedXDR := Some (Json.JNum 5);
                        signedXdr := Some (Json.JStr "AAAAAgAAAAA=") |} in
  snd (POST sw request []) = []
  /\ body_success (body (fst (POST sw request []))) = false
  /\ status (fst (POST sw request [])) = 400%Z.
Proof.
  apply (X10_submit_route_validation
           {| serviceWorld := Samples.world (scvU32 0) (SimSuccess None);
              fromXDR := fun _ => None;
              sendTransaction := fun _ _ =>
                inr {| send_status := "PENDING"; errorResultXdr := None |} |}
           (inr {| signedXDR := Some (Json.JNum 5);
                   signedXdr := Some (Json.JStr "AAAAAgAAAAA=") |}) []).
  reflexivity.
Defined.

(** X11.  An envelope made of white space only passes the test of the
    route but not that of [submitSignedTransaction]: the answer is
    status 500 with the message [Invalid signedXDR: Empty string], and
    nothing is sent to the network. *)
Theorem X11_submit_blank_envelope (sw : SubmitWorld) (request : Exn + RequestBody)
        (s : string) (sent : list string) :
  Requests.signedXdrOf request = Some s ->
  allWhiteSpace s = true ->
  POST sw request sent =
    ({| status := 500;
        body := {| body_success := false;
                   body_message := "Invalid signedXDR: Empty string";
                   body_error := None;
                   body_result := None |} |}, sent).
Proof.
  intros H Hw. rewrite (POST_accepted sw request s sent H).
  unfold submitSignedTransaction. apply trim_blank in Hw. rewrite Hw. reflexivity.
Qed.

Lemma X11_witness :
  let sw := {| serviceWorld := Samples.world (scvU32 0) (SimSuccess None);
               fromXDR := fun _ => None;
               sendTransaction := fun _ _ =>
                 inr {| send_status := "PENDING"; errorResultXdr := None |} |} in
  POST sw (inr {| signedXDR := None; signedXdr := Some (Json.JStr "   ") |}) [] =
    ({| status := 500;
        body := {| body_success := false;
                   body_message := "Invalid signedXDR: Empty string";
                   body_error := None;
                   body_result := None |} |}, []).
Proof.
  apply (X11_submit_blank_envelope
           {| serviceWorld := Samples.world (scvU32 0) (SimSuccess None);
              fromXDR := fun _ => None;
              sendTransaction := fun _ _ =>
                inr {| send_status := "PENDING"; errorResultXdr := None |} |}
           (inr {| signedXDR := None; signedXdr := Some (Json.JStr "   ") |}) "   " []).
  - reflexivity.
  - reflexivity.
Defined.

(** X12.  The submit route sends at most one envelope per request, the
    trimmed one, and answers with status 200 and [success] exactly
    when it sent it and the server answered with a status other than
    [ERROR]: a [PENDING], [DUPLICATE] or [TRY_AGAIN_LATER] answer is
    reported as a success. *)
Theorem X12_submit_route_status (sw : SubmitWorld) (request : Exn + RequestBody)
        (sent : list string) :
  let resp := fst (POST sw request sent) in
  let sent' := snd (POST sw request sent) in
  (sent' = sent
   \/ exists s, Requests.signedXdrOf request = Some s /\ sent' = (sent ++ [trim s])%list)
  /\ (body_success (body resp) = true <-> status resp = 200%Z)
  /\ (status resp = 200%Z <->
      exists s result,
        Requests.signedXdrOf request = Some s
        /\ sent' = (sent ++ [trim s])%list
        /\ sendTransaction sw (List.length sent) (trim s) = inr result
        /\ String.eqb (send_status result) "ERROR" = false
        /\ body_result (body resp) = Some result).
Proof.
  cbn zeta. destruct (Requests.signedXdrOf request) as [s|] eqn:Hs.
  2:{ rewrite (POST_refused sw request sent Hs). cbn [fst snd].
      split_and!; [now left| |].
      - destruct request; simpl; split; discriminate.
      - split; [destruct request; discriminate|]. intros (s & r & H & _). discriminate. }
  rewrite (POST_accepted sw request s sent Hs). unfold submitSignedTransaction.
  destruct (isEmpty (trim s)) eqn:He.
  { cbn. split_and!; [now left|split; discriminate|].
    split; [discriminate|]. intros (s' & r & H & Hsent & _).
    apply (f_equal (@List.length string)) in Hsent. rewrite length_app in Hsent.
    simpl in Hsent. lia. }
  destruct (fst (getSorobanServer (serviceWorld sw) [])) as [e|[]].
  { cbn. split_and!; [now left|split; discriminate|].
    split; [discriminate|]. intros (s' & r & H & Hsent & _).
    apply (f_equal (@List.length string)) in Hsent. rewrite length_app in Hsent.
    simpl in Hsent. lia. }
  destruct (fromXDR sw (trim s)) as [e|].
  { cbn. split_and!; [now left|split; discriminate|].
    split; [discriminate|]. intros (s' & r & H & Hsent & _).
    apply (f_equal (@List.length string)) in Hsent. rewrite length_app in Hsent.
    simpl in Hsent. lia. }
  destruct (sendTransaction sw (List.length sent) (trim s)) as [e|result] eqn:Hsend.
  { cbn. split_and!; [right; eauto|split; discriminate|].
    split; [discriminate|]. intros (s' & r & H & _ & H' & _).
    injection H as <-. congruence. }
  destruct (String.eqb (send_status result) "ERROR") eqn:Hst; cbn.
  - split_and!; [right; eauto|split; discriminate|].
    split; [discriminate|]. intros (s' & r & H & _ & H' & Hr & _).
    injection H as <-. congruence.
  - split_and!; [right; eauto|split; reflexivity|].
    split; [|reflexivity]. intros _. exists s, result. auto.
Qed.

End SubmitTheorems.

(** ** Slices and the header *)
Section SliceFacts.
Import Js JsMore.

Lemma length_app_string (a b : string) :
  String.length (a ++ b) = String.length a + String.length b.
Proof.
  induction a as [|c a IH]; [reflexivity|].
  rewrite append_cons. simpl. now rewrite IH.
Qed.

Lemma length_sliceTo : forall n s, String.length (sliceTo n s) = Nat.min n (String.length s).
Proof.
  induction n as [|n IH]; intros [|c s]; simpl; try reflexivity. now rewrite IH.
Qed.

Lemma length_sliceFrom : forall n s, String.length (sliceFrom n s) = String.length s - n.
Proof.
  induction n as [|n IH]; intros [|c s]; simpl; try reflexivity. now rewrite IH.
Qed.

Lemma sliceTo_sliceFrom : forall n s, sliceTo n s ++ sliceFrom n s = s.
Proof.
  induction n as [|n IH]; intros [|c s]; simpl; try reflexivity.
  rewrite append_cons. now rewrite IH.
Qed.

Lemma sliceFrom_add : forall n m s, sliceFrom n (sliceFrom m s) = sliceFrom (m + n) s.
Proof.
  intros n m. revert n. induction m as [|m IH]; intros n s.
  - destruct s; reflexivity.
  - destruct s as [|c s]; [destruct n; reflexivity|]. simpl. apply IH.
Qed.

(** A string longer than [n + m] splits into its first [n] characters,
    a middle, and its last [m] characters. *)
Lemma slice_split (n m : nat) (s : string) :
  n + m <= String.length s ->
  exists mid, s = sliceTo n s ++ mid ++ sliceLast m s
              /\ String.length mid = String.length s - (n + m).
Proof.
  intros H. exists (sliceTo (String.length s - (n + m)) (sliceFrom n s)).
  split.
  - unfold sliceLast.
    replace (String.length s - m) with (n + (String.length s - (n + m))) by lia.
    rewrite <- sliceFrom_add, sliceTo_sliceFrom, sliceTo_sliceFrom. reflexivity.
  - rewrite length_sliceTo, length_sliceFrom. lia.
Qed.

End SliceFacts.

(** X13.  [truncateAddress] returns at most 12 characters and is
    idempotent; an address of more than 12 characters is shown as its
    first four characters, three dots and its last four characters, 11
    characters in all. *)
Theorem X13_truncateAddress (addr : string) :
  String.length (Header.truncateAddress addr) <= 12
  /\ Header.truncateAddress (Header.truncateAddress addr) = Header.truncateAddress addr
  /\ (12 < String.length addr ->
      exists first middle final,
        addr = first ++ middle ++ final
        /\ String.length first = 4 /\ String.length final = 4
        /\ Header.truncateAddress addr = first ++ "..." ++ final).
Proof.
  assert (Hlen : String.length (Header.truncateAddress addr) <= 12).
  { unfold Header.truncateAddress.
    destruct (String.length addr <=? 12)%nat eqn:Hl; [now apply Nat.leb_le in Hl|].
    apply Nat.leb_gt in Hl.
    rewrite !length_app_string, length_sliceTo. unfold JsMore.sliceLast.
    rewrite length_sliceFrom. change (String.length "...") with 3. lia. }
  split_and!.
  - exact Hlen.
  - unfold Header.truncateAddress at 1.
    apply Nat.leb_le in Hlen. now rewrite Hlen.
  - intros Hlong. unfold Header.truncateAddress.
    destruct (String.length addr <=? 12)%nat eqn:Hl; [apply Nat.leb_le in Hl; lia|].
    destruct (slice_split 4 4 addr) as (mid & Hsplit & _); [lia|].
    exists (JsMore.sliceTo 4 addr), mid, (JsMore.sliceLast 4 addr).
    split_and!; [exact Hsplit| | |reflexivity].
    + rewrite length_sliceTo. lia.
    + unfold JsMore.sliceLast. rewrite length_sliceFrom. lia.
Qed.

(** ** The home page *)
Section HomeFacts.
Import Js JsMore Home.

Lemma addLog_logs (env : Env) (m : string) (p : Page) :
  logs (addLog env m p)
  = {| time := clock env (clockReads p); msg := m |} :: take 49 (logs p).
Proof. reflexivity. Qed.

Lemma addLog_bounded (env : Env) (m : string) (p : Page) :
  List.length (logs (addLog env m p)) <= 50.
Proof. rewrite addLog_logs. cbn [List.length]. rewrite length_take. lia. Qed.

Lemma logBounded_addLog env m p : logBounded (addLog env m p).
Proof. apply addLog_bounded. Qed.

Lemma logBounded_innerCatch env e p : logBounded (innerCatch env e p).
Proof. apply addLog_bounded. Qed.

Lemma logBounded_outerCatch env p : logBounded (outerCatch env p).
Proof. apply addLog_bounded. Qed.

Lemma logBounded_call env cl p :
  logBounded (fst (handleRefineStrategy_call env cl p)).
Proof.
  unfold handleRefineStrategy_call. case_match; apply addLog_bounded.
Qed.

Lemma logBounded_refined env cl r p :
  logBounded p -> logBounded (fst (handleRefineStrategy_refined env cl r p)).
Proof.
  intros H. unfold handleRefineStrategy_refined, showCooldown.
  repeat case_match; simplify_eq; cbn [fst];
    first [apply addLog_bounded | exact H].
Qed.

Lemma logBounded_signed env r p :
  logBounded (fst (handleRefineStrategy_signed env r p)).
Proof.
  unfold handleRefineStrategy_signed. repeat case_match; apply addLog_bounded.
Qed.

Lemma logBounded_submitted env r p :
  logBounded p -> logBounded (fst (handleRefineStrategy_submitted env r p)).
Proof.
  intros H. unfold handleRefineStrategy_submitted.
  repeat case_match; first [apply addLog_bounded | exact H].
Qed.

(** The segments that end the handler run its [finally] block. *)
Lemma refined_finally env cl r p :
  snd (handleRefineStrategy_refined env cl r p) = None ->
  isRefining (fst (handleRefineStrategy_refined env cl r p)) = false.
Proof.
  unfold handleRefineStrategy_refined. repeat case_match; simpl; congruence.
Qed.

Lemma signed_finally env r p :
  snd (handleRefineStrategy_signed env r p) = None ->
  isRefining (fst (handleRefineStrategy_signed env r p)) = false.
Proof.
  unfold handleRefineStrategy_signed. repeat case_match; simpl; congruence.
Qed.

Lemma submitted_finally env r p :
  snd (handleRefineStrategy_submitted env r p) = None
  /\ isRefining (fst (handleRefineStrategy_submitted env r p)) = false.
Proof.
  unfold handleRefineStrategy_submitted. repeat case_match; simpl; auto.
Qed.

End HomeFacts.

Section HomeTheorems.
Import Js JsMore Home.

(** X14.  The requests of one click on the refine button.  Without an
    authorized wallet and a truthy address there is none, whatever the
    answers would have been, and the message is [Please connect your
    wallet first].  With them the first request is that of the refine
    route, for the address of the wallet and the metric 10; a
    signature is requested only for the decoded envelope of a
    successful answer, the submit route only for a signature extracted
    from the wallet's answer, and the reload only last. *)
Theorem X14_refine_request_order (env : Env) (cl : Closure)
        (refined : Exn + RefineRoute.Body) (signed : Exn + SignedResult)
        (submitted : Exn + SubmitReply) (p : Page) :
  let p' := handleRefineStrategy env cl refined signed submitted p in
  if cl_isAuthorized cl && truthy (cl_address cl)
  then
    exists rest,
      requests p' = (requests p ++ FetchRefine (default "" (cl_address cl)) 10 :: rest)%list
      /\ (rest = [] \/ rest = [ReloadAfter 2000]
          \/ exists result x,
               refined = inr result
               /\ RefineRoute.body_success result = true
               /\ reserialize env (default "" (RefineRoute.body_transactionXDR result)) = inr x
               /\ (rest = [SignTransaction x]
                   \/ exists signedResult y,
                        signed = inr signedResult
                        /\ finalXdr signedResult = Some y
                        /\ isEmpty y = false
                        /\ (rest = [SignTransaction x; FetchSubmit y]
                            \/ rest = [SignTransaction x; FetchSubmit y; ReloadAfter 2000])))
  else
    requests p' = requests p
    /\ isRefining p' = isRefining p
    /\ refineMessage p' = message error "Please connect your wallet first".
Proof.
  cbn zeta. unfold handleRefineStrategy, handleRefineStrategy_call.
  destruct (cl_isAuthorized cl && truthy (cl_address cl)) eqn:Hgo.
  2:{ replace (negb (cl_isAuthorized cl) || negb (truthy (cl_address cl))) with true
        by (destruct (cl_isAuthorized cl), (truthy (cl_address cl)); simpl in *; congruence).
      now split_and!. }
  replace (negb (cl_isAuthorized cl) || negb (truthy (cl_address cl))) with false
    by (destruct (cl_isAuthorized cl), (truthy (cl_address cl)); simpl in *; congruence).
  set (a := default "" (cl_address cl)).
  set (p1 := request (FetchRefine a 10) _).
  assert (H1 : requests p1 = (requests p ++ [FetchRefine a 10])%list) by reflexivity.
  clearbody p1.
  unfold handleRefineStrategy_refined.
  destruct refined as [e|result]; [exists []; split; [cbn; rewrite ?H1, <- ?app_assoc; reflexivity|now left]|].
  destruct (RefineRoute.body_success result) eqn:Hs; cbn [andb].
  2:{ exists []. split; [|now left].
      unfold showCooldown.
      destruct (bool_decide (RefineRoute.body_error result = Some "COOLDOWN_ACTIVE"));
        [destruct (cl_cooldownSeconds cl), (0 <? remainingOf result)%Z|];
        cbn; rewrite ?H1, <- ?app_assoc; reflexivity. }
  destruct (truthy (RefineRoute.body_transactionXDR result)) eqn:Hx.
  2:{ exists [ReloadAfter 2000]. split; [|now right; left].
      cbn. rewrite H1, <- app_assoc. reflexivity. }
  destruct (reserialize env (default "" (RefineRoute.body_transactionXDR result)))
    as [e|x] eqn:Hre; [exists []; split; [cbn; rewrite ?H1, <- ?app_assoc; reflexivity|now left]|].
  set (p2 := request (SignTransaction x) _).
  assert (H2 : requests p2 = (requests p ++ [FetchRefine a 10; SignTransaction x])%list).
  { subst p2. cbn. rewrite H1, <- app_assoc. reflexivity. }
  clearbody p2.
  assert (Hsign : forall rest,
            (rest = [SignTransaction x]
             \/ exists signedResult y,
                  signed = inr signedResult
                  /\ finalXdr signedResult = Some y
                  /\ isEmpty y = false
                  /\ (rest = [SignTransaction x; FetchSubmit y]
                      \/ rest = [SignTransaction x; FetchSubmit y; ReloadAfter 2000])) ->
            rest = [] \/ rest = [ReloadAfter 2000]
            \/ exists result0 x0,
                 @inr Exn RefineRoute.Body result = inr result0
                 /\ RefineRoute.body_success result0 = true
                 /\ reserialize env (default "" (RefineRoute.body_transactionXDR result0))
                    = inr x0
                 /\ (rest = [SignTransaction x0]
                     \/ exists signedResult y,
                          signed = inr signedResult
                          /\ finalXdr signedResult = Some y
                          /\ isEmpty y = false
                          /\ (rest = [SignTransaction x0; FetchSubmit y]
                              \/ rest = [SignTransaction x0; FetchSubmit y;
                                         ReloadAfter 2000]))).
  { intros rest H. right. right. exists result, x. auto. }
  unfold handleRefineStrategy_signed.
  destruct signed as [e|signedResult];
    [exists [SignTransaction x]; split; [cbn; rewrite ?H2, <- ?app_assoc; reflexivity|apply Hsign; now left]|].
  destruct (finalXdr signedResult) as [y|] eqn:Hy;
    [|exists [SignTransaction x]; split; [cbn; rewrite ?H2, <- ?app_assoc; reflexivity|apply Hsign; now left]].
  destruct (isEmpty y) eqn:He;
    [exists [SignTransaction x]; split; [cbn; rewrite ?H2, <- ?app_assoc; reflexivity|apply Hsign; now left]|].
  set (p3 := request (FetchSubmit y) _).
  assert (H3 : requests p3
               = (requests p ++ [FetchRefine a 10; SignTransaction x; FetchSubmit y])%list).
  { subst p3. cbn. rewrite H2, <- app_assoc. reflexivity. }
  clearbody p3.
  unfold handleRefineStrategy_submitted.
  destruct submitted as [e|reply].
  { exists [SignTransaction x; FetchSubmit y]. split; [cbn; rewrite ?H3, <- ?app_assoc; reflexivity|].
    apply Hsign. right. exists signedResult, y. auto. }
  destruct (ok reply && reply_success reply).
  - exists [SignTransaction x; FetchSubmit y; ReloadAfter 2000]. split.
    + cbn. rewrite H3, <- app_assoc. reflexivity.
    + apply Hsign. right. exists signedResult, y. auto.
  - exists [SignTransaction x; FetchSubmit y]. split; [cbn; rewrite ?H3, <- ?app_assoc; reflexivity|].
    apply Hsign. right. exists signedResult, y. auto.
Qed.

(** X15.  Once the click has passed the wallet test, [isRefining] is
    false again when the handler ends, however each awaited call
    settles; a handler that is still running is waiting for the next
    of at most three answers. *)
Theorem X15_refining_flag_is_reset (env : Env) (cl : Closure)
        (refined : Exn + RefineRoute.Body) (signed : Exn + SignedResult)
        (submitted : Exn + SubmitReply) (p p1 p2 p3 : Page) :
  (snd (handleRefineStrategy_refined env cl refined p1) = None ->
   isRefining (fst (handleRefineStrategy_refined env cl refined p1)) = false)
  /\ (snd (handleRefineStrategy_signed env signed p2) = None ->
      isRefining (fst (handleRefineStrategy_signed env signed p2)) = false)
  /\ snd (handleRefineStrategy_submitted env submitted p3) = None
  /\ isRefining (fst (handleRefineStrategy_submitted env submitted p3)) = false
  /\ (snd (handleRefineStrategy_call env cl p) <> None ->
      isRefining (handleRefineStrategy env cl refined signed submitted p) = false).
Proof.
  split_and!.
  - apply refined_finally.
  - apply signed_finally.
  - apply submitted_finally.
  - apply submitted_finally.
  - intros Hgo. unfold handleRefineStrategy.
    destruct (handleRefineStrategy_call env cl p) as [q1 [a1|]]; [|now simpl in Hgo].
    pose proof (refined_finally env cl refined q1) as H1.
    destruct (handleRefineStrategy_refined env cl refined q1) as [q2 [a2|]]; [|now apply H1].
    pose proof (signed_finally env signed q2) as H2.
    destruct (handleRefineStrategy_signed env signed q2) as [q3 [a3|]]; [|now apply H2].
    apply submitted_finally.
Qed.

(** X18.  The system log never holds more than 50 entries: [addLog]
    puts the new entry first and keeps the 49 latest of the others,
    and every part of [handleRefineStrategy] leaves a log of at most 50
    entries when it started from one. *)
Theorem X18_log_keeps_latest_50 (env : Env) (cl : Closure)
        (refined : Exn + RefineRoute.Body) (signed : Exn + SignedResult)
        (submitted : Exn + SubmitReply) (m : string) (p : Page) :
  List.length (logs p) <= 50 ->
  logs (addLog env m p)
  = {| time := clock env (clockReads p); msg := m |} :: take 49 (logs p)
  /\ List.length (logs (addLog env m p)) = Nat.min 50 (S (List.length (logs p)))
  /\ List.length (logs (fst (handleRefineStrategy_call env cl p))) <= 50
  /\ List.length (logs (fst (handleRefineStrategy_refined env cl refined p))) <= 50
  /\ List.length (logs (fst (handleRefineStrategy_signed env signed p))) <= 50
  /\ List.length (logs (fst (handleRefineStrategy_submitted env submitted p))) <= 50
  /\ List.length (logs (handleRefineStrategy env cl refined signed submitted p)) <= 50.
Proof.
  intros H. split_and!.
  - reflexivity.
  - rewrite addLog_logs. cbn [List.length]. rewrite length_take. lia.
  - apply logBounded_call.
  - now apply logBounded_refined.
  - apply logBounded_signed.
  - now apply logBounded_submitted.
  - unfold handleRefineStrategy.
    pose proof (logBounded_call env cl p) as H1.
    destruct (handleRefineStrategy_call env cl p) as [q1 [a1|]]; [|exact H1].
    pose proof (logBounded_refined env cl refined q1 H1) as H2.
    destruct (handleRefineStrategy_refined env cl refined q1) as [q2 [a2|]]; [|exact H2].
    pose proof (logBounded_signed env signed q2) as H3.
    destruct (handleRefineStrategy_signed env signed q2) as [q3 [a3|]]; [|exact H3].
    now apply logBounded_submitted.
Qed.

Lemma X18_witness :
  List.length (logs initialPage) <= 50
  /\ List.length
       (logs (handleRefineStrategy sampleEnv connectedClosure
                (inl (Error "Failed to fetch")) (inl (Error "unused")) (inl (Error "unused"))
                initialPage)) <= 50.
Proof.
  split; [simpl; lia|].
  apply (X18_log_keeps_latest_50 sampleEnv connectedClosure
           (inl (Error "Failed to fetch")) (inl (Error "unused")) (inl (Error "unused"))
           "" initialPage).
  simpl. lia.
Defined.

(** X16.  Whenever [POST /api/portfolio/refine] answers with the error
    [COOLDOWN_ACTIVE], the page ends the handler with a countdown of a
    positive number of seconds and makes no further request: the
    figure of the answer when that is positive, and 2 when it is zero,
    negative or missing. *)
Theorem X16_cooldown_answer_starts_countdown (w : StellarService.World)
        (request : Exn + RefineRoute.RequestBody)
        (log log' : list StellarService.Interaction) (resp : RefineRoute.Response)
        (env : Env) (cl : Closure) (p : Page) :
  RefineRoute.POST w request log = (inr resp, log') ->
  RefineRoute.body_error (RefineRoute.body resp) = Some "COOLDOWN_ACTIVE" ->
  let r := handleRefineStrategy_refined env cl (inr (RefineRoute.body resp)) p in
  let remaining := default 0%Z (RefineRoute.body_cooldownRemaining (RefineRoute.body resp)) in
  let n := if (0 <? remaining)%Z then remaining else 2%Z in
  (0 < n)%Z
  /\ snd r = None
  /\ cooldownSeconds (fst r) = Some n
  /\ (exists t, refineMessage (fst r)
                = Some {| type := cooldown; text := t; countdown := Some n |})
  /\ isRefining (fst r) = false
  /\ requests (fst r) = requests p.
Proof.
  intros Hpost Herr. cbn zeta.
  assert (Hs : RefineRoute.body_success (RefineRoute.body resp) = false).
  { destruct (RefineRoute.body_success (RefineRoute.body resp)) eqn:Hs; [|reflexivity].
    rewrite (refine_route_success_no_error w request log log' resp Hpost Hs) in Herr.
    discriminate. }
  unfold handleRefineStrategy_refined, showCooldown, remainingOf.
  rewrite Hs, Herr. cbn [andb]. rewrite bool_decide_eq_true_2 by reflexivity.
  destruct (0 <? default 0%Z (RefineRoute.body_cooldownRemaining (RefineRoute.body resp)))%Z
    eqn:Hpos.
  - apply Z.ltb_lt in Hpos. destruct (cl_cooldownSeconds cl); cbn; split_and!; eauto.
  - destruct (cl_cooldownSeconds cl); cbn; split_and!; eauto; lia.
Qed.

Lemma X16_witness :
  let w := Samples.world (Soroban.scvU32 1800) (Soroban.SimSuccess None) in
  exists resp log',
    RefineRoute.POST w Samples.refineRequest [] = (inr resp, log')
    /\ RefineRoute.body_error (RefineRoute.body resp) = Some "COOLDOWN_ACTIVE"
    /\ cooldownSeconds
         (fst (handleRefineStrategy_refined sampleEnv connectedClosure
                 (inr (RefineRoute.body resp)) initialPage)) = Some 1800%Z.
Proof.
  cbn zeta. eexists _, _. split; [vm_compute; reflexivity|]. split; [reflexivity|].
  refine (proj1 (proj2 (proj2
            (X16_cooldown_answer_starts_countdown
               (Samples.world (Soroban.scvU32 1800) (Soroban.SimSuccess None))
               Samples.refineRequest [] _ _ sampleEnv connectedClosure initialPage _ _)))).
  - vm_compute. reflexivity.
  - reflexivity.
Defined.

End HomeTheorems.

Section SignatureFacts.
Import Js JsMore Home.

(** The body the page posts carries the envelope under the spelling
    the route falls back to. *)
Lemma submitBody_accepted (x : string) :
  isEmpty x = false -> Requests.signedXdrOf (inr (submitBody x)) = Some x.
Proof. intros H. simpl. now rewrite H. Qed.

Lemma list_neq_snoc {A} (l : list A) (x : A) : l <> (l ++ [x])%list.
Proof.
  intros H. apply (f_equal (@List.length A)) in H.
  rewrite length_app in H. simpl in H. lia.
Qed.

End SignatureFacts.

Section SignatureTheorems.
Import Js JsMore Home.

(** X17.  From the wallet's answer to the network.  When no signature
    can be extracted from the answer (no string, or no truthy
    [signedTxXdr], [signedXdr] or [signedXDR]), the handler ends with
    the error [Wallet returned an empty signature] and requests
    nothing.  Otherwise it posts the extracted envelope, which passes
    the test of the submit route; and when the answer of that route
    comes back, the page reports success and schedules the reload
    exactly when the route has sent the trimmed envelope to the
    network and the server answered with a status other than
    [ERROR]. *)
Theorem X17_signature_reaches_network (env : Env) (sw : SubmitRoute.SubmitWorld)
        (statusText : string) (signedResult : SignedResult) (p : Page)
        (sent : list string) :
  let r := handleRefineStrategy_signed env (inr signedResult) p in
  match snd r with
  | None =>
      truthy (finalXdr signedResult) = false
      /\ requests (fst r) = requests p
      /\ refineMessage (fst r) = message error "Wallet returned an empty signature"
      /\ isRefining (fst r) = false
  | Some _ =>
      exists x,
        finalXdr signedResult = Some x
        /\ requests (fst r) = (requests p ++ [FetchSubmit x])%list
        /\ Requests.signedXdrOf (inr (submitBody x)) = Some x
        /\ let resp := fst (SubmitRoute.POST sw (inr (submitBody x)) sent) in
           let sent' := snd (SubmitRoute.POST sw (inr (submitBody x)) sent) in
           let p' := fst (handleRefineStrategy_submitted env
                            (inr (replyOf statusText resp)) (fst r)) in
           let accepted :=
             exists result,
               sent' = (sent ++ [trim x])%list
               /\ SubmitRoute.sendTransaction sw (List.length sent) (trim x) = inr result
               /\ String.eqb (SubmitRoute.send_status result) "ERROR" = false in
           (refineMessage p'
            = message success "Strategy refined successfully! Transaction verified."
            <-> accepted)
           /\ (requests p' = (requests (fst r) ++ [ReloadAfter 2000])%list <-> accepted)
           /\ (~ accepted ->
               requests p' = requests (fst r)
               /\ exists t, refineMessage p' = message error t)
           /\ isRefining p' = false
  end.
Proof.
  cbn zeta. unfold handleRefineStrategy_signed.
  destruct (finalXdr signedResult) as [x|] eqn:Hx; [|cbn; auto].
  destruct (isEmpty x) eqn:He; [cbn; rewrite He; auto|].
  cbn [fst snd]. exists x. split; [reflexivity|]. split; [reflexivity|].
  split; [now apply submitBody_accepted|].
  rewrite (POST_accepted sw (inr (submitBody x)) x sent (submitBody_accepted x He)).
  unfold SubmitRoute.submitSignedTransaction.
  set (q := setRefineMessage _ _).
  assert (Hlen : forall s : string, sent <> (sent ++ [s])%list)
    by (intros s; apply list_neq_snoc).
  destruct (isEmpty (trim x)) eqn:Ht.
  { cbn. split_and!; try reflexivity.
    - split; [discriminate|]. intros (r & H & _). now apply Hlen in H.
    - split; [|intros (r & H & _); now apply Hlen in H].
      intros H. now apply list_neq_snoc in H.
    - intros _. split; [reflexivity|]. eauto. }
  destruct (fst (StellarService.getSorobanServer (SubmitRoute.serviceWorld sw) [])) as [e|[]].
  { cbn. split_and!; try reflexivity.
    - split; [discriminate|]. intros (r & H & _). now apply Hlen in H.
    - split; [|intros (r & H & _); now apply Hlen in H].
      intros H. now apply list_neq_snoc in H.
    - intros _. split; [reflexivity|]. eauto. }
  destruct (SubmitRoute.fromXDR sw (trim x)) as [e|].
  { cbn. split_and!; try reflexivity.
    - split; [discriminate|]. intros (r & H & _). now apply Hlen in H.
    - split; [|intros (r & H & _); now apply Hlen in H].
      intros H. now apply list_neq_snoc in H.
    - intros _. split; [reflexivity|]. eauto. }
  destruct (SubmitRoute.sendTransaction sw (List.length sent) (trim x)) as [e|result] eqn:Hsend.
  { cbn. split_and!; try reflexivity.
    - split; [discriminate|]. intros (r & _ & H & _). discriminate.
    - split; [|intros (r & _ & H & _); discriminate].
      intros H. now apply list_neq_snoc in H.
    - intros _. split; [reflexivity|]. eauto. }
  destruct (String.eqb (SubmitRoute.send_status result) "ERROR") eqn:Hst.
  - cbn. split_and!; try reflexivity.
    + split; [discriminate|]. intros (r & _ & H & Hr). injection H as <-. congruence.
    + split; [|intros (r & _ & H & Hr); injection H as <-; congruence].
      intros H. now apply list_neq_snoc in H.
    + intros _. split; [reflexivity|]. eauto.
  - cbn. split_and!; try reflexivity.
    + split; [|reflexivity]. intros _. exists result. auto.
    + split; [|reflexivity]. intros _. exists result. auto.
    + intros Hno. exfalso. apply Hno. exists result. auto.
Qed.

End SignatureTheorems.

(** ** The wallet controller: the handles are live *)
Section WalletLive.
Import Js WalletContext WalletInvariants.

Hint Resolve HandlerInv_setState HandlerInv_emit HandlerInv_setLocalStorage
  HandlerInv_setIsClientReady HandlerInv_await HandlerInv_resumed
  HandlerInv_stopPolling HandlerInv_startPolling HandlerInv_returnTo
  HandlerInv_fetchBalance auth_withBalance auth_withConnecting auth_withConnectError
  auth_withLocked auth_withWalletLocked auth_withAddressRetrieved auth_withRestored
  auth_initialState : wallet.

Lemma Live_setState f c : Live c -> Live (setState f c).
Proof. exact id. Qed.
Lemma Live_emit o c : Live c -> Live (emit o c).
Proof. exact id. Qed.
Lemma Live_setLocalStorage s c : Live c -> Live (setLocalStorage s c).
Proof. exact id. Qed.
Lemma Live_setIsClientReady b c : Live c -> Live (setIsClientReady b c).
Proof. exact id. Qed.
Lemma Live_setPending p c : Live c -> Live (setPending p c).
Proof. exact id. Qed.
Lemma Live_await p c : Live c -> Live (await p c).
Proof. exact id. Qed.
Lemma Live_returnTo k c : Live c -> Live (returnTo k c).
Proof. destruct k; exact id. Qed.

Lemma Live_fetchBalance pk k c : Live c -> Live (fetchBalance pk k c).
Proof.
  intros H. unfold fetchBalance.
  repeat case_match; auto using Live_returnTo, Live_emit, Live_await.
Qed.

(** Clearing the polling interval leaves the monitor's. *)
Lemma Live_stopPolling c : Live c -> Live (stopPolling c).
Proof.
  intros [Href Hmon]. unfold stopPolling.
  destruct (pollingIntervalRef c) as [old|] eqn:Hold; [|now split].
  split.
  - intros id Hid. discriminate.
  - intros m Hm. simpl in Hm. destruct (Hmon m Hm) as [captured Hl].
    exists captured. simpl. rewrite lookup_delete_ne; [exact Hl|].
    intros <-. rewrite (Href old Hold) in Hl. discriminate.
Qed.

Lemma Live_startPolling a c : HandlerInv a c -> Live c -> Live (startPolling c).
Proof.
  intros (_ & _ & _ & _ & [Hfresh _] & _) [Href Hmon]. unfold startPolling.
  set (c1 := match pollingIntervalRef c with
             | Some old => clearInterval old c
             | None => c
             end).
  assert (Hnext : nextTimer c1 = nextTimer c)
    by (subst c1; destruct (pollingIntervalRef c); reflexivity).
  assert (Hm1 : monitorInterval c1 = monitorInterval c)
    by (subst c1; destruct (pollingIntervalRef c); reflexivity).
  assert (Hkeep : forall m captured,
            monitorInterval c = Some m ->
            timers c !! m = Some {| callback := checkConnection captured; period := 2000 |} ->
            timers c1 !! m = Some {| callback := checkConnection captured; period := 2000 |}).
  { intros m captured Hm Hl. subst c1.
    destruct (pollingIntervalRef c) as [old|] eqn:Hold; [|exact Hl].
    simpl. rewrite lookup_delete_ne; [exact Hl|].
    intros <-. rewrite (Href old Hold) in Hl. discriminate. }
  clearbody c1. split.
  - intros id Hid. simpl in Hid |- *. injection Hid as <-. apply lookup_insert_eq.
  - intros m Hm. simpl in Hm |- *. rewrite Hm1 in Hm.
    destruct (Hmon m Hm) as [captured Hl]. exists captured.
    rewrite lookup_insert_ne; [now apply Hkeep|].
    rewrite Hnext. intros <-. rewrite Hfresh in Hl by lia. discriminate.
Qed.

Hint Resolve Live_setState Live_emit Live_setLocalStorage Live_setIsClientReady
  Live_setPending Live_await Live_returnTo Live_fetchBalance Live_stopPolling
  Live_startPolling : wallet.

Lemma resume_Live a p r c c' :
  HandlerInv a c -> Live c -> resume p r c = Some c' -> Live c'.
Proof.
  intros Hinv H Hr. destruct p; simpl in Hr.
  - unfold connect_isConnected_settled, connect_catch in Hr.
    repeat case_match; simplify_eq; eauto 10 with wallet.
  - unfold connect_requestAccess_settled, connect_catch in Hr.
    repeat case_match; simplify_eq; eauto 10 with wallet.
  - unfold pollForAddress_settled in Hr. fold (stopPolling c) in Hr.
    repeat case_match; simplify_eq; eauto 10 with wallet.
  - unfold fetchBalance_settled in Hr.
    repeat case_match; simplify_eq; eauto 10 with wallet.
  - unfold checkConnection_isConnected_settled in Hr.
    repeat case_match; simplify_eq; eauto 10 with wallet.
  - unfold checkConnection_getAddress_settled in Hr.
    repeat case_match; simplify_eq; eauto 10 with wallet.
  - unfold autoReconnect_settled in Hr.
    repeat case_match; simplify_eq; eauto 10 with wallet.
Qed.

Lemma handle_Live a c ev : HandlerInv a c -> Live c -> Live (handle c ev).
Proof.
  intros Hinv H. destruct ev; simpl.
  - destruct (isClientReady c); [assumption|].
    unfold autoReconnect. repeat case_match; eauto with wallet.
  - unfold connect. eauto with wallet.
  - unfold refreshConnection, connect. eauto with wallet.
  - unfold disconnect. eauto 10 with wallet.
  - eauto with wallet.
  - destruct (timers c !! id) as [[[|captured] ms]|] eqn:Hl; [| |assumption].
    + unfold pollForAddress_call. eauto with wallet.
    + unfold checkConnection_call. eauto with wallet.
  - destruct (pending c !! n) as [p|] eqn:Hp; [|assumption].
    destruct (resume p r _) as [c'|] eqn:Hr; [|assumption].
    eapply resume_Live; [| |exact Hr]; eauto with wallet.
Qed.

(** The handlers leave the handle of the monitor effect alone. *)
Lemma stopPolling_monitorInterval c :
  monitorInterval (stopPolling c) = monitorInterval c.
Proof. unfold stopPolling. now destruct (pollingIntervalRef c). Qed.

Lemma startPolling_monitorInterval c :
  monitorInterval (startPolling c) = monitorInterval c.
Proof. unfold startPolling. simpl. destruct (pollingIntervalRef c); reflexivity. Qed.

Lemma fetchBalance_monitorInterval pk k c :
  monitorInterval (fetchBalance pk k c) = monitorInterval c.
Proof. unfold fetchBalance. repeat case_match; destruct k; reflexivity. Qed.

Lemma resume_monitorInterval p r c c' :
  resume p r c = Some c' -> monitorInterval c' = monitorInterval c.
Proof.
  intros Hr. destruct p; simpl in Hr.
  - unfold connect_isConnected_settled, connect_catch in Hr.
    repeat case_match; simplify_eq; simpl; rewrite ?stopPolling_monitorInterval; reflexivity.
  - unfold connect_requestAccess_settled, connect_catch in Hr.
    repeat case_match; simplify_eq;
      rewrite ?startPolling_monitorInterval; simpl;
      rewrite ?stopPolling_monitorInterval; reflexivity.
  - unfold pollForAddress_settled in Hr. fold (stopPolling c) in Hr.
    repeat case_match; simplify_eq; try reflexivity.
    rewrite fetchBalance_monitorInterval. simpl. apply stopPolling_monitorInterval.
  - unfold fetchBalance_settled in Hr.
    repeat case_match; simplify_eq; destruct thenPersist; reflexivity.
  - unfold checkConnection_isConnected_settled in Hr.
    repeat case_match; simplify_eq; reflexivity.
  - unfold checkConnection_getAddress_settled in Hr.
    repeat case_match; simplify_eq; reflexivity.
  - unfold autoReconnect_settled in Hr.
    repeat case_match; simplify_eq;
      rewrite ?fetchBalance_monitorInterval, ?startPolling_monitorInterval; reflexivity.
Qed.

Lemma handle_monitorInterval c ev :
  monitorInterval (handle c ev) = monitorInterval c.
Proof.
  destruct ev; simpl.
  - destruct (isClientReady c); [reflexivity|]. unfold autoReconnect.
    repeat case_match; reflexivity.
  - reflexivity.
  - reflexivity.
  - unfold disconnect. simpl. apply stopPolling_monitorInterval.
  - apply fetchBalance_monitorInterval.
  - repeat case_match; reflexivity.
  - destruct (pending c !! n) as [p|]; [|reflexivity].
    destruct (resume p r _) as [c'|] eqn:Hr; [|reflexivity].
    now apply resume_monitorInterval in Hr.
Qed.

Lemma monitorEffect_Live a previous c :
  HandlerInv a c -> Live c -> Live (monitorEffect previous c).
Proof.
  intros (_ & _ & _ & _ & [Hfresh Hlt] & _) [Href Hmon]. unfold monitorEffect.
  destruct (bool_decide (previous = deps c)); [now split|].
  set (c1 := match monitorInterval c with
             | Some id => clearInterval id c
             | None => c
             end).
  assert (Hnext : nextTimer c1 = nextTimer c)
    by (subst c1; destruct (monitorInterval c); reflexivity).
  assert (Hr1 : pollingIntervalRef c1 = pollingIntervalRef c)
    by (subst c1; destruct (monitorInterval c); reflexivity).
  assert (Hkeep : forall id,
            pollingIntervalRef c = Some id ->
            timers c1 !! id = Some {| callback := pollForAddress; period := 1000 |}).
  { intros id Hid. pose proof (Href id Hid) as Hl. subst c1.
    destruct (monitorInterval c) as [m|] eqn:Hm; [|exact Hl].
    simpl. rewrite lookup_delete_ne; [exact Hl|].
    intros <-. destruct (Hmon m Hm) as [captured Hl']. rewrite Hl in Hl'. discriminate. }
  clearbody c1.
  destruct (isClientReady c1 && truthy (address (state c1))); split.
  - intros id Hid. simpl in Hid |- *. rewrite Hr1 in Hid.
    rewrite lookup_insert_ne; [now apply Hkeep|].
    rewrite Hnext. intros <-. apply Hlt in Hid. lia.
  - intros m Hm. simpl in Hm |- *. injection Hm as <-.
    eexists. apply lookup_insert_eq.
  - intros id Hid. simpl in Hid |- *. rewrite Hr1 in Hid. now apply Hkeep.
  - intros m Hm. discriminate.
Qed.

Lemma monitorEffect_armed previous c :
  (previous = deps c -> monitorArmed c) -> monitorArmed (monitorEffect previous c).
Proof.
  intros Hsame. unfold monitorEffect.
  destruct (bool_decide (previous = deps c)) eqn:Hd.
  { apply bool_decide_eq_true in Hd. auto. }
  assert (Hs : forall c1 : Controller,
            c1 = match monitorInterval c with
                 | Some id => clearInterval id c
                 | None => c
                 end ->
            isClientReady c1 = isClientReady c /\ state c1 = state c).
  { intros c1 ->. destruct (monitorInterval c); split; reflexivity. }
  destruct (Hs _ eq_refl) as [Hready Hstate].
  destruct (isClientReady _ && truthy (address (state _))) eqn:Hgo;
    unfold monitorArmed; simpl; rewrite Hready, Hstate; rewrite Hready, Hstate in Hgo;
    rewrite Hgo.
  - split; [reflexivity|]. intros _. eexists. reflexivity.
  - split; [intros [x Hx]; discriminate | discriminate].
Qed.

Lemma step_Armed c ev : Armed c -> Armed (step c ev).
Proof.
  intros (Hinv & Hlive & Harm). split_and!.
  - now apply step_Inv.
  - unfold step. eapply monitorEffect_Live.
    + apply handle_HandlerInv. exact Hinv.
    + eapply handle_Live; eassumption.
  - unfold step. apply monitorEffect_armed. intros Hd.
    unfold monitorArmed in *. rewrite handle_monitorInterval.
    unfold deps in Hd. injection Hd as Hr Ha. now rewrite <- Hr, <- Ha.
Qed.

Lemma initial_Armed stored : Armed (initial stored).
Proof.
  split_and!.
  - apply initial_Inv.
  - split; intros id H; discriminate.
  - unfold monitorArmed. simpl. split; [intros [x Hx]; discriminate | discriminate].
Qed.

Lemma fold_step_Armed evs : forall c, Armed c -> Armed (fold_left step evs c).
Proof.
  induction evs as [|ev evs IH]; intros c H; simpl; [assumption|].
  apply IH. now apply step_Armed.
Qed.

Lemma run_Armed stored evs : Armed (run stored evs).
Proof. apply fold_step_Armed, initial_Armed. Qed.

End WalletLive.

(** X20.  In every reachable state of the provider the monitor
    interval is alive exactly when the provider is ready and has a
    truthy address: there is then one monitor interval and no other,
    it runs every 2000 ms and its callback closes over the address of
    the current state. *)
Theorem X20_monitor_alive_iff_address (stored : option SavedConnection) (evs : list Event) :
  let c := run stored evs in
  ((isClientReady c = true /\ truthy (address (state c)) = true)
   <-> exists id,
         timers c !! id
         = Some {| callback := checkConnection (address (state c)); period := 2000 |})
  /\ (forall id id', isMonitorTimer c id -> isMonitorTimer c id' -> id = id').
Proof.
  cbn zeta. destruct (run_Armed stored evs) as (Hinv & [_ Hmon] & Harm).
  destruct Hinv as (_ & _ & Hown & Hcap & _). split; [split|].
  - intros [Hr Ha]. destruct Harm as [_ Harm].
    destruct Harm as [m Hm]; [now rewrite Hr, Ha|].
    destruct (Hmon m Hm) as [captured Hl]. exists m.
    now rewrite <- (Hcap m captured _ Hl).
  - intros [id Hl]. apply Hown in Hl as (Hm & _ & _).
    apply andb_true_iff. apply Harm. now exists id.
  - intros id id' (cap & ms & Hl) (cap' & ms' & Hl').
    apply Hown in Hl as (Hm & _). apply Hown in Hl' as (Hm' & _). congruence.
Qed.

(** X21.  In every reachable state [pollingIntervalRef] holds a handle
    exactly when a polling interval is alive, and the handle is that
    of the interval, which runs every 1000 ms: the reference never
    holds the handle of an interval that was cleared. *)
Theorem X21_polling_ref_is_live (stored : option SavedConnection) (evs : list Event)
        (id : nat) :
  let c := run stored evs in
  (pollingIntervalRef c = Some id <-> isPollingTimer c id)
  /\ (isPollingTimer c id ->
      timers c !! id = Some {| callback := pollForAddress; period := 1000 |}).
Proof.
  cbn zeta. destruct (run_Armed stored evs) as (Hinv & [Href _] & _).
  destruct Hinv as (_ & Hpoll & _). split; [split|].
  - intros H. exists 1000%Z. now apply Href.
  - intros [ms Hl]. now apply Hpoll in Hl.
  - intros [ms Hl]. apply Hpoll in Hl as [H _]. now apply Href.
Qed.

(** ** The wallet controller: the keys it holds *)
Create HintDb keys.

Section WalletKeys.
Import Js WalletContext WalletInvariants.

Variable V : string -> Prop.
Hypothesis V_valid : forall a, validKey a = true -> V a.

Lemma orNull_Some (a : option string) (s : string) :
  orNull a = Some s -> a = Some s /\ isEmpty s = false.
Proof.
  unfold orNull. destruct a as [x|]; simpl; [|discriminate].
  destruct (isEmpty x) eqn:He; simpl; [discriminate|].
  intros H. injection H as <-. auto.
Qed.

Lemma KeysIn_setState_keep f c :
  (forall s, address (f s) = address s /\ isAuthorized (f s) = isAuthorized s) ->
  KeysIn V c -> KeysIn V (setState f c).
Proof.
  intros Hf (H1 & H2 & H3 & H4). destruct (Hf (state c)) as [Ha Hi].
  split_and!; try assumption.
  - unfold authorizedIffAddress in *. simpl. now rewrite Ha, Hi.
  - intros a. simpl. rewrite Ha. apply H2.
Qed.

Lemma KeysIn_retrieved pk c :
  V pk -> KeysIn V c -> KeysIn V (setState (withAddressRetrieved pk) c).
Proof.
  intros Hv (H1 & H2 & H3 & H4). split_and!; try assumption.
  - split; [discriminate|reflexivity].
  - intros a Ha. simpl in Ha. now injection Ha as <-.
Qed.

Lemma KeysIn_restored a c :
  V a -> KeysIn V c -> KeysIn V (setState (withRestored (Some a)) c).
Proof.
  intros Hv (H1 & H2 & H3 & H4). split_and!; try assumption.
  - split; [discriminate|reflexivity].
  - intros b Hb. simpl in Hb. now injection Hb as <-.
Qed.

Lemma KeysIn_reset c : KeysIn V c -> KeysIn V (setState (fun _ => initialState) c).
Proof.
  intros (H1 & H2 & H3 & H4). split_and!; try assumption.
  - split; [discriminate|]. intros H. now contradiction H.
  - intros a Ha. discriminate.
Qed.

Lemma KeysIn_emit o c : KeysIn V c -> KeysIn V (emit o c).
Proof. exact id. Qed.

Lemma KeysIn_setIsClientReady b c : KeysIn V c -> KeysIn V (setIsClientReady b c).
Proof. exact id. Qed.

Lemma KeysIn_await p c : pendingKeysIn V p -> KeysIn V c -> KeysIn V (await p c).
Proof.
  intros Hp (H1 & H2 & H3 & H4). split_and!; try assumption.
  simpl. apply Forall_app. split; [assumption | repeat constructor; assumption].
Qed.

Lemma KeysIn_resumed n c : KeysIn V c -> KeysIn V (setPending (delete n (pending c)) c).
Proof.
  intros (H1 & H2 & H3 & H4). split_and!; try assumption.
  simpl. now apply Forall_delete.
Qed.

Lemma KeysIn_stopPolling c : KeysIn V c -> KeysIn V (stopPolling c).
Proof. unfold stopPolling. destruct (pollingIntervalRef c); exact id. Qed.

Lemma KeysIn_startPolling c : KeysIn V c -> KeysIn V (startPolling c).
Proof.
  intros H. unfold startPolling.
  assert (H' : KeysIn V match pollingIntervalRef c with
                        | Some id => clearInterval id c
                        | None => c
                        end) by (destruct (pollingIntervalRef c); exact H).
  revert H'. generalize (match pollingIntervalRef c with
                         | Some id => clearInterval id c
                         | None => c
                         end). intros c1 (H1 & H2 & H3 & H4).
  split_and!; try assumption.
  simpl. apply Forall_app. split; [assumption | repeat constructor].
Qed.

Lemma KeysIn_clear c : KeysIn V c -> KeysIn V (setLocalStorage None c).
Proof.
  intros (H1 & H2 & H3 & H4). split_and!; try assumption. intros s Hs. discriminate.
Qed.

Lemma KeysIn_returnTo k c :
  pendingKeysIn V (AwaitFetchBalance "" k) -> KeysIn V c -> KeysIn V (returnTo k c).
Proof.
  intros Hk (H1 & H2 & H3 & H4). destruct k as [key|]; [|now split_and!].
  split_and!; try assumption. intros s Hs. simpl in Hs. now injection Hs as <-.
Qed.

Lemma KeysIn_fetchBalance pk k c :
  pendingKeysIn V (AwaitFetchBalance "" k) -> KeysIn V c -> KeysIn V (fetchBalance pk k c).
Proof.
  intros Hk H. unfold fetchBalance.
  repeat case_match; auto using KeysIn_returnTo, KeysIn_emit, KeysIn_await.
Qed.

Lemma KeysIn_withBalance b c : KeysIn V c -> KeysIn V (setState (withBalance b) c).
Proof. apply KeysIn_setState_keep. now split. Qed.
Lemma KeysIn_withConnecting c : KeysIn V c -> KeysIn V (setState withConnecting c).
Proof. apply KeysIn_setState_keep. now split. Qed.
Lemma KeysIn_withConnectError e c : KeysIn V c -> KeysIn V (setState (withConnectError e) c).
Proof. apply KeysIn_setState_keep. now split. Qed.
Lemma KeysIn_withLocked m c : KeysIn V c -> KeysIn V (setState (withLocked m) c).
Proof. apply KeysIn_setState_keep. now split. Qed.
Lemma KeysIn_withWalletLocked c : KeysIn V c -> KeysIn V (setState withWalletLocked c).
Proof. apply KeysIn_setState_keep. now split. Qed.

Hint Resolve KeysIn_retrieved KeysIn_restored KeysIn_reset KeysIn_emit
  KeysIn_setIsClientReady KeysIn_await KeysIn_resumed KeysIn_stopPolling
  KeysIn_startPolling KeysIn_clear KeysIn_returnTo KeysIn_fetchBalance
  KeysIn_withBalance KeysIn_withConnecting KeysIn_withConnectError KeysIn_withLocked
  KeysIn_withWalletLocked : keys.

Lemma resume_KeysIn p r c c' :
  pendingKeysIn V p -> KeysIn V c -> resume p r c = Some c' -> KeysIn V c'.
Proof using V_valid.
  intros Hp H Hr. destruct p; simpl in Hr.
  - unfold connect_isConnected_settled, connect_catch in Hr.
    repeat case_match; simplify_eq; eauto 10 with keys.
  - unfold connect_requestAccess_settled, connect_catch in Hr.
    repeat case_match; simplify_eq; eauto 10 with keys.
  - unfold pollForAddress_settled in Hr. fold (stopPolling c) in Hr.
    repeat case_match; simplify_eq; eauto 10 with keys.
    match goal with H : orNull _ = Some ?pk |- _ =>
      apply orNull_Some in H as [_ Hne];
      assert (Hv : V pk) by (apply V_valid; unfold validKey; rewrite Hne; assumption)
    end.
    apply KeysIn_fetchBalance; [exact Hv|]. eauto with keys.
  - unfold fetchBalance_settled in Hr.
    repeat case_match; simplify_eq; eauto 10 with keys.
  - unfold checkConnection_isConnected_settled in Hr.
    repeat case_match; simplify_eq; eauto 10 with keys.
    all: apply KeysIn_await; [exact I|]; eauto with keys.
  - unfold checkConnection_getAddress_settled in Hr.
    repeat case_match; simplify_eq; eauto 10 with keys.
  - unfold autoReconnect_settled in Hr.
    repeat case_match; simplify_eq; eauto 10 with keys.
    all: match goal with H : bool_decide _ = true |- _ => apply bool_decide_eq_true in H end.
    all: match goal with H : orNull _ = Some _ |- _ => rewrite H end.
    all: eauto 10 with keys.
    apply KeysIn_fetchBalance; [exact I|]. eauto with keys.
Qed.

Lemma handle_KeysIn c ev : KeysIn V c -> KeysIn V (handle c ev).
Proof using V_valid.
  intros H. destruct ev; simpl.
  - destruct (isClientReady c); [assumption|].
    unfold autoReconnect. simpl.
    destruct (localStorage c) as [s|] eqn:Hs; [|eauto with keys].
    destruct (isEmpty (saved_address s)); [eauto with keys|].
    apply KeysIn_await; [|eauto with keys].
    destruct H as (_ & _ & H3 & _). now apply H3.
  - apply KeysIn_await; [exact I|]. eauto with keys.
  - apply KeysIn_await; [exact I|]. eauto with keys.
  - unfold disconnect. eauto 10 with keys.
  - apply KeysIn_fetchBalance; [exact I|assumption].
  - destruct (timers c !! id) as [[[|captured] ms]|] eqn:Hl; [| |assumption].
    + apply KeysIn_await; [exact I|]. eauto with keys.
    + apply KeysIn_await; [exact I|]. eauto with keys.
  - destruct (pending c !! n) as [p|] eqn:Hp; [|assumption].
    destruct (resume p r _) as [c'|] eqn:Hr; [|assumption].
    eapply resume_KeysIn; [| |exact Hr]; [|eauto with keys].
    destruct H as (_ & _ & _ & H4). eapply Forall_lookup_1; eauto.
Qed.

Lemma monitorEffect_KeysIn previous c : KeysIn V c -> KeysIn V (monitorEffect previous c).
Proof.
  intros H. unfold monitorEffect.
  destruct (bool_decide (previous = deps c)); [exact H|].
  destruct (monitorInterval c); simpl;
    match goal with |- context [if ?b then _ else _] => destruct b end; exact H.
Qed.

Lemma step_KeysIn c ev : KeysIn V c -> KeysIn V (step c ev).
Proof using V_valid. intros H. unfold step. now apply monitorEffect_KeysIn, handle_KeysIn. Qed.

Lemma initial_KeysIn stored : storedIn V stored -> KeysIn V (initial stored).
Proof.
  intros Hs. split_and!; simpl.
  - split; [discriminate|]. intros H. now contradiction H.
  - discriminate.
  - intros s ->. exact Hs.
  - constructor.
Qed.

Lemma fold_step_KeysIn evs : forall c, KeysIn V c -> KeysIn V (fold_left step evs c).
Proof using V_valid.
  induction evs as [|ev evs IH]; intros c H; simpl; [assumption|].
  apply IH. now apply step_KeysIn.
Qed.

Lemma run_KeysIn stored evs : storedIn V stored -> KeysIn V (run stored evs).
Proof using V_valid. intros H. apply fold_step_KeysIn, initial_KeysIn, H. Qed.

End WalletKeys.

Section WalletKeyTheorems.
Import Js WalletInvariants WalletDisplay.

(** The addresses that pass the test of [pollForAddress]. *)
Lemma run_validKeys stored evs :
  storedIn (fun a => validKey a = true) stored ->
  KeysIn (fun a => validKey a = true) (run stored evs).
Proof. apply run_KeysIn. auto. Qed.

Lemma validKey_hasAddress (s : WalletState) (a : string) :
  address s = Some a -> validKey a = true -> hasAddress s = true.
Proof.
  intros Ha Hv. unfold hasAddress. rewrite Ha. unfold validKey in Hv.
  now apply andb_true_iff in Hv as [Hv _].
Qed.

(** X22.  In every reachable state of the provider there is an address
    exactly when [isAuthorized] is true. *)
Theorem X22_authorized_iff_address (stored : option SavedConnection) (evs : list Event) :
  isAuthorized (state (run stored evs)) = true <-> address (state (run stored evs)) <> None.
Proof.
  apply (run_KeysIn (fun _ => True)); [auto|]. now destruct stored.
Qed.

(** X23.  When the page is opened with no stored connection, or with
    one whose address passes the test of [pollForAddress] (not empty,
    not white space only, starting with [G]), every address the
    provider ever holds in its state or writes to the store passes
    that test. *)
Theorem X23_addresses_are_valid_keys (stored : option SavedConnection) (evs : list Event) :
  storedIn (fun a => validKey a = true) stored ->
  let c := run stored evs in
  (forall a, address (state c) = Some a -> validKey a = true)
  /\ (forall s, localStorage c = Some s -> validKey (saved_address s) = true).
Proof.
  intros Hs. destruct (run_validKeys stored evs Hs) as (_ & H2 & H3 & _). now split.
Qed.

Lemma X23_witness :
  storedIn (fun a => validKey a = true) MoreSamples.storedConnection
  /\ (forall a, address (state (run MoreSamples.storedConnection MoreSamples.restoredRun))
                = Some a -> validKey a = true).
Proof.
  split; [reflexivity|].
  apply (X23_addresses_are_valid_keys MoreSamples.storedConnection MoreSamples.restoredRun).
  reflexivity.
Defined.

(** X24.  What the balance card shows in a reachable state (the page
    opened as in X23): the connect prompt only when there is no
    address and the wallet is not authorized, the loading spinner and
    the balance figures only when it is authorized, and never two of
    these three together; the connect prompt never together with the
    locked banner.  With an address and no balance, not loading and
    not locked, the card shows none of the four. *)
Theorem X24_balance_card (stored : option SavedConnection) (evs : list Event) :
  storedIn (fun a => validKey a = true) stored ->
  let s := state (run stored evs) in
  let b := render s in
  (connectPrompt b = true ->
   address s = None /\ isAuthorized s = false
   /\ lockedBanner b = false /\ loadingSpinner b = false /\ balanceFigures b = false)
  /\ (loadingSpinner b = true -> isAuthorized s = true /\ balanceFigures b = false)
  /\ (balanceFigures b = true -> isAuthorized s = true /\ balance s <> None)
  /\ (address s <> None -> balance s = None -> isLoading s = false ->
      isWalletLocked s = false ->
      b = {| lockedBanner := false; connectPrompt := false;
             loadingSpinner := false; balanceFigures := false |}).
Proof.
  intros Hs. cbn zeta. destruct (run_validKeys stored evs Hs) as (Hiff & Hvalid & _).
  set (s := state (run stored evs)) in *. clearbody s.
  assert (Hhas : hasAddress s = true <-> address s <> None).
  { split.
    - unfold hasAddress. destruct (address s); [discriminate|discriminate].
    - destruct (address s) as [a|] eqn:Ha; [|congruence].
      intros _. eapply validKey_hasAddress; eauto. }
  unfold render, shouldShowConnectMessage, shouldShowLocked, shouldShowLoading,
    shouldShowBalance, hasBalance. cbn [lockedBanner connectPrompt loadingSpinner balanceFigures].
  destruct (hasAddress s) eqn:Hh.
  - assert (Ha : address s <> None) by now apply Hhas.
    assert (Hi : isAuthorized s = true) by now apply Hiff.
    cbn [negb andb orb]. rewrite orb_false_r. split_and!.
    + discriminate.
    + intros H. split; [exact Hi|]. now destruct (balance s).
    + intros H. split; [exact Hi|]. now destruct (balance s).
    + intros _ -> -> ->. reflexivity.
  - assert (Ha : address s = None).
    { destruct (address s) eqn:Ha; [|reflexivity].
      assert (false = true) by (apply Hhas; discriminate). discriminate. }
    cbn [negb andb orb]. split_and!; try discriminate; try congruence.
    intros H. apply andb_true_iff in H as [H1 H2].
    apply negb_true_iff in H2. split_and!; auto.
    destruct (isAuthorized s) eqn:Hi; [|reflexivity].
    exfalso. apply Hiff in Hi. now apply Hi.
Qed.

Lemma X24_witness :
  storedIn (fun a => validKey a = true) None
  /\ (balanceFigures (render (state (run None Samples.settledRun))) = true ->
      isAuthorized (state (run None Samples.settledRun)) = true
      /\ balance (state (run None Samples.settledRun)) <> None).
Proof.
  split; [exact I|].
  apply (X24_balance_card None Samples.settledRun). exact I.
Defined.

End WalletKeyTheorems.

(** ** The wallet controller: polling and connecting *)
Section WalletPolling.
Import Js WalletInvariants.

(** The monitor effect touches the intervals only. *)
Lemma monitorEffect_frame previous c :
  state (monitorEffect previous c) = state c
  /\ pollingIntervalRef (monitorEffect previous c) = pollingIntervalRef c
  /\ isClientReady (monitorEffect previous c) = isClientReady c
  /\ localStorage (monitorEffect previous c) = localStorage c
  /\ pending (monitorEffect previous c) = pending c
  /\ output (monitorEffect previous c) = output c.
Proof.
  unfold monitorEffect. destruct (bool_decide (previous = deps c)); [now split_and!|].
  destruct (monitorInterval c); simpl;
    match goal with |- context [if ?b then _ else _] => destruct b end;
    now split_and!.
Qed.

Lemma validKey_nonempty a : validKey a = true -> isEmpty a = false.
Proof.
  unfold validKey. intros H. apply andb_true_iff in H as [H _].
  apply andb_true_iff in H as [H _]. now apply negb_true_iff in H.
Qed.

Lemma validKey_guard a :
  validKey a = true -> negb (isEmpty (trim a)) && startsWith a "G" = true.
Proof.
  unfold validKey. intros H. apply andb_true_iff in H as [H H2].
  apply andb_true_iff in H as [_ H1]. now rewrite H1, H2.
Qed.

(** On an answer that is not a valid key [pollForAddress] returns
    without a trace. *)
Lemma pollForAddress_settled_idle r c :
  keepsPolling r = true -> pollForAddress_settled r c = Some c.
Proof.
  destruct r as [b| |[a|]|l|e]; try discriminate; try reflexivity.
  intros H. cbn [keepsPolling] in H. apply negb_true_iff in H.
  unfold pollForAddress_settled, orNull, truthy.
  destruct (isEmpty a) eqn:He; cbn [negb]; [reflexivity|].
  unfold validKey in H. rewrite He in H. cbn [negb andb] in H. now rewrite H.
Qed.

(** One polling round leaves the state, the store and the intervals. *)
Lemma polling_round c ev :
  Armed c ->
  pollingRounds c [ev] = true ->
  state (step c ev) = state c
  /\ timers (step c ev) = timers c
  /\ pollingIntervalRef (step c ev) = pollingIntervalRef c
  /\ localStorage (step c ev) = localStorage c.
Proof.
  intros (_ & [Href _] & _) H. cbn [pollingRounds] in H. rewrite andb_true_r in H.
  destruct ev as [| | | |pk|id|n r]; try discriminate.
  - apply bool_decide_eq_true in H. apply Href in H.
    unfold step. cbn [handle]. rewrite H. rewrite monitorEffect_same by reflexivity.
    now split_and!.
  - unfold step. cbn [handle].
    destruct (pending c !! n) as [[]|]; try discriminate. cbn [resume].
    rewrite (pollForAddress_settled_idle r _ H).
    rewrite monitorEffect_same by reflexivity. now split_and!.
Qed.

Lemma pollingRounds_cons c ev evs :
  pollingRounds c (ev :: evs) = true ->
  pollingRounds c [ev] = true /\ pollingRounds (step c ev) evs = true.
Proof.
  cbn [pollingRounds]. rewrite andb_true_r. intros H. now apply andb_true_iff in H.
Qed.

Lemma polling_rounds evs : forall c,
  Armed c ->
  pollingRounds c evs = true ->
  state (fold_left step evs c) = state c
  /\ timers (fold_left step evs c) = timers c
  /\ pollingIntervalRef (fold_left step evs c) = pollingIntervalRef c
  /\ localStorage (fold_left step evs c) = localStorage c.
Proof.
  induction evs as [|ev evs IH]; intros c Harm H; [now split_and!|].
  apply pollingRounds_cons in H as [H1 H2].
  destruct (polling_round c ev Harm H1) as (Hs & Ht & Hr & Hl).
  destruct (IH (step c ev) (step_Armed c ev Harm) H2) as (Hs' & Ht' & Hr' & Hl').
  cbn [fold_left]. split_and!; congruence.
Qed.

Lemma run_snoc stored evs ev : run stored (evs ++ [ev]) = step (run stored evs) ev.
Proof. unfold run. now rewrite fold_left_app. Qed.

End WalletPolling.

Section WalletPollingTheorems.
Import Js WalletInvariants.

(** X25.  Polling goes on for as long as it takes: through any number
    of ticks of the polling interval and of answers of [getAddress()]
    that are a rejection, no address, or an address that fails the
    test, the state, the store, the polling reference and the table of
    intervals stay as they were. *)
Theorem X25_polling_never_gives_up (stored : option SavedConnection)
        (before rounds : list Event) :
  let c := run stored before in
  pollingRounds c rounds = true ->
  let c' := fold_left step rounds c in
  state c' = state c
  /\ timers c' = timers c
  /\ pollingIntervalRef c' = pollingIntervalRef c
  /\ localStorage c' = localStorage c.
Proof.
  cbn zeta. intros H. apply polling_rounds; [apply run_Armed|exact H].
Qed.

Lemma X25_witness :
  let c := run None MoreSamples.waitingRun in
  pollingRounds c MoreSamples.idleRounds = true
  /\ state (fold_left step MoreSamples.idleRounds c) = state c.
Proof.
  cbn zeta. split; [vm_compute; reflexivity|].
  apply (X25_polling_never_gives_up None MoreSamples.waitingRun MoreSamples.idleRounds).
  vm_compute. reflexivity.
Defined.

End WalletPollingTheorems.

Section WalletConnect.
Import Js WalletInvariants.

(** [stopPolling] empties the polling reference and touches nothing
    but the intervals. *)
Lemma stopPolling_fields c :
  pollingIntervalRef (stopPolling c) = None
  /\ state (stopPolling c) = state c
  /\ output (stopPolling c) = output c
  /\ pending (stopPolling c) = pending c
  /\ localStorage (stopPolling c) = localStorage c
  /\ isClientReady (stopPolling c) = isClientReady c.
Proof.
  unfold stopPolling. destruct (pollingIntervalRef c) eqn:H; now split_and!.
Qed.

End WalletConnect.

Section WalletConnectTheorems.
Import Js WalletInvariants.

(** X26.  When [getAddress()] answers a poll with a valid key, the
    provider is connected in that very turn: the state holds the key,
    is authorized, not loading, not locked and without error; the
    polling reference is empty and no polling interval is left; the
    ledger lookup for the key is requested; with a ready provider the
    monitor interval runs for the key.  The connection is written to
    the store only later, when that lookup settles, and then whatever
    its outcome. *)
Theorem X26_poll_success_connects (stored : option SavedConnection) (evs : list Event)
        (n : nat) (pk : string) :
  let c := run stored evs in
  pending c !! n = Some AwaitPoll_getAddress ->
  validKey pk = true ->
  let c' := step c (Settle n (Resolved_getAddress (Some pk))) in
  state c' = withAddressRetrieved pk (state c)
  /\ pollingIntervalRef c' = None
  /\ (forall id, ~ isPollingTimer c' id)
  /\ output c' = (output c ++ [Horizon_loadAccount pk])%list
  /\ pending c' = (delete n (pending c) ++ [AwaitFetchBalance pk (Some pk)])%list
  /\ localStorage c' = localStorage c
  /\ (isClientReady c = true ->
      exists id,
        timers c' !! id = Some {| callback := checkConnection (Some pk); period := 2000 |})
  /\ (forall r,
        (exists balances, r = Resolved_loadAccount balances) \/ (exists e, r = Rejected e) ->
        localStorage (step c' (Settle (List.length (delete n (pending c))) r))
        = Some {| saved_address := pk; saved_isAuthorized := true |}).
Proof.
  cbn zeta. intros Hp Hv.
  set (c := run stored evs) in *.
  set (ev := Settle n (Resolved_getAddress (Some pk))).
  assert (Harm : Armed (step c ev)).
  { unfold c. rewrite <- run_snoc. apply run_Armed. }
  destruct (monitorEffect_frame (deps c) (handle c ev)) as (Hs & Hr & Hready & Hl & Hpend & Ho).
  fold (step c ev) in Hs, Hr, Hready, Hl, Hpend, Ho.
  assert (Hh : handle c ev
               = fetchBalance (Some pk) (Some pk)
                   (setState (withAddressRetrieved pk)
                      (stopPolling (setPending (delete n (pending c)) c)))).
  { unfold ev. cbn [handle]. rewrite Hp. cbn [resume]. unfold pollForAddress_settled.
    unfold orNull, truthy. rewrite (validKey_nonempty pk Hv). cbn [negb].
    rewrite (validKey_guard pk Hv). reflexivity. }
  assert (Hf : forall c0, fetchBalance (Some pk) (Some pk) c0
                          = await (AwaitFetchBalance pk (Some pk))
                              (emit (Horizon_loadAccount pk) c0)).
  { intros c0. unfold fetchBalance. rewrite guard_invalidKey.
    pose proof (validKey_guard pk Hv) as Hg. apply andb_true_iff in Hg as [Hg _].
    apply negb_true_iff in Hg.
    destruct (allWhiteSpace pk) eqn:Hw; [|reflexivity].
    apply trim_blank in Hw. rewrite Hw in Hg. discriminate. }
  rewrite Hf in Hh.
  destruct (stopPolling_fields (setPending (delete n (pending c)) c))
    as (Hsp1 & Hsp2 & Hsp3 & Hsp4 & Hsp5 & Hsp6).
  assert (Href : pollingIntervalRef (handle c ev) = None)
    by (rewrite Hh; exact Hsp1).
  assert (Hstate : state (handle c ev) = withAddressRetrieved pk (state c))
    by (rewrite Hh; cbn [state await emit setState setPending]; now rewrite Hsp2).
  assert (Hout : output (handle c ev) = (output c ++ [Horizon_loadAccount pk])%list)
    by (rewrite Hh; cbn [output await emit setState setPending]; now rewrite Hsp3).
  assert (Hpending : pending (handle c ev)
                     = (delete n (pending c) ++ [AwaitFetchBalance pk (Some pk)])%list)
    by (rewrite Hh; cbn [pending await emit setState setPending]; now rewrite Hsp4).
  assert (Hstore : localStorage (handle c ev) = localStorage c)
    by (rewrite Hh; exact Hsp5).
  assert (Hrdy : isClientReady (handle c ev) = isClientReady c)
    by (rewrite Hh; exact Hsp6).
  split_and!.
  - now rewrite Hs.
  - now rewrite Hr.
  - intros id [ms Hid]. destruct Harm as ((_ & Hpoll & _) & _).
    apply Hpoll in Hid as [Hid _]. rewrite Hr, Href in Hid. discriminate.
  - now rewrite Ho.
  - now rewrite Hpend.
  - now rewrite Hl.
  - intros Hc. destruct Harm as ((_ & _ & _ & Hcap & _) & [_ Hmon] & [_ Harm]).
    destruct Harm as [m Hm].
    { rewrite Hready, Hrdy, Hc, Hs, Hstate. simpl. now rewrite (validKey_nonempty pk Hv). }
    destruct (Hmon m Hm) as [captured Hm']. exists m.
    rewrite Hm'. rewrite (Hcap m captured _ Hm'), Hs, Hstate. reflexivity.
  - intros r Hres. unfold step at 1. cbn [handle].
    rewrite Hpend, Hpending.
    rewrite lookup_app_r by lia. rewrite Nat.sub_diag. cbn [lookup list_lookup resume].
    destruct (monitorEffect_frame
                (deps (step c ev))
                (match fetchBalance_settled (Some pk) r
                         (setPending
                            (delete (List.length (delete n (pending c)))
                               (delete n (pending c) ++ [AwaitFetchBalance pk (Some pk)])%list)
                            (step c ev)) with
                 | Some c'0 => c'0
                 | None => step c ev
                 end)) as (_ & _ & _ & Hl2 & _).
    rewrite Hl2.
    destruct Hres as [[balances ->]|[e ->]]; unfold fetchBalance_settled;
      repeat case_match; simplify_eq; reflexivity.
Qed.

Lemma X26_witness :
  pending (run None Samples.pollingRun) !! 0 = Some AwaitPoll_getAddress
  /\ validKey Samples.sampleAddress = true
  /\ state (step (run None Samples.pollingRun)
              (Settle 0 (Resolved_getAddress (Some Samples.sampleAddress))))
     = withAddressRetrieved Samples.sampleAddress (state (run None Samples.pollingRun)).
Proof.
  split; [vm_compute; reflexivity|]. split; [vm_compute; reflexivity|].
  apply (X26_poll_success_connects None Samples.pollingRun 0 Samples.sampleAddress).
  - vm_compute. reflexivity.
  - vm_compute. reflexivity.
Defined.

(** X27.  A connect that fails ([isConnected()] or [requestAccess()]
    rejects, or the answer of [isConnected()] is falsy) leaves no
    polling interval behind, not even one started by an earlier
    connect: the polling reference is empty and no polling interval is
    alive.  The state keeps its address, authorization and balance, is
    no longer loading, and carries an error message that is never
    empty; the wallet counts as locked exactly when the message of what
    was thrown contains [locked] or [denied]. *)
Theorem X27_failed_connect_stops_polling (stored : option SavedConnection)
        (evs : list Event) (n : nat) (p : Pending) (r : Settled) (e : Exn) :
  let c := run stored evs in
  pending c !! n = Some p ->
  connectFailure p r = Some e ->
  let c' := step c (Settle n r) in
  state c' = withConnectError e (state c)
  /\ error (state c') <> Some ""
  /\ error (state c') <> None
  /\ pollingIntervalRef c' = None
  /\ (forall id, ~ isPollingTimer c' id)
  /\ localStorage c' = localStorage c.
Proof.
  cbn zeta. intros Hp Hf.
  set (c := run stored evs) in *.
  set (ev := Settle n r).
  assert (Harm : Armed (step c ev)).
  { unfold c. rewrite <- run_snoc. apply run_Armed. }
  destruct (monitorEffect_frame (deps c) (handle c ev)) as (Hs & Hr & _ & Hl & _).
  fold (step c ev) in Hs, Hr, Hl.
  assert (Hh : handle c ev = connect_catch e (setPending (delete n (pending c)) c)).
  { unfold ev. cbn [handle]. rewrite Hp.
    destruct p; try discriminate; destruct r as [a| | | |e']; try discriminate;
      simpl in Hf; try (destruct (truthyConnected a) eqn:Ha; [discriminate|]);
      injection Hf as <-; simpl; rewrite ?Ha; reflexivity. }
  destruct (stopPolling_fields (setPending (delete n (pending c)) c))
    as (Hsp1 & Hsp2 & _ & _ & Hsp5 & _).
  assert (Hstate : state (handle c ev) = withConnectError e (state c)).
  { rewrite Hh. unfold connect_catch. cbn [state setState]. now rewrite Hsp2. }
  assert (Href : pollingIntervalRef (handle c ev) = None).
  { rewrite Hh. exact Hsp1. }
  split_and!.
  - now rewrite Hs.
  - rewrite Hs, Hstate. simpl. destruct (exn_message e) as [m|]; [|discriminate].
    destruct (isEmpty m) eqn:Hm; [discriminate|]. intros H. injection H as ->. discriminate.
  - rewrite Hs, Hstate. discriminate.
  - now rewrite Hr.
  - intros id [ms Hid]. destruct Harm as ((_ & Hpoll & _) & _).
    apply Hpoll in Hid as [Hid _]. rewrite Hr, Href in Hid. discriminate.
  - rewrite Hl, Hh. exact Hsp5.
Qed.

(** The theorem of X27 on a second connect, made while the first one
    is polling, whose access prompt is refused. *)
Lemma X27_witness :
  pollingIntervalRef (run None MoreSamples.retryRun) = Some 1
  /\ pending (run None MoreSamples.retryRun) !! 0 = Some AwaitConnect_requestAccess
  /\ pollingIntervalRef
       (step (run None MoreSamples.retryRun)
             (Settle 0 (Rejected (Error "User declined access"))))
     = None.
Proof.
  split; [vm_compute; reflexivity|]. split; [vm_compute; reflexivity|].
  apply (X27_failed_connect_stops_polling None MoreSamples.retryRun 0
           AwaitConnect_requestAccess (Rejected (Error "User declined access"))
           (Error "User declined access")).
  - vm_compute. reflexivity.
  - reflexivity.
Defined.

(** X28.  Opening the page with a stored connection asks the wallet
    for its address once.  When the answer is the stored address, the
    connection is restored (address set, authorized, not locked)
    without any polling.  When the answer is anything else, nothing is
    restored and polling starts, as after a granted connect; when the
    call rejects, the wallet counts as locked as well. *)
Theorem X28_auto_reconnect (saved : SavedConnection) (r : Settled) :
  isEmpty (saved_address saved) = false ->
  let c0 := run (Some saved) [Mount] in
  let c := run (Some saved) [Mount; Settle 0 r] in
  output c0 = [Freighter_getAddress]
  /\ pending c0 = [AwaitAuto_getAddress (saved_address saved)]
  /\ state c0 = initialState
  /\ match r with
     | Resolved_getAddress addr =>
         if bool_decide (orNull addr = Some (saved_address saved))
         then state c = withRestored (Some (saved_address saved)) initialState
              /\ pollingIntervalRef c = None
              /\ (forall id, ~ isPollingTimer c id)
         else state c = initialState
              /\ pollingIntervalRef c = Some 1
              /\ timers c = {[ 1 := {| callback := pollForAddress; period := 1000 |} ]}
              /\ output c = [Freighter_getAddress; Freighter_getAddress]
     | Rejected _ =>
         state c = withWalletLocked initialState
         /\ pollingIntervalRef c = Some 1
         /\ timers c = {[ 1 := {| callback := pollForAddress; period := 1000 |} ]}
         /\ output c = [Freighter_getAddress; Freighter_getAddress]
     | _ => c = c0
     end.
Proof.
  cbn zeta. intros Hne.
  assert (Hc0 : run (Some saved) [Mount]
                = {| state := initialState;
                     isClientReady := true;
                     pollingIntervalRef := None;
                     monitorInterval := None;
                     timers := ∅;
                     nextTimer := 1;
                     localStorage := Some saved;
                     pending := [AwaitAuto_getAddress (saved_address saved)];
                     output := [Freighter_getAddress] |}).
  { unfold run, step. cbn [fold_left]. unfold handle, initial at 2.
    cbn [isClientReady]. unfold autoReconnect, setIsClientReady. cbn [localStorage].
    change (localStorage (initial (Some saved))) with (Some saved). cbv iota beta.
    rewrite Hne. reflexivity. }
  split; [now rewrite Hc0|]. split; [now rewrite Hc0|]. split; [now rewrite Hc0|].
  pose proof (run_Armed (Some saved) [Mount; Settle 0 r]) as Harm.
  change [Mount; Settle 0 r] with ([Mount] ++ [Settle 0 r])%list in Harm |- *.
  rewrite run_snoc in Harm |- *. rewrite Hc0 in Harm |- *. clear Hc0.
  set (c0 := Build_Controller _ _ _ _ _ _ _ _ _) in *.
  destruct (monitorEffect_frame (deps c0) (handle c0 (Settle 0 r)))
    as (Hs & Hr & _ & _ & _ & Ho).
  fold (step c0 (Settle 0 r)) in Hs, Hr, Ho.
  destruct r as [b| |addr|l|e].
  - unfold step. cbn. reflexivity.
  - unfold step. cbn. reflexivity.
  - destruct (bool_decide (orNull addr = Some (saved_address saved))) eqn:Hd.
    + assert (Hstate : state (handle c0 (Settle 0 (Resolved_getAddress addr)))
                       = withRestored (Some (saved_address saved)) initialState).
      { cbn [handle pending c0 lookup list_lookup resume]. unfold autoReconnect_settled.
        rewrite Hd. apply bool_decide_eq_true in Hd. rewrite Hd.
        cbn [truthy]. rewrite Hne. cbn [negb].
        unfold fetchBalance. repeat case_match; reflexivity. }
      assert (Href : pollingIntervalRef (handle c0 (Settle 0 (Resolved_getAddress addr)))
                     = None).
      { cbn [handle pending c0 lookup list_lookup resume]. unfold autoReconnect_settled.
        rewrite Hd. apply bool_decide_eq_true in Hd. rewrite Hd.
        cbn [truthy]. rewrite Hne. cbn [negb].
        unfold fetchBalance. repeat case_match; reflexivity. }
      split_and!.
      * now rewrite Hs.
      * now rewrite Hr.
      * intros id [ms Hid]. destruct Harm as ((_ & Hpoll & _) & _).
        apply Hpoll in Hid as [Hid _]. rewrite Hr, Href in Hid. discriminate.
    + unfold step. cbn [handle pending c0 lookup list_lookup resume].
      unfold autoReconnect_settled. rewrite Hd.
      rewrite monitorEffect_same by reflexivity.
      split_and!; reflexivity.
  - unfold step. cbn. reflexivity.
  - unfold step. cbn [handle pending c0 lookup list_lookup resume].
    unfold autoReconnect_settled.
    rewrite monitorEffect_same by reflexivity.
    split_and!; reflexivity.
Qed.

Lemma X28_witness :
  isEmpty (saved_address MoreSamples.savedConnection) = false
  /\ output (run (Some MoreSamples.savedConnection) [Mount]) = [Freighter_getAddress].
Proof.
  split; [reflexivity|].
  exact (proj1 (X28_auto_reconnect MoreSamples.savedConnection
                  (Resolved_getAddress (Some Samples.sampleAddress)) eq_refl)).
Defined.

End WalletConnectTheorems.

(** X29.  When a check of the background monitor settles with an answer
    on which it locks -- a falsy answer of [isConnected()], or an
    answer of [getAddress()] without an address -- the state gets
    [isWalletLocked = true] and the corresponding error message, and
    [address] and [isAuthorized] keep their values.  Every live monitor
    interval runs every 2000 ms and exists only while [address] is
    non-null. *)
Theorem X29_monitor_locks_without_clearing (stored : option SavedConnection)
        (evs : list Event) (n : nat) (p : Pending) (r : Settled) (msg : string) :
  let c := run stored evs in
  pending c !! n = Some p ->
  lockingSignal p r = Some msg ->
  let c' := step c (Settle n r) in
  isWalletLocked (state c') = true
  /\ error (state c') = Some msg
  /\ address (state c') = address (state c)
  /\ isAuthorized (state c') = isAuthorized (state c)
  /\ (forall id captured ms,
        timers c !! id = Some {| callback := checkConnection captured; period := ms |} ->
        ms = 2000%Z /\ address (state c) = captured /\ address (state c) <> None).
Proof.
  intros c Hp Hneg c'.
  pose proof (run_Inv stored evs) as (H1 & H2 & H3 & H4 & H5 & H6). fold c in H1, H2, H3, H4, H5, H6.
  assert (Hok : monitorPendingOk p) by (eapply Forall_lookup_1; eauto).
  assert (Hstate : state c' = withLocked msg (state c)).
  { subst c'. unfold step. simpl. rewrite Hp.
    destruct p; try discriminate; destruct r; try discriminate; simpl in *.
    - destruct (truthyConnected connected); [discriminate|]. injection Hneg as <-.
      rewrite Hok. simpl. now rewrite monitorEffect_same.
    - destruct (truthy addr) eqn:Ht; [discriminate|]. injection Hneg as <-.
      unfold checkConnection_getAddress_settled.
      assert (Hn : truthy (orNull addr) = false).
      { unfold orNull. rewrite Ht. reflexivity. }
      rewrite Hn, Hok. simpl. now rewrite monitorEffect_same. }
  rewrite Hstate. simpl. split_and!; try reflexivity.
  intros id captured ms Hl.
  destruct (H3 _ _ _ Hl) as (_ & Ht & ->).
  rewrite <- (H4 _ _ _ Hl). split_and!; [reflexivity..|].
  intros ->. discriminate.
Qed.

(** The theorem of X29 on a connected controller whose monitor is
    checking: [getAddress()] resolves without an address, as it does
    for a locked wallet. *)
Lemma X29_witness :
  pending (run None MoreSamples.checkingRun) !! 1
    = Some (AwaitMonitor_getAddress (Some Samples.sampleAddress))
  /\ isWalletLocked (state (step (run None MoreSamples.checkingRun)
                                 (Settle 1 (Resolved_getAddress None)))) = true
  /\ error (state (step (run None MoreSamples.checkingRun) (Settle 1 (Resolved_getAddress None))))
     = Some "Wallet locked"
  /\ address (state (step (run None MoreSamples.checkingRun) (Settle 1 (Resolved_getAddress None))))
     = address (state (run None MoreSamples.checkingRun)).
Proof.
  assert (Hp : pending (run None MoreSamples.checkingRun) !! 1
               = Some (AwaitMonitor_getAddress (Some Samples.sampleAddress)))
    by (vm_compute; reflexivity).
  split; [exact Hp|].
  destruct (X29_monitor_locks_without_clearing None MoreSamples.checkingRun 1
              (AwaitMonitor_getAddress (Some Samples.sampleAddress))
              (Resolved_getAddress None) "Wallet locked" Hp eq_refl) as (Hl & He & Ha & _).
  split_and!; [exact Hl | exact He | exact Ha].
Defined.

(** ** The statistics fetch: any number of retries *)
Section BackoffFacts.
Import PortfolioMetrics Backoff.

Lemma sum_doubling (delay : Z) (r : nat) :
  fold_right Z.add 0%Z (List.map (fun i => (delay * 2 ^ Z.of_nat i)%Z) (seq 0 r))
  = (delay * (2 ^ Z.of_nat r - 1))%Z.
Proof.
  induction r as [|r IH]; [simpl; lia|].
  rewrite seq_S, List.map_app, fold_right_app. cbn [List.map fold_right Nat.add].
  assert (Hshift : forall (l : list Z) (a : Z),
            fold_right Z.add a l = (fold_right Z.add 0 l + a)%Z).
  { induction l as [|x l IHl]; intros a; cbn [fold_right]; [lia|]. rewrite IHl. lia. }
  rewrite Hshift, IH, Nat2Z.inj_succ, Z.pow_succ_r by lia. lia.
Qed.

(** A failed attempt keeps the statistics shown so far. *)
Lemma fetchContractStats_keeps_stats net retries : forall k delay v,
  (forall j, k <= j <= k + retries -> succeeds (net j) = false) ->
  contractStats (fst (fetchContractStats net k retries delay v)) = contractStats v.
Proof.
  induction retries as [|r IH]; intros k delay v Hall.
  - rewrite fetchContractStats_exhausted by (apply Hall; lia). reflexivity.
  - rewrite fetchContractStats_retry by (apply Hall; lia). cbn [fst].
    rewrite IH by (intros j Hj; apply Hall; lia).
    rewrite attemptOnce_failure_view by (apply Hall; lia). reflexivity.
Qed.

End BackoffFacts.

(** X19.  For any number of retries and any first delay: when every
    attempt fails, [fetchContractStats] makes one GET more than it has
    retries, waits before the [i]-th retry the first delay doubled [i]
    times, which adds up to the first delay times [2 ^ retries - 1],
    and ends not loading, with the error set and with the statistics
    it had before. *)
Theorem X19_backoff_doubles (net : nat -> PortfolioMetrics.FetchOutcome)
        (retries : nat) (delay : Z) (v : PortfolioMetrics.StatsView) :
  (forall j, j <= retries -> PortfolioMetrics.succeeds (net j) = false) ->
  let r := PortfolioMetrics.fetchContractStats net 0 retries delay v in
  PortfolioMetrics.fetches (snd r) = S retries
  /\ PortfolioMetrics.timeouts (snd r)
     = List.map (fun i => (delay * 2 ^ Z.of_nat i)%Z) (seq 0 retries)
  /\ Backoff.totalDelay (snd r) = (delay * (2 ^ Z.of_nat retries - 1))%Z
  /\ PortfolioMetrics.contractStats (fst r) = PortfolioMetrics.contractStats v
  /\ PortfolioMetrics.statsLoading (fst r) = false
  /\ PortfolioMetrics.statsError (fst r)
     = Some "Failed to load contract statistics after multiple attempts".
Proof.
  intros Hall. cbn zeta.
  assert (Hall' : forall j, 0 <= j <= 0 + retries -> PortfolioMetrics.succeeds (net j) = false)
    by (intros j Hj; apply Hall; lia).
  destruct (fetchContractStats_all_fail net retries 0 delay v Hall') as (Ht & Hf & Hl & He).
  split_and!; try assumption.
  - unfold Backoff.totalDelay. rewrite Ht. apply sum_doubling.
  - now apply fetchContractStats_keeps_stats.
Qed.

Lemma X19_witness :
  (forall j, j <= 5 -> PortfolioMetrics.succeeds (Backoff.alwaysFails j) = false)
  /\ Backoff.totalDelay
       (snd (PortfolioMetrics.fetchContractStats Backoff.alwaysFails 0 5 500
               PortfolioMetrics.initialView))
     = (500 * (2 ^ Z.of_nat 5 - 1))%Z.
Proof.
  split; [intros j _; reflexivity|].
  apply (X19_backoff_doubles Backoff.alwaysFails 5 500 PortfolioMetrics.initialView).
  intros j _. reflexivity.
Defined.
